(** * p4p client: channel state machine and operation life cycle

    A shallow embedding of [src/p4p_client.cpp].  The C++ objects
    ([Context], [Channel], [GetOp]) live in a store indexed by their
    address, [shared_ptr]s are optional addresses, and every call that
    leaves the file (into the pvAccess transport or into the Python
    runtime) is recorded in a trace.

    Conventions of the embedding:
    - the global interpreter lock ([PyLock] / [PyUnlock]) and the [TRACE]
      macro have no effect on the sequential behaviour and are left out;
    - a call into the transport or into the interpreter is modelled by its
      return value, which is an argument of the embedded function or a
      field of [Host]; notifications that the transport delivers are
      separate steps of [step], and any of them may arrive at any time;
    - a fault (the dereference of an empty [shared_ptr], a read past the
      end of an array) is modelled by [None], and a run that meets one has
      no end state;
    - every step runs from entry to return: a notification that the
      transport delivers while a call of the client into the transport is
      still on the stack is not modelled. *)

From stdpp Require Import gmap strings list fin_maps fin_sets.

Open Scope string_scope.
Open Scope list_scope.
Open Scope nat_scope.
Set Warnings "-clear-no-such-hyp".

(** ** Values of the host (Python) and of the transport (pvData) *)

Abbreviation addr := nat (only parsing).

(** [pva::Channel::shared_pointer] and [pva::ChannelGet::shared_pointer]
    that are not null: handles given out by the transport. *)
Abbreviation pva_Channel := nat (only parsing).
Abbreviation pva_ChannelGet := nat (only parsing).
Abbreviation pva_ChannelProvider := string (only parsing).

Inductive PVField :=
| PVScalar (v : Z)
| PVString (s : string).

(** A [pvd::PVStructure]: named fields. *)
Definition PVStructure := list (string * PVField).

Inductive StatusType := STATUSTYPE_OK | STATUSTYPE_WARNING | STATUSTYPE_ERROR | STATUSTYPE_FATAL.

Record Status := mkStatus { getType : StatusType; getMessage : string }.

Definition isOK (s : Status) : bool :=
  match getType s with STATUSTYPE_OK => true | _ => false end.

Definition isSuccess (s : Status) : bool :=
  match getType s with STATUSTYPE_OK | STATUSTYPE_WARNING => true | _ => false end.

(** What [operator<<] prints for a [pvd::Status]. *)
Definition Status_dump (s : Status) : string :=
  "Status [type=" +:+
  match getType s with
  | STATUSTYPE_OK => "OK"
  | STATUSTYPE_WARNING => "WARNING"
  | STATUSTYPE_ERROR => "ERROR"
  | STATUSTYPE_FATAL => "FATAL"
  end +:+
  match getMessage s with
  | EmptyString => ""
  | m => ", message=" +:+ m
  end +:+ "]".

Inductive PyObject :=
| Py_None
| PyBool (b : bool)
| PyStr (s : string)
| PyFunction (id : nat)
| PyOpaque (tp_name : string) (id : nat)
| P4PValue (v : PVStructure)
| PyRuntimeErrorInst (message : string)
| PyChannelObj (c : addr)
| PyOpObj (o : addr).

Inductive PyExc := PyExc_RuntimeError | PyExc_ValueError | PyExc_TypeError.

(** What a method of the extension module hands back to the interpreter:
    an object, or NULL with an exception set. *)
Inductive PyResult :=
| PyReturn (v : PyObject)
| PyRaise (exc : PyExc) (message : string).

Definition PyCallable_Check (o : PyObject) : bool :=
  match o with PyFunction _ => true | _ => false end.

Definition PyString_Check (o : PyObject) : bool :=
  match o with PyStr _ => true | _ => false end.

Definition tp_name_of (o : PyObject) : string :=
  match o with
  | Py_None => "NoneType"
  | PyBool _ => "bool"
  | PyStr _ => "str"
  | PyFunction _ => "function"
  | PyOpaque n _ => n
  | P4PValue _ => "p4p._p4p.Value"
  | PyRuntimeErrorInst _ => "exceptions.RuntimeError"
  | PyChannelObj _ => "p4p._p4p.Channel"
  | PyOpObj _ => "p4p._p4p.Operation"
  end.

(** [std::string::c_str()] read back as a C string: the characters before
    the first NUL. *)
Fixpoint c_str (s : string) : string :=
  match s with
  | EmptyString => EmptyString
  | String c s' => if Ascii.eqb c Ascii.zero then EmptyString else String c (c_str s')
  end.

Fixpoint has_NUL (s : string) : bool :=
  match s with
  | EmptyString => false
  | String c s' => Ascii.eqb c Ascii.zero || has_NUL s'
  end.

(** The "s" format of [PyArg_ParseTupleAndKeywords]: a string object
    without embedded NUL. *)
Definition PyArg_Parse_s (o : PyObject) : option string :=
  match o with
  | PyStr s => if has_NUL s then None else Some s
  | _ => None
  end.

(** ** The objects of the client *)

Module Context.
Record t := mk {
  provider : option pva_ChannelProvider;
  channels : gmap string pva_Channel
}.
Definition empty : t := mk None ∅.
End Context.

Module Channel.
Record t := mk {
  context : option addr;
  channel : option pva_Channel;
  ops : gset addr
}.
Definition empty : t := mk None None ∅.
Definition set_ops (s : gset addr) (c : t) : t := mk (context c) (channel c) s.
End Channel.

Module GetOp.
Record t := mk {
  channel : option addr;
  req : option PVStructure;
  op : option pva_ChannelGet;
  cb : option PyObject
}.
Definition empty : t := mk None None None None.
Definition set_channel (x : option addr) (g : t) : t := mk x (req g) (op g) (cb g).
Definition set_req (x : option PVStructure) (g : t) : t := mk (channel g) x (op g) (cb g).
Definition set_op (x : option pva_ChannelGet) (g : t) : t := mk (channel g) (req g) x (cb g).
Definition set_cb (x : option PyObject) (g : t) : t := mk (channel g) (req g) (op g) x.
End GetOp.

(** ** Calls that leave the file *)

Inductive Event :=
| Ev_createProvider (name : string)
| Ev_createChannel (ctx : addr) (name : string) (requester : addr) (ret : option pva_Channel)
| Ev_Channel_destroy (ch : pva_Channel)
| Ev_createChannelGet (ch : pva_Channel) (requester : addr) (req : option PVStructure)
| Ev_ChannelGet_destroy (g : pva_ChannelGet)
| Ev_ChannelGet_get (g : pva_ChannelGet)
| Ev_PyCall (this : addr) (from : pva_ChannelGet) (callable arg : PyObject)
| Ev_PyErr_Print
| Ev_PyErr_Clear
| Ev_cerr (text : string)
| Ev_cout (text : string).

(** The store.  [trace] has the most recent call first. *)
Record World := mkWorld {
  contexts : gmap addr Context.t;
  chans : gmap addr Channel.t;
  getops : gmap addr GetOp.t;
  next : addr;
  trace : list Event
}.

Definition World_init : World := mkWorld ∅ ∅ ∅ 0 [].

Definition the_ctx (w : World) (a : addr) : Context.t := default Context.empty (contexts w !! a).
Definition the_chan (w : World) (a : addr) : Channel.t := default Channel.empty (chans w !! a).
Definition the_op (w : World) (a : addr) : GetOp.t := default GetOp.empty (getops w !! a).

Definition put_ctx (a : addr) (c : Context.t) (w : World) : World :=
  mkWorld (<[a := c]> (contexts w)) (chans w) (getops w) (next w) (trace w).
Definition put_chan (a : addr) (c : Channel.t) (w : World) : World :=
  mkWorld (contexts w) (<[a := c]> (chans w)) (getops w) (next w) (trace w).
Definition put_op (a : addr) (g : GetOp.t) (w : World) : World :=
  mkWorld (contexts w) (chans w) (<[a := g]> (getops w)) (next w) (trace w).
Definition free_op (a : addr) (w : World) : World :=
  mkWorld (contexts w) (chans w) (delete a (getops w)) (next w) (trace w).
Definition emit (e : Event) (w : World) : World :=
  mkWorld (contexts w) (chans w) (getops w) (next w) (e :: trace w).
(** [new T]: the next unused address. *)
Definition bump (w : World) : World :=
  mkWorld (contexts w) (chans w) (getops w) (S (next w)) (trace w).

(** ** Reading the trace *)

Definition is_PyCall (e : Event) : bool :=
  match e with Ev_PyCall _ _ _ _ => true | _ => false end.

(** Invocations of the user callback by operation [o]. *)
Definition is_PyCall_of (o : addr) (e : Event) : bool :=
  match e with Ev_PyCall this _ _ _ => bool_decide (this = o) | _ => false end.

(** Exchanges that operation [o] asked the transport for. *)
Definition is_createChannelGet_of (o : addr) (e : Event) : bool :=
  match e with Ev_createChannelGet _ requester _ => bool_decide (requester = o) | _ => false end.

Definition is_get_on (g : pva_ChannelGet) (e : Event) : bool :=
  match e with Ev_ChannelGet_get g' => bool_decide (g' = g) | _ => false end.

(** Connections to [name] that the transport made for context [ctx]. *)
Definition is_created_for (ctx : addr) (name : string) (e : Event) : bool :=
  match e with
  | Ev_createChannel ctx' name' _ (Some _) => bool_decide (ctx' = ctx ∧ name' = name)
  | _ => false
  end.

Definition count (p : Event → bool) (tr : list Event) : nat := length (List.filter p tr).

(** Callbacks invoked on a completion of exchange [g]. *)
Definition is_PyCall_from (g : pva_ChannelGet) (e : Event) : bool :=
  match e with Ev_PyCall _ g' _ _ => bool_decide (g' = g) | _ => false end.

(** ** The host runtime

    [P4PValue_wrap] and [P4PValue_unwrap] are declared in [p4p.h] and
    defined outside this file; they are parameters.  [P4PValue_unwrap]
    either returns the structure or throws.  The two calls into the
    interpreter made by [GetOp::getDone] return NULL when they fail:
    [PyExc_RuntimeError_alloc] tells whether building the exception
    instance succeeds, [PyObject_Call] is the result of calling a callable
    with one argument. *)
Record Host := mkHost {
  P4PValue_wrap : PVStructure → option PyObject;
  P4PValue_unwrap : PyObject → string + PVStructure;
  PyExc_RuntimeError_alloc : string → bool;
  PyObject_Call : PyObject → PyObject → option PyObject
}.

(** [PyObject_CallFunction(PyExc_RuntimeError, "s", msg)]. *)
Definition PyObject_CallFunction_RuntimeError (host : Host) (msg : string) : option PyObject :=
  if PyExc_RuntimeError_alloc host msg then Some (PyRuntimeErrorInst msg) else None.

(** The answer of the transport to [createChannelGet]. *)
Inductive CreateGet :=
| Returns (g : option pva_ChannelGet)
| Throws (what : string).

(** What [PyArg_ParseTupleAndKeywords] does with the arguments of
    [Channel::py_get].  The keyword list of that call, [{"callback",
    "request"}], is not closed by a NULL (the lists of [Context::py_init] and
    of [Context::py_channel] are), so the parser reads past the end of the
    array and the source does not determine what it does: the read can
    fault, the call can return 0 with an exception set, or it can return 1
    with [cb] and [req] bound ([req] to [Py_None] when it was not given). *)
Inductive ParseGet :=
| Parse_faults
| Parse_fails (exc : PyExc) (message : string)
| Parse_binds (cb req : PyObject).

Inductive ConnectionState := NEVER_CONNECTED | CONNECTED | DISCONNECTED | DESTROYED.

Section Client.
Variable host : Host.

(** *** Context *)

(** [Context::py_init].  [created] is what [createProvider] returns. *)
Definition Context_py_init (args : PyObject) (created : option pva_ChannelProvider)
    (w : World) : World * option addr :=
  match PyArg_Parse_s args with
  | None => (w, None)
  | Some pname =>
      let ctxt := next w in
      let w := bump w in
      let w := emit (Ev_createProvider pname) w in
      (put_ctx ctxt (Context.mk created ∅) w, Some ctxt)
  end.

(** [Context::py_channel].  [created] is what [createChannel] returns when
    it is called. *)
Definition Context_py_channel (self : addr) (args : PyObject) (created : option pva_Channel)
    (w : World) : World * PyResult :=
  match PyArg_Parse_s args with
  | None => (w, PyRaise PyExc_TypeError "argument 1 must be string without null bytes")
  | Some cname =>
      match Context.provider (the_ctx w self) with
      | None => (w, PyRaise PyExc_RuntimeError "Context has been closed")
      | Some _ =>
          let req := next w in
          let w := put_chan req Channel.empty (bump w) in
          let '(w, chan) :=
            match Context.channels (the_ctx w self) !! cname with
            | Some chan => (w, Some chan)
            | None =>
                let w := emit (Ev_createChannel self cname req created) w in
                match created with
                | Some chan =>
                    let c := the_ctx w self in
                    (put_ctx self (Context.mk (Context.provider c)
                                     (<[cname := chan]> (Context.channels c))) w,
                     Some chan)
                | None => (w, None)
                end
            end in
          match chan with
          | None => (w, PyRaise PyExc_RuntimeError ("Failed to create channel '" +:+ cname +:+ "'"))
          | Some chan =>
              (put_chan req (Channel.mk (Some self) (Some chan) ∅) w,
               PyReturn (PyChannelObj req))
          end
      end
  end.

(** [Context::close]. *)
Definition Context_close (self : addr) (w : World) : World :=
  let c := the_ctx w self in
  match Context.provider c with
  | None => w
  | Some _ =>
      let chans := Context.channels c in
      let w := put_ctx self (Context.mk None ∅) w in
      foldl (λ w it, emit (Ev_Channel_destroy it.2) w) w (map_to_list chans)
  end.

Definition Context_py_close (self : addr) (w : World) : World * PyResult :=
  (Context_close self w, PyReturn Py_None).

(** *** Request options *)

(** The structure without fields that [buildRequest] creates for [None]. *)
Definition empty_struct : PVStructure := [].

(** [buildRequest]: [inl what] is the exception thrown. *)
Definition buildRequest (req : PyObject) : string + PVStructure :=
  match req with
  | Py_None => inr empty_struct
  | _ =>
      if PyString_Check req then inl "pvRequest parsing not implemented"
      else P4PValue_unwrap host req
  end.

(** *** Operations *)

(** [OpBase::cancel]. *)
Definition OpBase_cancel (this : addr) (w : World) : World * bool :=
  match GetOp.channel (the_op w this) with
  | None => (w, false)
  | Some c =>
      let ch := the_chan w c in
      if decide (this ∈ Channel.ops ch)
      then (put_chan c (Channel.set_ops (Channel.ops ch ∖ {[this]}) ch) w, true)
      else (w, false)
  end.

(** [GetOp::restart].  [answer] is what [createChannelGet] does; [Some what]
    in the result is an exception leaving the function, and the result is
    [None] when [channel->channel] is empty. *)
Definition GetOp_restart (self : addr) (answer : CreateGet) (w : World)
    : option (World * option string) :=
  let g := the_op w self in
  match GetOp.channel g with
  | None => Some (w, None)
  | Some c =>
      let temp := GetOp.op g in
      let w := put_op self (GetOp.set_op None g) w in
      let w := match temp with Some t => emit (Ev_ChannelGet_destroy t) w | None => w end in
      match Channel.channel (the_chan w c) with
      | None => None
      | Some pch =>
          let w := emit (Ev_createChannelGet pch self (GetOp.req g)) w in
          match answer with
          | Throws what => Some (w, Some what)
          | Returns temp =>
              let w := put_op self (GetOp.set_op temp (the_op w self)) w in
              let ch := the_chan w c in
              Some (put_chan c (Channel.set_ops ({[self]} ∪ Channel.ops ch) ch) w, None)
          end
      end
  end.

(** [GetOp::lostConn]. *)
Definition GetOp_lostConn (self : addr) (w : World) : World :=
  let g := the_op w self in
  match GetOp.channel g with
  | None => w
  | Some c =>
      let ch := the_chan w c in
      let w := put_chan c (Channel.set_ops ({[self]} ∪ Channel.ops ch) ch) w in
      match GetOp.op g with
      | Some temp => emit (Ev_ChannelGet_destroy temp) (put_op self (GetOp.set_op None g) w)
      | None => w
      end
  end.

(** [GetOp::cancel]. *)
Definition GetOp_cancel (this : addr) (w : World) : World * bool :=
  let w := (OpBase_cancel this w).1 in
  let g := the_op w this in
  let canceled := bool_decide (is_Some (GetOp.cb g)) in
  let w := put_op this (GetOp.set_cb None (GetOp.set_channel None g)) w in
  match GetOp.op g with
  | Some temp =>
      (emit (Ev_ChannelGet_destroy temp) (put_op this (GetOp.set_op None (the_op w this)) w),
       canceled)
  | None => (w, canceled)
  end.

(** [OpBase::py_cancel]. *)
Definition OpBase_py_cancel (self : addr) (w : World) : World * bool :=
  match GetOp.channel (the_op w self) with
  | None => (w, false)
  | Some _ => GetOp_cancel self w
  end.

(** [TheDestroyer::~TheDestroyer]: the interpreter drops the operation
    object. *)
Definition TheDestroyer_dtor (ref : addr) (w : World) : World :=
  (GetOp_cancel ref w).1.

(** [GetOp::channelGetConnect]. *)
Definition GetOp_channelGetConnect (this : addr) (status : Status)
    (channelGet : pva_ChannelGet) (w : World) : World :=
  if negb (isSuccess status)
  then emit (Ev_cerr ("channelGetConnect oops " +:+ Status_dump status)) w
  else emit (Ev_ChannelGet_get channelGet) w.

(** The object [V] that [GetOp::getDone] builds for the callback; [None]
    is NULL. *)
Definition getDone_V (status : Status) (pvStructure : PVStructure) : option PyObject :=
  if isSuccess status then P4PValue_wrap host pvStructure
  else PyObject_CallFunction_RuntimeError host (c_str (getMessage status)).

(** [GetOp::getDone]. *)
Definition GetOp_getDone (this : addr) (status : Status) (channelGet : pva_ChannelGet)
    (pvStructure : PVStructure) (w : World) : World :=
  match GetOp.cb (the_op w this) with
  | None => w
  | Some cb =>
      let V := getDone_V status pvStructure in
      let '(w, V) :=
        match V with
        | Some v => (emit (Ev_PyCall this channelGet cb v) w, PyObject_Call host cb v)
        | None => (w, None)
        end in
      match V with
      | Some _ => w
      | None => emit Ev_PyErr_Clear (emit Ev_PyErr_Print w)
      end
  end.

(** *** Channel *)

(** The handler of a [catch(std::exception& e)] that prints and goes on. *)
Definition caught (prefix : string) (e : option string) (w : World) : World :=
  match e with
  | Some what => emit (Ev_cout (prefix +:+ what)) w
  | None => w
  end.

(** The three loops of [Channel::channelStateChange] over the set that was
    swapped out of [ops]. *)
Fixpoint restart_each (answers : addr → CreateGet) (temp : list addr) (w : World)
    : option World :=
  match temp with
  | [] => Some w
  | it :: temp =>
      match GetOp_restart it (answers it) w with
      | None => None
      | Some (w, e) => restart_each answers temp (caught "Error in restart() " e w)
      end
  end.

Fixpoint lostConn_each (temp : list addr) (w : World) : World :=
  match temp with
  | [] => w
  | it :: temp => lostConn_each temp (GetOp_lostConn it w)
  end.

Fixpoint cancel_each (temp : list addr) (w : World) : World :=
  match temp with
  | [] => w
  | it :: temp => cancel_each temp (GetOp_cancel it w).1
  end.

(** [Channel::channelStateChange].  [answers it] is what the transport
    answers when operation [it] asks for a new exchange. *)
Definition Channel_channelStateChange (self : addr) (connectionState : ConnectionState)
    (answers : addr → CreateGet) (w : World) : option World :=
  let temp := elements (Channel.ops (the_chan w self)) in
  let swapped := put_chan self (Channel.set_ops ∅ (the_chan w self)) w in
  match connectionState with
  | NEVER_CONNECTED => Some w
  | CONNECTED => restart_each answers temp swapped
  | DISCONNECTED => Some (lostConn_each temp swapped)
  | DESTROYED => Some (cancel_each temp swapped)
  end.

(** Modelled from the spec: the [CATCH()] macro of [p4p.h] is not part of
    the source; a C++ exception that leaves a method is a "synchronous
    failure from the call site", here a [RuntimeError] with the text of
    [what()]. *)
Definition CATCH (what : string) : PyResult := PyRaise PyExc_RuntimeError what.

(** [Channel::channelCreated]. *)
Definition Channel_channelCreated (self : addr) (status : Status) (w : World) : World :=
  if negb (isOK status)
  then emit (Ev_cout ("Warning: unexpected in channelCreated " +:+ Status_dump status)) w
  else w.

(** [Channel::py_get].  [parsed] is what the parse of the arguments does
    and [connected] what [isConnected] returns.  The result is [None] when
    the call faults: in the parse, or at [SELF->channel] when the object has
    no channel behind it ([SELF] is empty in an object that the interpreter
    made without [Context::py_channel]), or in [GetOp::restart].  [tp_new] of
    the operation type is taken to succeed. *)
Definition Channel_py_get (self : addr) (parsed : ParseGet) (connected : bool)
    (answer : CreateGet) (w : World) : option (World * PyResult) :=
  match parsed with
  | Parse_faults => None
  | Parse_fails exc message => Some (w, PyRaise exc message)
  | Parse_binds cb req =>
      if negb (PyCallable_Check cb)
      then Some (w, PyRaise PyExc_ValueError ("callable required, not " +:+ tp_name_of cb))
      else
        match chans w !! self with
        | None => None
        | Some SELF =>
            match Channel.channel SELF with
            | None => Some (w, PyRaise PyExc_RuntimeError "Channel closed")
            | Some _ =>
                let reqop := next w in
                let w := put_op reqop (GetOp.mk (Some self) None None None) (bump w) in
                let w := put_op reqop (GetOp.set_cb (Some cb) (the_op w reqop)) w in
                match buildRequest req with
                | inl what =>
                    (* unwinding destroys the only reference: ~OpBase *)
                    Some (free_op reqop (OpBase_cancel reqop w).1, CATCH what)
                | inr opts =>
                    let w := put_op reqop (GetOp.set_req (Some opts) (the_op w reqop)) w in
                    let ch := the_chan w self in
                    let w :=
                      put_chan self (Channel.set_ops ({[reqop]} ∪ Channel.ops ch) ch) w in
                    if connected then
                      match GetOp_restart reqop answer w with
                      | None => None
                      | Some (w, Some what) => Some (w, CATCH what)
                      | Some (w, None) => Some (w, PyReturn (PyOpObj reqop))
                      end
                    else Some (w, PyReturn (PyOpObj reqop))
                end
            end
        end
  end.

(** [Channel::py_name]; [getChannelName] is answered by the transport.
    The result is [None] when [SELF] is empty, as in [Channel::py_get]. *)
Definition Channel_py_name (self : addr) (name : string) (w : World) : option PyResult :=
  match chans w !! self with
  | None => None
  | Some SELF =>
      match Channel.channel SELF with
      | None => Some (PyRaise PyExc_RuntimeError "Channel closed")
      | Some _ => Some (PyReturn (PyStr name))
      end
  end.

(** ** Runs of the client *)

(** What the interpreter and the transport can do to the client. *)
Inductive Action :=
| Call_Context_init (args : PyObject) (created : option pva_ChannelProvider)
| Call_Context_channel (self : addr) (args : PyObject) (created : option pva_Channel)
| Call_Context_close (self : addr)
| Call_Channel_get (self : addr) (parsed : ParseGet) (connected : bool) (answer : CreateGet)
| Call_Op_cancel (self : addr)
| Drop_Op (self : addr)
| Notify_channelCreated (self : addr) (status : Status)
| Notify_channelStateChange (self : addr) (s : ConnectionState) (answers : addr → CreateGet)
| Notify_channelGetConnect (this : addr) (status : Status) (channelGet : pva_ChannelGet)
| Notify_getDone (this : addr) (status : Status) (channelGet : pva_ChannelGet)
    (pvStructure : PVStructure).

Definition step (a : Action) (w : World) : option World :=
  match a with
  | Call_Context_init args created => Some (Context_py_init args created w).1
  | Call_Context_channel self args created => Some (Context_py_channel self args created w).1
  | Call_Context_close self => Some (Context_close self w)
  | Call_Channel_get self parsed connected answer =>
      fst <$> Channel_py_get self parsed connected answer w
  | Call_Op_cancel self => Some (OpBase_py_cancel self w).1
  | Drop_Op self => Some (TheDestroyer_dtor self w)
  | Notify_channelCreated self status => Some (Channel_channelCreated self status w)
  | Notify_channelStateChange self s answers => Channel_channelStateChange self s answers w
  | Notify_channelGetConnect this status channelGet =>
      Some (GetOp_channelGetConnect this status channelGet w)
  | Notify_getDone this status channelGet pvStructure =>
      Some (GetOp_getDone this status channelGet pvStructure w)
  end.

Fixpoint run (acts : list Action) (w : World) : option World :=
  match acts with
  | [] => Some w
  | a :: acts =>
      match step a w with
      | None => None
      | Some w => run acts w
      end
  end.

(** The worlds the client can be in. *)
Definition reachable (w : World) : Prop := ∃ acts, run acts World_init = Some w.

End Client.

(** ** The hooks of the cycle collector *)

(** [GetOp::clear] ([OpBase::py_clear]): the callback reference is swapped
    out and released. *)
Definition GetOp_clear (this : addr) (w : World) : World :=
  put_op this (GetOp.set_cb None (the_op w this)) w.

(** [GetOp::traverse] ([OpBase::py_traverse]) with [Py_VISIT]: the objects
    handed to [visit], and the value returned. *)
Definition GetOp_traverse (visit : PyObject → Z) (this : addr) (w : World)
    : list PyObject * Z :=
  match GetOp.cb (the_op w this) with
  | Some f => ([f], if Z.eqb (visit f) 0 then 0%Z else visit f)
  | None => ([], 0%Z)
  end.

(** ** What a step can add to the trace *)

Definition step_emits (host : Host) (a : Action) (e : Event) : Prop :=
  match e with
  | Ev_createProvider _ => ∃ args created, a = Call_Context_init args created
  | Ev_createChannel ctx name _ ret =>
      ∃ args, a = Call_Context_channel ctx args ret ∧ PyArg_Parse_s args = Some name
  | Ev_Channel_destroy _ => ∃ self, a = Call_Context_close self
  | Ev_createChannelGet _ _ _ =>
      (∃ self parsed answer, a = Call_Channel_get self parsed true answer) ∨
      (∃ self answers, a = Notify_channelStateChange self CONNECTED answers)
  | Ev_ChannelGet_destroy _ => True
  | Ev_ChannelGet_get g =>
      ∃ this status, a = Notify_channelGetConnect this status g ∧ isSuccess status = true
  | Ev_PyCall this g f v =>
      ∃ status pv, a = Notify_getDone this status g pv ∧ getDone_V host status pv = Some v
  | Ev_PyErr_Print | Ev_PyErr_Clear => ∃ this status g pv, a = Notify_getDone this status g pv
  | Ev_cerr _ =>
      ∃ this status g, a = Notify_channelGetConnect this status g ∧ isSuccess status = false
  | Ev_cout _ =>
      (∃ self answers, a = Notify_channelStateChange self CONNECTED answers) ∨
      (∃ self status, a = Notify_channelCreated self status ∧ isOK status = false)
  end.

Definition connects (g : pva_ChannelGet) (a : Action) : bool :=
  match a with
  | Notify_channelGetConnect _ status g' => isSuccess status && bool_decide (g' = g)
  | _ => false
  end.

Definition is_Context_call (a : Action) : bool :=
  match a with
  | Call_Context_init _ _ | Call_Context_channel _ _ _ | Call_Context_close _ => true
  | _ => false
  end.

(** The transport completes an exchange only after its data has been
    requested with [get()]. *)
Fixpoint completions_answer_requests (host : Host) (acts : list Action) (w : World) : Prop :=
  match acts with
  | [] => True
  | a :: acts =>
      match a with
      | Notify_getDone _ _ g _ => 0 < count (is_get_on g) (trace w)
      | _ => True
      end ∧
      match step host a w with
      | Some w' => completions_answer_requests host acts w'
      | None => True
      end
  end.

(** The world in which [Channel::py_get] has created and registered the
    operation, before it looks at [isConnected]. *)
Definition registered_get (self : addr) (cb : PyObject) (opts : PVStructure) (w : World) : World :=
  put_chan self
    (Channel.set_ops ({[next w]} ∪ Channel.ops (the_chan w self)) (the_chan w self))
    (put_op (next w) (GetOp.mk (Some self) (Some opts) None (Some cb)) (bump w)).

(** ** Invariants

    What holds of every world the client can reach. *)

(** The calls of [destroy()] on an exchange handle that may be empty. *)
Definition destroyed (temp : option pva_ChannelGet) : list Event :=
  match temp with Some t => [Ev_ChannelGet_destroy t] | None => [] end.

Definition answered (answer : CreateGet) : option pva_ChannelGet :=
  match answer with Returns t => t | Throws _ => None end.

Definition thrown (answer : CreateGet) : option string :=
  match answer with Returns _ => None | Throws what => Some what end.

Record Inv (w : World) : Prop := mkInv {
  inv_fresh_ctx : ∀ a, next w ≤ a → contexts w !! a = None;
  inv_fresh_chan : ∀ a, next w ≤ a → the_chan w a = Channel.empty;
  inv_fresh_op : ∀ a, next w ≤ a → the_op w a = GetOp.empty;
  (* a registered operation is bound to the channel that holds it *)
  inv_registered : ∀ c o,
    o ∈ Channel.ops (the_chan w c) → GetOp.channel (the_op w o) = Some c;
  (* the channel an operation is bound to has a transport connection *)
  inv_bound_open : ∀ o c,
    GetOp.channel (the_op w o) = Some c → is_Some (Channel.channel (the_chan w c));
  (* a context without provider tracks no channel *)
  inv_closed_empty : ∀ a,
    Context.provider (the_ctx w a) = None → Context.channels (the_ctx w a) = ∅
}.

Definition creations (ctx : addr) (name : string) (w : World) : nat :=
  count (is_created_for ctx name) (trace w).

(** The registry and the trace agree: a registered name was connected
    exactly once, an open context has never connected a name it does not
    track, and no name was ever connected twice. *)
Definition Inv_created (w : World) : Prop :=
  ∀ ctx name,
    (next w ≤ ctx → creations ctx name w = 0) ∧
    match Context.channels (the_ctx w ctx) !! name with
    | Some _ => creations ctx name w = 1
    | None =>
        creations ctx name w ≤ 1 ∧
        (is_Some (Context.provider (the_ctx w ctx)) → creations ctx name w = 0)
    end.

(** An operation is bound to a channel exactly as long as it has a
    callback, and its callback is callable. *)
Definition well_formed_op (g : GetOp.t) : Prop :=
  (is_Some (GetOp.channel g) ↔ is_Some (GetOp.cb g)) ∧
  ∀ f, GetOp.cb g = Some f → PyCallable_Check f = true.

Definition Inv_ops (w : World) : Prop := ∀ o, well_formed_op (the_op w o).

(** Only callables are called. *)
Definition calls_callable (e : Event) : Prop :=
  match e with
  | Ev_PyCall _ _ f _ => PyCallable_Check f = true
  | _ => True
  end.

(** What no member function undoes: the trace only grows, a channel object
    keeps its transport connection, and an exchange leaves an operation
    only with a [destroy()]. *)
Definition keeps (w w' : World) : Prop :=
  (∃ delta, trace w' = delta ++ trace w) ∧
  (∀ c pch, Channel.channel (the_chan w c) = Some pch →
            Channel.channel (the_chan w' c) = Some pch) ∧
  (∀ o g, GetOp.op (the_op w o) = Some g →
          GetOp.op (the_op w' o) = Some g ∨ Ev_ChannelGet_destroy g ∈ trace w').

Definition is_ChannelGet_destroy (e : Event) : bool :=
  match e with Ev_ChannelGet_destroy _ => true | _ => false end.

(** ** How the store and the trace evolve

    Along every member function the binding of an existing operation to its
    channel and its callback can only be cleared, never set; a callback is
    invoked only for an operation that has one; an exchange is requested
    only for an operation that is bound. *)

Definition fades {A} (x' x : option A) : Prop := x' = x ∨ x' = None.

Definition justified (w : World) (e : Event) : Prop :=
  match e with
  | Ev_PyCall this _ _ _ => next w ≤ this ∨ is_Some (GetOp.cb (the_op w this))
  | Ev_createChannelGet _ o _ => next w ≤ o ∨ is_Some (GetOp.channel (the_op w o))
  | _ => True
  end.

Definition evolves (K : Event → Prop) (w w' : World) : Prop :=
  next w ≤ next w' ∧
  (∀ o, o < next w →
     fades (GetOp.channel (the_op w' o)) (GetOp.channel (the_op w o)) ∧
     fades (GetOp.cb (the_op w' o)) (GetOp.cb (the_op w o))) ∧
  ∃ delta, trace w' = delta ++ trace w ∧ Forall (λ e, K e ∧ justified w e) delta.

(** ** Scenarios

    One context on provider "pva" (address 0), channel "R1" on it (address
    1, transport connection 7) and one get with callback [PyFunction 0]
    (address 2, exchange 9). *)

Definition example_host : Host :=
  mkHost (λ pv, Some (P4PValue pv))
         (λ o, match o with P4PValue v => inr v | _ => inl "not a Value" end)
         (λ _, true)
         (λ _ _, Some Py_None).

(** A host in which no exception instance can be built. *)
Definition exhausted_host : Host :=
  mkHost (λ pv, Some (P4PValue pv))
         (λ o, match o with P4PValue v => inr v | _ => inl "not a Value" end)
         (λ _, false)
         (λ _ _, Some Py_None).

Definition open_context : list Action :=
  [Call_Context_init (PyStr "pva") (Some "pva")].

Definition get_on_R1 : list Action :=
  open_context ++
  [Call_Context_channel 0 (PyStr "R1") (Some 7);
   Call_Channel_get 1 (Parse_binds (PyFunction 0) Py_None) true (Returns (Some 9))].

Definition world_ctx : World := default World_init (run example_host open_context World_init).
Definition world_R1 : World := default World_init (run example_host get_on_R1 World_init).

Definition no_such_field : Status := mkStatus STATUSTYPE_ERROR "no such field".

(** A completion that the transport delivers although the operation was
    cancelled. *)
Definition late_completion : list Action :=
  [Notify_getDone 2 (mkStatus STATUSTYPE_OK "") 9 [("value", PVScalar 42)]].

(** The transport's message with a NUL in the middle. *)
Definition message_with_NUL : string := "no" +:+ String Ascii.zero "field".

Definition destroy_R1 : addr → CreateGet := λ _, Returns None.

(** The connect phase of exchange 9 fails; the channel then reconnects and
    the new exchange 10 completes. *)
Definition failed_connect_then_reconnect : list Action :=
  [Notify_channelGetConnect 2 no_such_field 9;
   Notify_channelStateChange 1 DISCONNECTED (λ _, Returns None);
   Notify_channelStateChange 1 CONNECTED (λ _, Returns (Some 10));
   Notify_channelGetConnect 2 (mkStatus STATUSTYPE_OK "") 10;
   Notify_getDone 2 (mkStatus STATUSTYPE_OK "") 10 [("value", PVScalar 42)]].

(** The channel "R1" before any get, and the world after a completion of
    the get on it. *)
Definition channel_R1 : list Action :=
  open_context ++ [Call_Context_channel 0 (PyStr "R1") (Some 7)].

Definition world_chan : World :=
  default World_init (run example_host channel_R1 World_init).

Definition world_done : World :=
  default World_init (run example_host late_completion world_R1).

(** ** Properties *)

(** *** Reading the store after a write *)

Create Rewrite HintDb store.

Lemma the_op_put_op a g w b :
  the_op (put_op a g w) b = if decide (a = b) then g else the_op w b.
Proof.
  unfold the_op, put_op; simpl. rewrite lookup_insert. by case_decide.
Qed.

Lemma the_chan_put_chan a c w b :
  the_chan (put_chan a c w) b = if decide (a = b) then c else the_chan w b.
Proof.
  unfold the_chan, put_chan; simpl. rewrite lookup_insert. by case_decide.
Qed.

Lemma the_ctx_put_ctx a c w b :
  the_ctx (put_ctx a c w) b = if decide (a = b) then c else the_ctx w b.
Proof.
  unfold the_ctx, put_ctx; simpl. rewrite lookup_insert. by case_decide.
Qed.

Lemma the_op_free_op a w b :
  the_op (free_op a w) b = if decide (a = b) then GetOp.empty else the_op w b.
Proof.
  unfold the_op, free_op; simpl. rewrite lookup_delete. by case_decide.
Qed.

Lemma the_op_put_chan a c w b : the_op (put_chan a c w) b = the_op w b.
Proof. reflexivity. Qed.
Lemma the_op_put_ctx a c w b : the_op (put_ctx a c w) b = the_op w b.
Proof. reflexivity. Qed.
Lemma the_op_emit e w b : the_op (emit e w) b = the_op w b.
Proof. reflexivity. Qed.
Lemma the_op_bump w b : the_op (bump w) b = the_op w b.
Proof. reflexivity. Qed.
Lemma the_chan_put_op a c w b : the_chan (put_op a c w) b = the_chan w b.
Proof. reflexivity. Qed.
Lemma the_chan_free_op a w b : the_chan (free_op a w) b = the_chan w b.
Proof. reflexivity. Qed.
Lemma the_chan_put_ctx a c w b : the_chan (put_ctx a c w) b = the_chan w b.
Proof. reflexivity. Qed.
Lemma the_chan_emit e w b : the_chan (emit e w) b = the_chan w b.
Proof. reflexivity. Qed.
Lemma the_chan_bump w b : the_chan (bump w) b = the_chan w b.
Proof. reflexivity. Qed.
Lemma the_ctx_put_op a c w b : the_ctx (put_op a c w) b = the_ctx w b.
Proof. reflexivity. Qed.
Lemma the_ctx_free_op a w b : the_ctx (free_op a w) b = the_ctx w b.
Proof. reflexivity. Qed.
Lemma the_ctx_put_chan a c w b : the_ctx (put_chan a c w) b = the_ctx w b.
Proof. reflexivity. Qed.
Lemma the_ctx_emit e w b : the_ctx (emit e w) b = the_ctx w b.
Proof. reflexivity. Qed.
Lemma the_ctx_bump w b : the_ctx (bump w) b = the_ctx w b.
Proof. reflexivity. Qed.

#[global] Hint Rewrite the_op_put_op the_op_put_chan the_op_put_ctx the_op_emit the_op_bump
  the_op_free_op the_chan_put_chan the_chan_put_op the_chan_free_op the_chan_put_ctx
  the_chan_emit the_chan_bump the_ctx_put_ctx the_ctx_put_op the_ctx_free_op
  the_ctx_put_chan the_ctx_emit the_ctx_bump : store.

Lemma set_ops_same c : Channel.set_ops (Channel.ops c) c = c.
Proof. destruct c; reflexivity. Qed.

Lemma difference_not_elem (s : gset addr) x : x ∉ s → s ∖ {[x]} = s.
Proof.
  intros Hx. apply set_eq. intros y. rewrite elem_of_difference, elem_of_singleton.
  split; [tauto|]. intros Hy. split; [done|]. by intros ->.
Qed.

(** *** What each member function does to the store and to the trace *)

Lemma OpBase_cancel_chan this w c :
  the_chan (OpBase_cancel this w).1 c =
    if decide (GetOp.channel (the_op w this) = Some c)
    then Channel.set_ops (Channel.ops (the_chan w c) ∖ {[this]}) (the_chan w c)
    else the_chan w c.
Proof.
  unfold OpBase_cancel.
  destruct (GetOp.channel (the_op w this)) as [c'|] eqn:E; simpl.
  - destruct (decide (this ∈ _)) as [Hin|Hin]; simpl.
    + rewrite the_chan_put_chan.
      destruct (decide (c' = c)) as [->|]; case_decide; congruence.
    + destruct (decide (Some c' = Some c)) as [Hc|]; [|done]. simplify_eq.
      by rewrite difference_not_elem, set_ops_same.
  - done.
Qed.

Lemma OpBase_cancel_frame this w :
  let w' := (OpBase_cancel this w).1 in
  contexts w' = contexts w ∧ getops w' = getops w ∧ next w' = next w ∧ trace w' = trace w.
Proof.
  unfold OpBase_cancel.
  destruct (GetOp.channel (the_op w this)); simpl; [|done].
  by case_decide.
Qed.

Lemma GetOp_cancel_frame this w :
  let w' := (GetOp_cancel this w).1 in
  contexts w' = contexts w ∧ next w' = next w.
Proof.
  unfold GetOp_cancel. destruct (OpBase_cancel_frame this w) as (Hc & _ & Hn & _).
  destruct (GetOp.op _); simpl; by rewrite Hc, Hn.
Qed.

Lemma GetOp_cancel_op this w o :
  the_op (GetOp_cancel this w).1 o =
    if decide (this = o) then GetOp.mk None (GetOp.req (the_op w this)) None None
    else the_op w o.
Proof.
  unfold GetOp_cancel.
  assert (Hg : ∀ a, the_op (OpBase_cancel this w).1 a = the_op w a).
  { intros a. unfold the_op. by destruct (OpBase_cancel_frame this w) as (_ & -> & _). }
  rewrite !Hg.
  destruct (GetOp.op (the_op w this)) eqn:E; simpl; autorewrite with store;
    rewrite ?Hg; repeat case_decide; try done.
  unfold GetOp.set_cb, GetOp.set_channel; simpl. by rewrite E.
Qed.

Lemma GetOp_cancel_chan this w c :
  the_chan (GetOp_cancel this w).1 c =
    if decide (GetOp.channel (the_op w this) = Some c)
    then Channel.set_ops (Channel.ops (the_chan w c) ∖ {[this]}) (the_chan w c)
    else the_chan w c.
Proof.
  rewrite <- OpBase_cancel_chan. unfold GetOp_cancel.
  by destruct (GetOp.op _).
Qed.

Lemma GetOp_cancel_trace this w :
  trace (GetOp_cancel this w).1 =
    match GetOp.op (the_op w this) with
    | Some temp => Ev_ChannelGet_destroy temp :: trace w
    | None => trace w
    end.
Proof.
  unfold GetOp_cancel.
  assert (Hg : ∀ a, the_op (OpBase_cancel this w).1 a = the_op w a).
  { intros a. unfold the_op. by destruct (OpBase_cancel_frame this w) as (_ & -> & _). }
  rewrite !Hg. destruct (OpBase_cancel_frame this w) as (_ & _ & _ & Ht).
  destruct (GetOp.op (the_op w this)); simpl; by rewrite Ht.
Qed.

Lemma GetOp_cancel_result this w :
  (GetOp_cancel this w).2 = bool_decide (is_Some (GetOp.cb (the_op w this))).
Proof.
  unfold GetOp_cancel.
  assert (Hg : ∀ a, the_op (OpBase_cancel this w).1 a = the_op w a).
  { intros a. unfold the_op. by destruct (OpBase_cancel_frame this w) as (_ & -> & _). }
  rewrite !Hg. by destruct (GetOp.op (the_op w this)).
Qed.

Lemma set_op_same g : GetOp.set_op (GetOp.op g) g = g.
Proof. destruct g; reflexivity. Qed.

Lemma GetOp_restart_unbound self answer w :
  GetOp.channel (the_op w self) = None → GetOp_restart self answer w = Some (w, None).
Proof. unfold GetOp_restart. by intros ->. Qed.

Lemma GetOp_restart_fault self answer w c :
  GetOp.channel (the_op w self) = Some c →
  Channel.channel (the_chan w c) = None →
  GetOp_restart self answer w = None.
Proof.
  unfold GetOp_restart. intros -> Hc.
  by destruct (GetOp.op (the_op w self)); simpl; autorewrite with store; rewrite Hc.
Qed.

Lemma GetOp_restart_bound self answer w c pch :
  GetOp.channel (the_op w self) = Some c →
  Channel.channel (the_chan w c) = Some pch →
  ∃ w', GetOp_restart self answer w = Some (w', thrown answer) ∧
    contexts w' = contexts w ∧ next w' = next w ∧
    (∀ o, the_op w' o =
       if decide (self = o) then GetOp.set_op (answered answer) (the_op w self)
       else the_op w o) ∧
    (∀ a, the_chan w' a =
       if decide (c = a ∧ thrown answer = None)
       then Channel.set_ops ({[self]} ∪ Channel.ops (the_chan w a)) (the_chan w a)
       else the_chan w a) ∧
    trace w' = Ev_createChannelGet pch self (GetOp.req (the_op w self))
                 :: destroyed (GetOp.op (the_op w self)) ++ trace w.
Proof.
  unfold GetOp_restart. intros -> Hc.
  destruct (GetOp.op (the_op w self)) eqn:Eop, answer as [t|what]; simpl;
    autorewrite with store; rewrite Hc; simpl;
    (eexists; split; [reflexivity|]); simpl; autorewrite with store;
    (split; [done|]); (split; [done|]);
    (split; [intros o; autorewrite with store; repeat case_decide; done|]);
    (split; [intros a; autorewrite with store; repeat case_decide; naive_solver|]);
    done.
Qed.

Lemma GetOp_lostConn_frame self w :
  let w' := GetOp_lostConn self w in
  contexts w' = contexts w ∧ next w' = next w.
Proof.
  unfold GetOp_lostConn.
  by destruct (GetOp.channel (the_op w self)), (GetOp.op (the_op w self)).
Qed.

Lemma GetOp_lostConn_op self w o :
  the_op (GetOp_lostConn self w) o =
    if decide (self = o ∧ is_Some (GetOp.channel (the_op w self)))
    then GetOp.set_op None (the_op w self) else the_op w o.
Proof.
  unfold GetOp_lostConn.
  destruct (GetOp.channel (the_op w self)) eqn:Ec; simpl.
  - destruct (GetOp.op (the_op w self)) eqn:Eop; simpl; autorewrite with store.
    + repeat case_decide; naive_solver.
    + case_decide as H; [|done]. destruct H as [<- _].
      by rewrite <- Eop, set_op_same.
  - case_decide as H; [|done]. destruct H as [_ [? ?]]. done.
Qed.

Lemma GetOp_lostConn_chan self w a :
  the_chan (GetOp_lostConn self w) a =
    if decide (GetOp.channel (the_op w self) = Some a)
    then Channel.set_ops ({[self]} ∪ Channel.ops (the_chan w a)) (the_chan w a)
    else the_chan w a.
Proof.
  unfold GetOp_lostConn.
  destruct (GetOp.channel (the_op w self)) eqn:Ec; simpl; [|done].
  destruct (GetOp.op (the_op w self)); simpl; autorewrite with store;
    repeat case_decide; naive_solver.
Qed.

Lemma GetOp_lostConn_trace self w :
  trace (GetOp_lostConn self w) =
    match GetOp.channel (the_op w self) with
    | Some _ => destroyed (GetOp.op (the_op w self)) ++ trace w
    | None => trace w
    end.
Proof.
  unfold GetOp_lostConn.
  by destruct (GetOp.channel (the_op w self)), (GetOp.op (the_op w self)).
Qed.

(** *** The invariant of the store *)

Tactic Notation "goal_decide" "as" simple_intropattern(pat) :=
  match goal with |- context [decide ?P] => destruct (decide P) as pat end.
Tactic Notation "goal_decide" :=
  match goal with |- context [decide ?P] => destruct (decide P) end.

Lemma the_ctx_ext w w' a : contexts w' = contexts w → the_ctx w' a = the_ctx w a.
Proof. unfold the_ctx. by intros ->. Qed.

Lemma Inv_init : Inv World_init.
Proof. by split. Qed.

Lemma Inv_bound_lt w o c :
  Inv w → GetOp.channel (the_op w o) = Some c → o < next w ∧ c < next w.
Proof.
  intros HI Ho. split.
  - destruct (decide (o < next w)) as [|Hge]; [done|].
    rewrite (inv_fresh_op w HI o) in Ho by lia. done.
  - destruct (decide (c < next w)) as [|Hge]; [done|].
    destruct (inv_bound_open w HI o c Ho) as [x Hx].
    rewrite (inv_fresh_chan w HI c) in Hx by lia. done.
Qed.

Lemma Inv_GetOp_cancel this w : Inv w → Inv (GetOp_cancel this w).1.
Proof.
  intros HI. destruct (GetOp_cancel_frame this w) as [Hc Hn].
  split.
  - intros a. rewrite Hc, Hn. apply HI.
  - intros a. rewrite Hn, GetOp_cancel_chan. intros Ha.
    case_decide as Hb; [|by apply HI].
    apply (Inv_bound_lt _ _ _ HI) in Hb. lia.
  - intros a. rewrite Hn, GetOp_cancel_op. intros Ha.
    case_decide as Hb; [|by apply HI]. subst a.
    by rewrite (inv_fresh_op w HI this Ha).
  - intros c o. rewrite GetOp_cancel_chan, GetOp_cancel_op. intros Ho.
    case_decide as Hb.
    + simpl in Ho. apply elem_of_difference in Ho as [Ho Hne].
      rewrite elem_of_singleton in Hne. rewrite decide_False by done. by apply HI.
    + case_decide as Hd; [subst o|by apply HI].
      destruct Hb. by apply HI.
  - intros o c. rewrite GetOp_cancel_op, GetOp_cancel_chan.
    case_decide; [done|]. intros Ho.
    case_decide; simpl; by eapply inv_bound_open.
  - intros a. rewrite (the_ctx_ext _ _ _ Hc). apply HI.
Qed.

Lemma Inv_cancel_each l w : Inv w → Inv (cancel_each l w).
Proof.
  revert w. induction l as [|it l IH]; intros w HI; simpl; [done|].
  by apply IH, Inv_GetOp_cancel.
Qed.

Lemma Inv_GetOp_lostConn self w : Inv w → Inv (GetOp_lostConn self w).
Proof.
  intros HI. destruct (GetOp_lostConn_frame self w) as [Hc Hn].
  split.
  - intros a. rewrite Hc, Hn. apply HI.
  - intros a. rewrite Hn, GetOp_lostConn_chan. intros Ha.
    case_decide as Hb; [|by apply HI].
    apply (Inv_bound_lt _ _ _ HI) in Hb. lia.
  - intros a. rewrite Hn, GetOp_lostConn_op. intros Ha.
    case_decide as Hb; [|by apply HI]. destruct Hb as [<- [c Hb]].
    apply (Inv_bound_lt _ _ _ HI) in Hb. lia.
  - intros c o. rewrite GetOp_lostConn_chan, !GetOp_lostConn_op. intros Ho.
    assert (GetOp.channel (the_op w o) = Some c) as Hoc.
    { case_decide as Hb; [|by apply HI]. simpl in Ho.
      apply elem_of_union in Ho as [Ho|Ho]; [|by apply HI].
      apply elem_of_singleton in Ho. by subst. }
    clear Ho. destruct (decide (self = o ∧ _)) as [[<- _]|]; done.
  - intros o c. rewrite GetOp_lostConn_op, GetOp_lostConn_chan. intros Ho.
    assert (GetOp.channel (the_op w o) = Some c) as Hoc.
    { case_decide as Hd; [|done]. by destruct Hd as [<- _]. }
    goal_decide; simpl; by eapply inv_bound_open.
  - intros a. rewrite (the_ctx_ext _ _ _ Hc). apply HI.
Qed.

Lemma Inv_lostConn_each l w : Inv w → Inv (lostConn_each l w).
Proof.
  revert w. induction l as [|it l IH]; intros w HI; simpl; [done|].
  by apply IH, Inv_GetOp_lostConn.
Qed.

Lemma GetOp_restart_total self answer w :
  Inv w → ∃ w', GetOp_restart self answer w = Some (w', thrown answer) ∨
                (GetOp_restart self answer w = Some (w', None) ∧ w' = w ∧
                 GetOp.channel (the_op w self) = None).
Proof.
  intros HI. destruct (GetOp.channel (the_op w self)) as [c|] eqn:Ec.
  - destruct (inv_bound_open w HI self c Ec) as [pch Hpch].
    destruct (GetOp_restart_bound self answer w c pch Ec Hpch) as (w' & Hr & _).
    exists w'. by left.
  - exists w. right. by rewrite GetOp_restart_unbound.
Qed.

Lemma Inv_GetOp_restart self answer w w' e :
  Inv w → GetOp_restart self answer w = Some (w', e) → Inv w'.
Proof.
  intros HI Hr. destruct (GetOp.channel (the_op w self)) as [c|] eqn:Ec.
  2:{ rewrite GetOp_restart_unbound in Hr by done. by simplify_eq. }
  destruct (inv_bound_open w HI self c Ec) as [pch Hpch].
  destruct (GetOp_restart_bound self answer w c pch Ec Hpch)
    as (w'' & Hr' & Hc & Hn & Hop & Hch & _).
  rewrite Hr in Hr'. simplify_eq.
  destruct (Inv_bound_lt _ _ _ HI Ec) as [Hlt1 Hlt2].
  assert (Hsame : ∀ o, GetOp.channel (the_op w'' o) = GetOp.channel (the_op w o)).
  { intros o. rewrite Hop. goal_decide; by subst. }
  assert (Hopen : ∀ a, Channel.channel (the_chan w'' a) = Channel.channel (the_chan w a)).
  { intros a. rewrite Hch. by goal_decide. }
  split.
  - intros a. rewrite Hc, Hn. apply HI.
  - intros a. rewrite Hn, Hch. intros Ha.
    goal_decide; [lia|by apply HI].
  - intros a. rewrite Hn, Hop. intros Ha.
    goal_decide; [lia|by apply HI].
  - intros c' o. rewrite Hsame, Hch. intros Ho.
    destruct (decide (c = c' ∧ _)) as [[<- _]|]; [|by apply HI].
    simpl in Ho. apply elem_of_union in Ho as [Ho|Ho]; [|by apply HI].
    apply elem_of_singleton in Ho. by subst.
  - intros o c'. rewrite Hsame, Hopen. apply HI.
  - intros a. rewrite (the_ctx_ext _ _ _ Hc). apply HI.
Qed.

Lemma Inv_caught prefix e w : Inv w → Inv (caught prefix e w).
Proof. intros HI. destruct e; [|done]. by destruct HI. Qed.

Lemma Inv_emit e w : Inv w → Inv (emit e w).
Proof. intros HI. by destruct HI. Qed.

Lemma restart_each_total answers l w :
  Inv w → ∃ w', restart_each answers l w = Some w' ∧ Inv w'.
Proof.
  revert w. induction l as [|it l IH]; intros w HI; simpl; [by eexists|].
  destruct (GetOp_restart_total it (answers it) w HI) as (w1 & [Hr|(Hr & _)]);
    rewrite Hr; apply IH, Inv_caught; by eapply Inv_GetOp_restart.
Qed.

Lemma Inv_swap self w :
  Inv w → Inv (put_chan self (Channel.set_ops ∅ (the_chan w self)) w).
Proof.
  intros HI. split; simpl.
  - apply HI.
  - intros a Ha. rewrite the_chan_put_chan. goal_decide; [subst|by apply HI].
    by rewrite (inv_fresh_chan w HI a Ha).
  - apply HI.
  - intros c o. rewrite the_chan_put_chan, the_op_put_chan.
    goal_decide; [simpl; by rewrite elem_of_empty|by apply HI].
  - intros o c. rewrite the_chan_put_chan, the_op_put_chan. intros Ho.
    goal_decide; [subst; simpl|]; by eapply inv_bound_open.
  - apply HI.
Qed.

Lemma Channel_channelStateChange_total self s answers w :
  Inv w → ∃ w', Channel_channelStateChange self s answers w = Some w' ∧ Inv w'.
Proof.
  intros HI. unfold Channel_channelStateChange. destruct s.
  - by eexists.
  - by apply restart_each_total, Inv_swap.
  - eexists; split; [done|]. by apply Inv_lostConn_each, Inv_swap.
  - eexists; split; [done|]. by apply Inv_cancel_each, Inv_swap.
Qed.

(** *** The cases of [Context::py_channel] *)

Lemma Context_py_channel_bad_args self args created w :
  PyArg_Parse_s args = None →
  ∃ msg, Context_py_channel self args created w = (w, PyRaise PyExc_TypeError msg).
Proof. unfold Context_py_channel. intros ->. by eexists. Qed.

Lemma Context_py_channel_closed self args created w :
  Context.provider (the_ctx w self) = None →
  ∃ exc msg, Context_py_channel self args created w = (w, PyRaise exc msg).
Proof.
  unfold Context_py_channel. intros ->. destruct (PyArg_Parse_s args); by do 2 eexists.
Qed.

Lemma Context_py_channel_found self args created w cname p chan :
  PyArg_Parse_s args = Some cname →
  Context.provider (the_ctx w self) = Some p →
  Context.channels (the_ctx w self) !! cname = Some chan →
  Context_py_channel self args created w =
    (put_chan (next w) (Channel.mk (Some self) (Some chan) ∅)
       (put_chan (next w) Channel.empty (bump w)),
     PyReturn (PyChannelObj (next w))).
Proof.
  unfold Context_py_channel. intros -> -> Hc. autorewrite with store. by rewrite Hc.
Qed.

Lemma Context_py_channel_created self args w cname p chan :
  PyArg_Parse_s args = Some cname →
  Context.provider (the_ctx w self) = Some p →
  Context.channels (the_ctx w self) !! cname = None →
  Context_py_channel self args (Some chan) w =
    (put_chan (next w) (Channel.mk (Some self) (Some chan) ∅)
       (put_ctx self (Context.mk (Some p) (<[cname := chan]> (Context.channels (the_ctx w self))))
          (emit (Ev_createChannel self cname (next w) (Some chan))
             (put_chan (next w) Channel.empty (bump w)))),
     PyReturn (PyChannelObj (next w))).
Proof.
  unfold Context_py_channel. intros -> Hp Hc. rewrite Hp. autorewrite with store.
  by rewrite Hc, Hp.
Qed.

Lemma Context_py_channel_refused self args w cname p :
  PyArg_Parse_s args = Some cname →
  Context.provider (the_ctx w self) = Some p →
  Context.channels (the_ctx w self) !! cname = None →
  Context_py_channel self args None w =
    (emit (Ev_createChannel self cname (next w) None)
       (put_chan (next w) Channel.empty (bump w)),
     PyRaise PyExc_RuntimeError ("Failed to create channel '" +:+ cname +:+ "'")).
Proof.
  unfold Context_py_channel. intros -> Hp Hc. rewrite Hp. autorewrite with store.
  by rewrite Hc.
Qed.

Lemma Inv_new_chan w c :
  Inv w → is_Some (Channel.channel c) → Channel.ops c = ∅ →
  Inv (put_chan (next w) c (put_chan (next w) Channel.empty (bump w))).
Proof.
  intros HI Hopen Hops. split; simpl.
  - intros a Ha. apply HI. lia.
  - intros a Ha. rewrite !the_chan_put_chan, the_chan_bump.
    rewrite !decide_False by lia. apply HI. lia.
  - intros a Ha. rewrite !the_op_put_chan, the_op_bump. apply HI. lia.
  - intros c' o. rewrite !the_chan_put_chan, !the_op_put_chan, the_chan_bump, the_op_bump.
    goal_decide; [by rewrite Hops, elem_of_empty|by apply HI].
  - intros o c'. rewrite !the_chan_put_chan, !the_op_put_chan, the_chan_bump, the_op_bump.
    intros Ho. goal_decide; [done|by eapply inv_bound_open].
  - apply HI.
Qed.

Lemma Inv_fresh_chan_unbound w :
  Inv w → Inv (put_chan (next w) Channel.empty (bump w)).
Proof.
  intros HI. split; simpl.
  - intros a Ha. apply HI. lia.
  - intros a Ha. rewrite the_chan_put_chan, the_chan_bump.
    goal_decide; [done|]. apply HI. lia.
  - intros a Ha. rewrite the_op_put_chan, the_op_bump. apply HI. lia.
  - intros c' o. rewrite the_chan_put_chan, the_op_put_chan, the_chan_bump, the_op_bump.
    goal_decide; [simpl; by rewrite elem_of_empty|by apply HI].
  - intros o c'. rewrite the_chan_put_chan, the_op_put_chan, the_chan_bump, the_op_bump.
    intros Ho. goal_decide; [subst c'|by eapply inv_bound_open].
    apply (Inv_bound_lt _ _ _ HI) in Ho. lia.
  - apply HI.
Qed.

Lemma Inv_put_ctx w self c :
  Inv w → is_Some (contexts w !! self) →
  (Context.provider c = None → Context.channels c = ∅) →
  Inv (put_ctx self c w).
Proof.
  intros HI Hself Hc. split; simpl; try apply HI.
  - intros a Ha. rewrite lookup_insert_ne; [by apply HI|].
    intros <-. rewrite (inv_fresh_ctx w HI self Ha) in Hself. by destruct Hself.
  - intros a. rewrite the_ctx_put_ctx. goal_decide; [done|apply HI].
Qed.

Lemma provider_allocated w self p :
  Context.provider (the_ctx w self) = Some p → is_Some (contexts w !! self).
Proof. unfold the_ctx. by destruct (contexts w !! self). Qed.

Lemma Inv_Context_py_channel self args created w :
  Inv w → Inv (Context_py_channel self args created w).1.
Proof.
  intros HI.
  destruct (PyArg_Parse_s args) as [cname|] eqn:Ea.
  2:{ destruct (Context_py_channel_bad_args self args created w Ea) as [m ->]. done. }
  destruct (Context.provider (the_ctx w self)) as [p|] eqn:Ep.
  2:{ destruct (Context_py_channel_closed self args created w Ep) as (e & m & ->). done. }
  destruct (Context.channels (the_ctx w self) !! cname) as [chan|] eqn:Ec.
  { rewrite (Context_py_channel_found _ _ _ _ _ _ _ Ea Ep Ec). simpl.
    by apply Inv_new_chan. }
  destruct created as [chan|].
  - rewrite (Context_py_channel_created _ _ _ _ _ _ Ea Ep Ec). simpl.
    pose proof (Inv_fresh_chan_unbound w HI) as HI1.
    apply (Inv_emit (Ev_createChannel self cname (next w) (Some chan))) in HI1.
    apply (Inv_put_ctx _ self (Context.mk (Some p)
             (<[cname := chan]> (Context.channels (the_ctx w self))))) in HI1;
      [|by eapply provider_allocated|done].
    split; simpl; try apply HI1.
    + intros a Ha. rewrite the_chan_put_chan. rewrite decide_False by lia.
      by apply (inv_fresh_chan _ HI1).
    + intros c' o. rewrite the_chan_put_chan. goal_decide; [simpl; by rewrite elem_of_empty|].
      apply (inv_registered _ HI1).
    + intros o c'. rewrite the_chan_put_chan. intros Ho. goal_decide; [done|].
      by apply (inv_bound_open _ HI1 o).
  - rewrite (Context_py_channel_refused _ _ _ _ _ Ea Ep Ec). simpl.
    by apply Inv_emit, Inv_fresh_chan_unbound.
Qed.

Lemma Inv_Context_py_init args created w :
  Inv w → Inv (Context_py_init args created w).1.
Proof.
  intros HI. unfold Context_py_init. destruct (PyArg_Parse_s args); [|done].
  split; simpl.
  - intros a Ha. rewrite lookup_insert_ne by lia. apply HI. lia.
  - intros a Ha. apply (inv_fresh_chan w HI). lia.
  - intros a Ha. apply (inv_fresh_op w HI). lia.
  - apply HI.
  - apply HI.
  - intros a. rewrite the_ctx_put_ctx. goal_decide; [done|apply HI].
Qed.

(** *** [Context::close] *)

Lemma destroy_all_frame l w :
  let w' := foldl (λ w (it : string * pva_Channel), emit (Ev_Channel_destroy it.2) w) w l in
  contexts w' = contexts w ∧ chans w' = chans w ∧ getops w' = getops w ∧
  next w' = next w ∧ trace w' = rev (map (λ it, Ev_Channel_destroy it.2) l) ++ trace w.
Proof.
  revert w. induction l as [|it l IH]; intros w; simpl; [done|].
  destruct (IH (emit (Ev_Channel_destroy it.2) w)) as (-> & -> & -> & -> & ->).
  simpl. by rewrite <- app_assoc.
Qed.

Lemma Inv_store_ext w w' :
  contexts w' = contexts w → chans w' = chans w → getops w' = getops w →
  next w' = next w → Inv w → Inv w'.
Proof.
  intros Hc Hch Ho Hn HI.
  assert (∀ a, the_chan w' a = the_chan w a) as E1 by (intros; unfold the_chan; by rewrite Hch).
  assert (∀ a, the_op w' a = the_op w a) as E2 by (intros; unfold the_op; by rewrite Ho).
  assert (∀ a, the_ctx w' a = the_ctx w a) as E3 by (intros; unfold the_ctx; by rewrite Hc).
  split; intros *; rewrite ?Hn, ?Hc, ?E1, ?E2, ?E3; apply HI.
Qed.

Lemma Inv_Context_close self w : Inv w → Inv (Context_close self w).
Proof.
  intros HI. unfold Context_close.
  destruct (Context.provider (the_ctx w self)) as [p|] eqn:Ep; [|done].
  match goal with |- Inv (foldl _ ?w0 ?l) =>
    destruct (destroy_all_frame l w0) as (Hc & Hch & Ho & Hn & _) end.
  eapply Inv_store_ext; [done..|].
  apply Inv_put_ctx; [done|by eapply provider_allocated|done].
Qed.

Lemma Inv_bump w : Inv w → Inv (bump w).
Proof.
  intros HI. split; simpl; try apply HI.
  - intros a Ha. apply HI. lia.
  - intros a Ha. apply (inv_fresh_chan w HI). lia.
  - intros a Ha. apply (inv_fresh_op w HI). lia.
Qed.

Lemma Inv_put_op a g w :
  Inv w → a < next w →
  (∀ c, a ∈ Channel.ops (the_chan w c) → GetOp.channel g = Some c) →
  (∀ c, GetOp.channel g = Some c → is_Some (Channel.channel (the_chan w c))) →
  Inv (put_op a g w).
Proof.
  intros HI Ha Hreg Hopen. split; simpl; try apply HI.
  - intros b Hb. rewrite the_op_put_op. rewrite decide_False by lia. by apply HI.
  - intros c o. rewrite the_chan_put_op, the_op_put_op. intros Ho.
    goal_decide; [subst; by apply Hreg|by apply HI].
  - intros o c. rewrite the_chan_put_op, the_op_put_op.
    goal_decide; [by apply Hopen|by apply HI].
Qed.

Lemma Inv_put_chan_ops c s w :
  Inv w → c < next w →
  (∀ o, o ∈ s → GetOp.channel (the_op w o) = Some c) →
  Inv (put_chan c (Channel.set_ops s (the_chan w c)) w).
Proof.
  intros HI Hc Hs. split; simpl; try apply HI.
  - intros a Ha. rewrite the_chan_put_chan. rewrite decide_False by lia. by apply HI.
  - intros c' o. rewrite the_chan_put_chan, the_op_put_chan.
    goal_decide; [subst; by apply Hs|by apply HI].
  - intros o c'. rewrite the_chan_put_chan, the_op_put_chan. intros Ho.
    goal_decide; [subst; simpl|]; by eapply inv_bound_open.
Qed.

Lemma Inv_open_lt w c :
  Inv w → is_Some (Channel.channel (the_chan w c)) → c < next w.
Proof.
  intros HI [x Hx]. destruct (decide (c < next w)) as [|Hge]; [done|].
  rewrite (inv_fresh_chan w HI c) in Hx by lia. done.
Qed.

Lemma Inv_unregistered w o c :
  Inv w → GetOp.channel (the_op w o) = None → o ∉ Channel.ops (the_chan w c).
Proof. intros HI Ho Hin. apply (inv_registered w HI) in Hin. congruence. Qed.

Lemma Inv_OpBase_cancel this w : Inv w → Inv (OpBase_cancel this w).1.
Proof.
  intros HI. unfold OpBase_cancel.
  destruct (GetOp.channel (the_op w this)) as [c|] eqn:Ec; [|done].
  destruct (decide (this ∈ _)); [|done]. simpl.
  apply Inv_put_chan_ops; [done|by eapply Inv_bound_lt|].
  intros o Ho. apply elem_of_difference in Ho as [Ho _]. by apply HI.
Qed.

Lemma Inv_free_op a w :
  Inv w → (∀ c, a ∉ Channel.ops (the_chan w c)) → Inv (free_op a w).
Proof.
  intros HI Ha. split; simpl; try apply HI.
  - intros b Hb. rewrite the_op_free_op. goal_decide; [done|by apply HI].
  - intros c o. rewrite the_chan_free_op, the_op_free_op. intros Ho.
    goal_decide; [subst; by destruct (Ha c)|by apply HI].
  - intros o c. rewrite the_chan_free_op, the_op_free_op.
    goal_decide; [done|by apply HI].
Qed.

(** *** Laws of [evolves] *)

Lemma fades_refl {A} (x : option A) : fades x x.
Proof. by left. Qed.

Lemma fades_trans {A} (x y z : option A) : fades x y → fades y z → fades x z.
Proof. unfold fades. intros [->| ->] [->| ->]; auto. Qed.

Lemma fades_is_Some {A} (x' x : option A) : fades x' x → is_Some x' → is_Some x.
Proof. intros [->| ->]; [done|]. by intros [? ?]. Qed.

Lemma evolves_refl K w : evolves K w w.
Proof.
  split; [done|]. split; [intros; split; apply fades_refl|].
  exists []. by split.
Qed.

Lemma justified_back w w' e :
  next w ≤ next w' →
  (∀ o, o < next w →
     fades (GetOp.channel (the_op w' o)) (GetOp.channel (the_op w o)) ∧
     fades (GetOp.cb (the_op w' o)) (GetOp.cb (the_op w o))) →
  justified w' e → justified w e.
Proof.
  intros Hn Hf. destruct e; simpl; try done.
  - intros [Hge|Hs]; [left; lia|].
    destruct (decide (next w ≤ requester)); [by left|right].
    eapply fades_is_Some; [|done]. apply Hf. lia.
  - intros [Hge|Hs]; [left; lia|].
    destruct (decide (next w ≤ this)); [by left|right].
    eapply fades_is_Some; [|done]. apply Hf. lia.
Qed.

Lemma evolves_trans K w1 w2 w3 : evolves K w1 w2 → evolves K w2 w3 → evolves K w1 w3.
Proof.
  intros (Hn1 & Hf1 & d1 & Ht1 & Hd1) (Hn2 & Hf2 & d2 & Ht2 & Hd2).
  split; [lia|]. split.
  - intros o Ho. destruct (Hf1 o Ho) as [? ?]. destruct (Hf2 o) as [? ?]; [lia|].
    split; by eapply fades_trans.
  - exists (d2 ++ d1). split; [by rewrite Ht2, Ht1, app_assoc|].
    apply Forall_app. split; [|done].
    eapply Forall_impl; [exact Hd2|]. simpl. intros e [? ?]. split; [done|].
    by eapply justified_back.
Qed.

Lemma evolves_weaken (K K' : Event → Prop) w w' :
  (∀ e, K e → K' e) → evolves K w w' → evolves K' w w'.
Proof.
  intros HK (Hn & Hf & d & Ht & Hd). split; [done|]. split; [done|].
  exists d. split; [done|]. eapply Forall_impl; [exact Hd|]. simpl. naive_solver.
Qed.

Lemma evolves_emit (K : Event → Prop) e w : K e → justified w e → evolves K w (emit e w).
Proof.
  intros HK HJ. split; [done|]. split; [intros; split; apply fades_refl|].
  exists [e]. split; [done|]. by repeat constructor.
Qed.

Lemma evolves_store K w w' :
  next w ≤ next w' → (∀ o, o < next w → the_op w' o = the_op w o) → trace w' = trace w →
  evolves K w w'.
Proof.
  intros Hn Ho Ht. split; [done|]. split.
  - intros o Hlt. rewrite Ho by done. split; apply fades_refl.
  - exists []. by split.
Qed.

Lemma evolves_caught (K : Event → Prop) prefix e w :
  (∀ t, K (Ev_cout t)) → evolves K w (caught prefix e w).
Proof.
  intros HK. destruct e; simpl; [|apply evolves_refl]. by apply evolves_emit.
Qed.

Lemma Forall_destroyed (P : Event → Prop) temp :
  (∀ t, P (Ev_ChannelGet_destroy t)) → Forall P (destroyed temp).
Proof. intros HP. destruct temp; simpl; by repeat constructor. Qed.

Lemma evolves_GetOp_cancel (K : Event → Prop) this w :
  (∀ t, K (Ev_ChannelGet_destroy t)) → evolves K w (GetOp_cancel this w).1.
Proof.
  intros HK. destruct (GetOp_cancel_frame this w) as [_ Hn].
  split; [lia|]. split.
  - intros o _. rewrite GetOp_cancel_op. goal_decide; [by split; right|].
    split; apply fades_refl.
  - exists (destroyed (GetOp.op (the_op w this))).
    split; [rewrite GetOp_cancel_trace; by destruct (GetOp.op _)|].
    apply Forall_destroyed. by split.
Qed.

Lemma evolves_GetOp_lostConn (K : Event → Prop) self w :
  (∀ t, K (Ev_ChannelGet_destroy t)) → evolves K w (GetOp_lostConn self w).
Proof.
  intros HK. destruct (GetOp_lostConn_frame self w) as [_ Hn].
  split; [lia|]. split.
  - intros o _. rewrite GetOp_lostConn_op.
    destruct (decide (self = o ∧ _)) as [[<- _]|]; split; apply fades_refl.
  - rewrite GetOp_lostConn_trace.
    destruct (GetOp.channel (the_op w self)); [|by exists []].
    eexists; split; [done|]. apply Forall_destroyed. by split.
Qed.

Lemma evolves_GetOp_restart (K : Event → Prop) self answer w w' e :
  (∀ t, K (Ev_ChannelGet_destroy t)) →
  (∀ pch r, K (Ev_createChannelGet pch self r)) →
  GetOp_restart self answer w = Some (w', e) →
  evolves K w w'.
Proof.
  intros HK1 HK2 Hr. destruct (GetOp.channel (the_op w self)) as [c|] eqn:Ec.
  2:{ rewrite GetOp_restart_unbound in Hr by done. simplify_eq. apply evolves_refl. }
  destruct (Channel.channel (the_chan w c)) as [pch|] eqn:Ech.
  2:{ by rewrite (GetOp_restart_fault _ _ _ c) in Hr. }
  destruct (GetOp_restart_bound self answer w c pch Ec Ech)
    as (w'' & Hr' & Hc & Hn & Hop & Hch & Ht).
  rewrite Hr in Hr'. simplify_eq.
  split; [lia|]. split.
  - intros o _. rewrite Hop. goal_decide; [subst|]; split; apply fades_refl.
  - exists (Ev_createChannelGet pch self (GetOp.req (the_op w self))
              :: destroyed (GetOp.op (the_op w self))).
    split; [exact Ht|]. constructor.
    + split; [done|]. simpl. right. by rewrite Ec.
    + apply Forall_destroyed. by split.
Qed.

Lemma evolves_cancel_each (K : Event → Prop) l w :
  (∀ t, K (Ev_ChannelGet_destroy t)) → evolves K w (cancel_each l w).
Proof.
  intros HK. revert w. induction l as [|it l IH]; intros w; simpl; [apply evolves_refl|].
  eapply evolves_trans; [by apply evolves_GetOp_cancel|apply IH].
Qed.

Lemma evolves_lostConn_each (K : Event → Prop) l w :
  (∀ t, K (Ev_ChannelGet_destroy t)) → evolves K w (lostConn_each l w).
Proof.
  intros HK. revert w. induction l as [|it l IH]; intros w; simpl; [apply evolves_refl|].
  eapply evolves_trans; [by apply evolves_GetOp_lostConn|apply IH].
Qed.

Lemma evolves_restart_each (K : Event → Prop) answers l w w' :
  (∀ t, K (Ev_ChannelGet_destroy t)) →
  (∀ pch o r, K (Ev_createChannelGet pch o r)) →
  (∀ t, K (Ev_cout t)) →
  restart_each answers l w = Some w' → evolves K w w'.
Proof.
  intros HK1 HK2 HK3. revert w. induction l as [|it l IH]; intros w; simpl.
  { intros [= <-]. apply evolves_refl. }
  destruct (GetOp_restart it (answers it) w) as [[w1 e]|] eqn:Er; [|done].
  intros Hl. eapply evolves_trans; [by eapply evolves_GetOp_restart|].
  eapply evolves_trans; [by apply evolves_caught|by apply IH].
Qed.

Lemma evolves_Channel_channelStateChange (K : Event → Prop) self s answers w w' :
  (∀ t, K (Ev_ChannelGet_destroy t)) →
  (∀ pch o r, s = CONNECTED → K (Ev_createChannelGet pch o r)) →
  (∀ t, s = CONNECTED → K (Ev_cout t)) →
  Channel_channelStateChange self s answers w = Some w' → evolves K w w'.
Proof.
  intros HK1 HK2 HK3. unfold Channel_channelStateChange.
  set (swapped := put_chan _ _ w).
  assert (evolves K w swapped) as Hs by by apply evolves_store.
  destruct s.
  - intros [= <-]. apply evolves_refl.
  - intros Hl. eapply evolves_trans; [done|].
    eapply evolves_restart_each; [done| | |done]; auto.
  - intros [= <-]. eapply evolves_trans; [done|]. by apply evolves_lostConn_each.
  - intros [= <-]. eapply evolves_trans; [done|]. by apply evolves_cancel_each.
Qed.

(** *** The loops of [channelStateChange] *)

Lemma trace_grows (K : Event → Prop) w w' e :
  evolves K w w' → e ∈ trace w → e ∈ trace w'.
Proof. intros (_ & _ & d & -> & _) He. apply elem_of_app. by right. Qed.

Lemma K_any_evolves_cancel_each l w : evolves (λ _, True) w (cancel_each l w).
Proof. by apply evolves_cancel_each. Qed.

Lemma cancel_each_op l w o :
  the_op (cancel_each l w) o =
    if decide (o ∈ l) then GetOp.mk None (GetOp.req (the_op w o)) None None
    else the_op w o.
Proof.
  revert w. induction l as [|it l IH]; intros w; simpl; [done|].
  rewrite IH, !GetOp_cancel_op.
  destruct (decide (o ∈ l)) as [Hl|Hl].
  - rewrite (decide_True (P := o ∈ it :: l)) by (by right).
    by destruct (decide (it = o)) as [->|].
  - destruct (decide (it = o)) as [->|Hne].
    + rewrite (decide_True (P := o ∈ o :: l)); [done|by left].
    + rewrite (decide_False (P := o ∈ it :: l)); [done|].
      rewrite elem_of_cons. naive_solver.
Qed.

Lemma cancel_each_ops l w c :
  Channel.ops (the_chan (cancel_each l w) c) ⊆ Channel.ops (the_chan w c).
Proof.
  revert w. induction l as [|it l IH]; intros w; simpl; [done|].
  etrans; [apply IH|]. rewrite GetOp_cancel_chan.
  goal_decide; [simpl|done]. apply subseteq_difference_l. done.
Qed.

Lemma cancel_each_destroys l w o t :
  o ∈ l → GetOp.op (the_op w o) = Some t →
  Ev_ChannelGet_destroy t ∈ trace (cancel_each l w).
Proof.
  revert w. induction l as [|it l IH]; intros w Hin Hop; simpl.
  { by apply elem_of_nil in Hin. }
  destruct (decide (o = it)) as [->|Hne].
  - eapply trace_grows; [apply K_any_evolves_cancel_each|].
    rewrite GetOp_cancel_trace, Hop. by left.
  - apply IH.
    + apply elem_of_cons in Hin as [?|?]; done.
    + rewrite GetOp_cancel_op. by rewrite decide_False.
Qed.

Lemma lostConn_each_op l w o :
  the_op (lostConn_each l w) o =
    if decide (o ∈ l ∧ is_Some (GetOp.channel (the_op w o)))
    then GetOp.set_op None (the_op w o) else the_op w o.
Proof.
  revert w. induction l as [|it l IH]; intros w; simpl.
  { done. }
  rewrite IH, !GetOp_lostConn_op.
  destruct (decide (it = o ∧ is_Some (GetOp.channel (the_op w it)))) as [[-> Hs]|Hn].
  - rewrite (decide_True (P := o ∈ o :: l ∧ _)) by (split; [by left|done]).
    by goal_decide.
  - destruct (decide (o ∈ l ∧ is_Some (GetOp.channel (the_op w o)))) as [[Hl Hs]|Hn'].
    + by rewrite decide_True by (split; [by right|done]).
    + rewrite decide_False; [done|]. intros [Hin Hs].
      apply elem_of_cons in Hin as [->|Hin]; [by destruct Hn|by destruct Hn'].
Qed.

Lemma lostConn_each_ops l w c x :
  x ∈ Channel.ops (the_chan (lostConn_each l w) c) ↔
  x ∈ Channel.ops (the_chan w c) ∨ (x ∈ l ∧ GetOp.channel (the_op w x) = Some c).
Proof.
  revert w. induction l as [|it l IH]; intros w; simpl.
  { split; [by left|]. intros [?|[H _]]; [done|by apply elem_of_nil in H]. }
  rewrite IH, GetOp_lostConn_chan, GetOp_lostConn_op.
  assert (GetOp.channel
            (if decide (it = x ∧ is_Some (GetOp.channel (the_op w it)))
             then GetOp.set_op None (the_op w it) else the_op w x)
          = GetOp.channel (the_op w x)) as ->.
  { destruct (decide (it = x ∧ _)) as [[-> _]|]; done. }
  rewrite elem_of_cons.
  destruct (decide (GetOp.channel (the_op w it) = Some c)) as [Hc|Hc]; simpl.
  - rewrite elem_of_union, elem_of_singleton. naive_solver.
  - naive_solver.
Qed.

Lemma lostConn_each_destroys l w o t :
  o ∈ l → is_Some (GetOp.channel (the_op w o)) → GetOp.op (the_op w o) = Some t →
  Ev_ChannelGet_destroy t ∈ trace (lostConn_each l w).
Proof.
  revert w. induction l as [|it l IH]; intros w Hin Hc Hop; simpl.
  { by apply elem_of_nil in Hin. }
  destruct (decide (o = it)) as [->|Hne].
  - eapply trace_grows; [by apply (evolves_lostConn_each (λ _, True))|].
    rewrite GetOp_lostConn_trace, Hop. destruct Hc as [c ->]. by left.
  - apply IH.
    + apply elem_of_cons in Hin as [?|?]; done.
    + rewrite GetOp_lostConn_op. rewrite decide_False; [done|]. by intros [-> _].
    + rewrite GetOp_lostConn_op. rewrite decide_False; [done|]. by intros [-> _].
Qed.

Lemma lostConn_each_frame l w :
  contexts (lostConn_each l w) = contexts w ∧ next (lostConn_each l w) = next w.
Proof.
  revert w. induction l as [|it l IH]; intros w; simpl; [done|].
  destruct (IH (GetOp_lostConn it w)) as [-> ->]. apply GetOp_lostConn_frame.
Qed.

Lemma cancel_each_frame l w :
  contexts (cancel_each l w) = contexts w ∧ next (cancel_each l w) = next w.
Proof.
  revert w. induction l as [|it l IH]; intros w; simpl; [done|].
  destruct (IH (GetOp_cancel it w).1) as [-> ->]. apply GetOp_cancel_frame.
Qed.

Lemma GetOp_restart_frame self answer w w' e :
  GetOp_restart self answer w = Some (w', e) →
  contexts w' = contexts w ∧ next w' = next w.
Proof.
  intros Hr. destruct (GetOp.channel (the_op w self)) as [c|] eqn:Ec.
  2:{ rewrite GetOp_restart_unbound in Hr by done. by simplify_eq. }
  destruct (Channel.channel (the_chan w c)) as [pch|] eqn:Ech.
  2:{ by rewrite (GetOp_restart_fault _ _ _ c) in Hr. }
  destruct (GetOp_restart_bound self answer w c pch Ec Ech) as (w'' & Hr' & Hc & Hn & _).
  rewrite Hr in Hr'. by simplify_eq.
Qed.

Lemma caught_frame prefix e w :
  contexts (caught prefix e w) = contexts w ∧ next (caught prefix e w) = next w.
Proof. by destruct e. Qed.

Lemma restart_each_frame answers l w w' :
  restart_each answers l w = Some w' → contexts w' = contexts w ∧ next w' = next w.
Proof.
  revert w. induction l as [|it l IH]; intros w; simpl; [by intros [= <-]|].
  destruct (GetOp_restart it (answers it) w) as [[w1 e]|] eqn:Er; [|done].
  intros Hl. apply IH in Hl as [-> ->].
  destruct (caught_frame "Error in restart() " e w1) as [-> ->].
  by eapply GetOp_restart_frame.
Qed.

Lemma Channel_channelStateChange_frame self s answers w w' :
  Channel_channelStateChange self s answers w = Some w' →
  contexts w' = contexts w ∧ next w' = next w.
Proof.
  unfold Channel_channelStateChange. destruct s.
  - by intros [= <-].
  - intros Hl. by apply restart_each_frame in Hl.
  - intros [= <-]. by destruct (lostConn_each_frame
      (elements (Channel.ops (the_chan w self)))
      (put_chan self (Channel.set_ops ∅ (the_chan w self)) w)) as [-> ->].
  - intros [= <-]. by destruct (cancel_each_frame
      (elements (Channel.ops (the_chan w self)))
      (put_chan self (Channel.set_ops ∅ (the_chan w self)) w)) as [-> ->].
Qed.

(** How often operation [o] asks for an exchange while [restart_each]
    goes through [l]. *)
Lemma restart_each_count answers l w w' o :
  NoDup l → (∀ x, x ∈ l → is_Some (GetOp.channel (the_op w x))) →
  restart_each answers l w = Some w' →
  count (is_createChannelGet_of o) (trace w') =
  count (is_createChannelGet_of o) (trace w) + (if decide (o ∈ l) then 1 else 0).
Proof.
  intros Hnd. revert w. induction Hnd as [|it l Hnin Hnd IH]; intros w Hb; simpl.
  { intros [= <-]. lia. }
  destruct (GetOp_restart it (answers it) w) as [[w1 e]|] eqn:Er; [|done].
  intros Hl. destruct (Hb it) as [c Ec]; [by left|].
  destruct (Channel.channel (the_chan w c)) as [pch|] eqn:Ech.
  2:{ by rewrite (GetOp_restart_fault _ _ _ c) in Er. }
  destruct (GetOp_restart_bound it (answers it) w c pch Ec Ech)
    as (w'' & Hr' & _ & _ & Hop & _ & Ht).
  rewrite Er in Hr'. simplify_eq.
  apply IH in Hl.
  2:{ intros x Hx.
      assert (the_op (caught "Error in restart() " (thrown (answers it)) w'') x
              = the_op w'' x) as -> by by destruct (thrown _).
      rewrite Hop. goal_decide; [simpl; by rewrite Ec|]. apply Hb. by right. }
  rewrite Hl.
  assert (count (is_createChannelGet_of o)
            (trace (caught "Error in restart() " (thrown (answers it)) w''))
          = count (is_createChannelGet_of o) (trace w) + (if decide (o = it) then 1 else 0))
    as ->.
  { assert (trace (caught "Error in restart() " (thrown (answers it)) w'')
            = match thrown (answers it) with
              | Some what => [Ev_cout ("Error in restart() " +:+ what)]
              | None => []
              end ++ trace w'') as -> by by destruct (thrown _).
    unfold count. rewrite Ht, List.filter_app.
    assert (∀ temp, List.filter (is_createChannelGet_of o) (destroyed temp) = []) as Hd
      by by intros [].
    assert (List.filter (is_createChannelGet_of o)
              match thrown (answers it) with
              | Some what => [Ev_cout ("Error in restart() " +:+ what)]
              | None => []
              end = []) as -> by by destruct (thrown _).
    simpl. rewrite List.filter_app, Hd. simpl.
    destruct (decide (o = it)) as [->|Hne].
    - rewrite bool_decide_eq_true_2 by done. simpl. lia.
    - rewrite bool_decide_eq_false_2 by done. lia. }
  destruct (decide (o = it)) as [->|Hne].
  - rewrite (decide_False (P := it ∈ l)) by done.
    rewrite (decide_True (P := it ∈ it :: l)) by (by left). lia.
  - destruct (decide (o ∈ l)).
    + rewrite (decide_True (P := o ∈ it :: l)) by (by right). lia.
    + rewrite (decide_False (P := o ∈ it :: l)); [lia|].
      rewrite elem_of_cons. naive_solver.
Qed.

Section Properties.
Variable host : Host.

Lemma put_op_put_op a g1 g2 w : put_op a g2 (put_op a g1 w) = put_op a g2 w.
Proof. unfold put_op; simpl. by rewrite insert_insert_eq. Qed.

Lemma Inv_new_op w g self :
  Inv w → GetOp.channel g = Some self →
  is_Some (Channel.channel (the_chan w self)) →
  Inv (put_op (next w) g (bump w)).
Proof.
  intros HI Hg Hopen. apply Inv_put_op; [by apply Inv_bump|simpl; lia|..].
  - intros c. rewrite the_chan_bump. intros Hin.
    apply (inv_registered w HI) in Hin.
    by rewrite (inv_fresh_op w HI (next w)) in Hin.
  - intros c. rewrite the_chan_bump, Hg. by intros [= <-].
Qed.

(** *** The cases of [Channel::py_get] *)

Lemma Channel_py_get_not_callable self cb req connected answer w :
  PyCallable_Check cb = false →
  Channel_py_get host self (Parse_binds cb req) connected answer w =
    Some (w, PyRaise PyExc_ValueError ("callable required, not " +:+ tp_name_of cb)).
Proof. unfold Channel_py_get. by intros ->. Qed.

Lemma the_chan_lookup w a ch : chans w !! a = Some ch → the_chan w a = ch.
Proof. unfold the_chan. by intros ->. Qed.

Lemma Channel_py_get_closed self cb req connected answer w w' r :
  Channel.channel (the_chan w self) = None →
  Channel_py_get host self (Parse_binds cb req) connected answer w = Some (w', r) →
  w' = w ∧ ∃ exc msg, r = PyRaise exc msg.
Proof.
  unfold Channel_py_get. intros Hc.
  destruct (PyCallable_Check cb); simpl; [|intros [= <- <-]; by eauto].
  destruct (chans w !! self) as [ch|] eqn:Ech; [|done].
  rewrite (the_chan_lookup _ _ _ Ech) in Hc. rewrite Hc. intros [= <- <-]. by eauto.
Qed.

Lemma Channel_py_get_open self cb req connected answer w pch :
  PyCallable_Check cb = true →
  Channel.channel (the_chan w self) = Some pch →
  Channel_py_get host self (Parse_binds cb req) connected answer w =
    match buildRequest host req with
    | inl what =>
        Some (free_op (next w)
                (OpBase_cancel (next w)
                   (put_op (next w) (GetOp.mk (Some self) None None (Some cb)) (bump w))).1,
              CATCH what)
    | inr opts =>
        if connected then
          match GetOp_restart (next w) answer (registered_get self cb opts w) with
          | None => None
          | Some (w', Some what) => Some (w', CATCH what)
          | Some (w', None) => Some (w', PyReturn (PyOpObj (next w)))
          end
        else Some (registered_get self cb opts w, PyReturn (PyOpObj (next w)))
    end.
Proof.
  unfold Channel_py_get, registered_get. intros -> Hch. simpl.
  destruct (chans w !! self) as [ch|] eqn:Ech.
  2:{ unfold the_chan in Hch. by rewrite Ech in Hch. }
  rewrite (the_chan_lookup _ _ _ Ech) in Hch. rewrite Hch.
  rewrite !the_op_put_op, !decide_True by done.
  unfold GetOp.set_cb, GetOp.set_req; simpl. rewrite !put_op_put_op.
  destruct (buildRequest host req); [done|].
  by rewrite !put_op_put_op, !the_chan_put_op, !the_chan_bump.
Qed.

Lemma Inv_registered_get self cb opts w :
  Inv w → is_Some (Channel.channel (the_chan w self)) →
  Inv (registered_get self cb opts w).
Proof.
  intros HI Hopen. unfold registered_get.
  pose proof (Inv_new_op w (GetOp.mk (Some self) (Some opts) None (Some cb)) self HI eq_refl Hopen)
    as HI1.
  pose proof (Inv_put_chan_ops self ({[next w]} ∪ Channel.ops (the_chan w self)) _ HI1) as HI2.
  rewrite the_chan_put_op, the_chan_bump in HI2. apply HI2.
  - simpl. pose proof (Inv_open_lt w self HI Hopen). lia.
  - intros o. rewrite the_op_put_op, the_op_bump. intros Ho.
    goal_decide; [done|]. apply elem_of_union in Ho as [Ho|Ho]; [|by apply HI].
    apply elem_of_singleton in Ho. congruence.
Qed.

Lemma Inv_Channel_py_get self parsed connected answer w w' r :
  Inv w → Channel_py_get host self parsed connected answer w = Some (w', r) → Inv w'.
Proof.
  intros HI. destruct parsed as [|exc msg|cb req]; [done|by intros [= <- _]|].
  destruct (PyCallable_Check cb) eqn:Ecb.
  2:{ rewrite Channel_py_get_not_callable by done. by intros [= <- _]. }
  destruct (Channel.channel (the_chan w self)) as [pch|] eqn:Ech.
  2:{ intros Hg. by destruct (Channel_py_get_closed _ _ _ _ _ _ _ _ Ech Hg) as [-> _]. }
  rewrite (Channel_py_get_open _ _ _ _ _ _ pch) by done.
  destruct (buildRequest host req) as [what|opts].
  - intros [= <- _].
    pose proof (Inv_new_op w (GetOp.mk (Some self) None None (Some cb)) self HI eq_refl
                  (mk_is_Some _ _ Ech)) as HI1.
    apply Inv_free_op; [by apply Inv_OpBase_cancel|].
    intros c. rewrite OpBase_cancel_chan, the_op_put_op.
    rewrite (decide_True (P := next w = next w)) by done. simpl.
    rewrite the_chan_put_op, the_chan_bump.
    assert (next w ∉ Channel.ops (the_chan w c)) as Hnin.
    { apply Inv_unregistered; [done|]. by rewrite (inv_fresh_op w HI (next w)). }
    goal_decide; [simpl|done]. rewrite elem_of_difference. tauto.
  - pose proof (Inv_registered_get self cb opts w HI (mk_is_Some _ _ Ech)) as HI1.
    destruct connected; [|by intros [= <- _]].
    destruct (GetOp_restart _ _ _) as [[w1 [what|]]|] eqn:Er; [| |done];
      intros [= <- _]; by eapply Inv_GetOp_restart.
Qed.

Lemma GetOp_getDone_frame this status channelGet pvStructure w :
  let w' := GetOp_getDone host this status channelGet pvStructure w in
  contexts w' = contexts w ∧ chans w' = chans w ∧ getops w' = getops w ∧ next w' = next w.
Proof.
  unfold GetOp_getDone. destruct (GetOp.cb (the_op w this)); [|done].
  destruct (getDone_V host status pvStructure); [|done].
  by destruct (PyObject_Call host _ _).
Qed.

Lemma Inv_step a w w' : Inv w → step host a w = Some w' → Inv w'.
Proof.
  intros HI. destruct a; simpl.
  - intros [= <-]. by apply Inv_Context_py_init.
  - intros [= <-]. by apply Inv_Context_py_channel.
  - intros [= <-]. by apply Inv_Context_close.
  - destruct (Channel_py_get host self parsed connected answer w) as [[w1 r]|] eqn:Eg;
      [|done]. simpl. intros [= <-]. by eapply Inv_Channel_py_get.
  - intros [= <-]. unfold OpBase_py_cancel.
    destruct (GetOp.channel (the_op w self)); [|done]. by apply Inv_GetOp_cancel.
  - intros [= <-]. by apply Inv_GetOp_cancel.
  - intros [= <-]. unfold Channel_channelCreated.
    destruct (negb _); [by apply Inv_emit|done].
  - intros Hs.
    destruct (Channel_channelStateChange_total self s answers w HI) as (w1 & Hw1 & HI1).
    congruence.
  - intros [= <-]. unfold GetOp_channelGetConnect.
    destruct (negb _); by apply Inv_emit.
  - intros [= <-].
    destruct (GetOp_getDone_frame this status channelGet pvStructure w) as (? & ? & ? & ?).
    by eapply Inv_store_ext.
Qed.

Lemma Inv_run_Some acts w w' : Inv w → run host acts w = Some w' → Inv w'.
Proof.
  revert w. induction acts as [|a acts IH]; intros w HI; simpl; [by intros [= <-]|].
  destruct (step host a w) as [w1|] eqn:Hs; [|done].
  apply IH. by eapply Inv_step.
Qed.

Lemma reachable_Inv w : reachable host w → Inv w.
Proof. intros [acts Hr]. eapply Inv_run_Some; [apply Inv_init|done]. Qed.

Lemma run_app acts1 acts2 w :
  run host (acts1 ++ acts2) w = run host acts1 w ≫= run host acts2.
Proof.
  revert w. induction acts1 as [|a acts1 IH]; intros w; simpl; [done|].
  destruct (step host a w); [apply IH|done].
Qed.

Lemma reachable_run acts w w' :
  reachable host w → run host acts w = Some w' → reachable host w'.
Proof.
  intros [acts0 Hr] Hr'. exists (acts0 ++ acts). by rewrite run_app, Hr.
Qed.

(** *** What a step can add to the trace *)

Lemma evolves_destroy_all (K : Event → Prop) l w :
  (∀ ch, K (Ev_Channel_destroy ch)) →
  evolves K w (foldl (λ w (it : string * nat), emit (Ev_Channel_destroy it.2) w) w l).
Proof.
  intros HK. revert w. induction l as [|it l IH]; intros w; simpl; [apply evolves_refl|].
  eapply evolves_trans; [|apply IH]. by apply evolves_emit.
Qed.

Lemma evolves_Context_close (K : Event → Prop) self w :
  (∀ ch, K (Ev_Channel_destroy ch)) → evolves K w (Context_close self w).
Proof.
  intros HK. unfold Context_close.
  destruct (Context.provider (the_ctx w self)); [|apply evolves_refl].
  eapply evolves_trans; [|by apply evolves_destroy_all]. by apply evolves_store.
Qed.

Lemma evolves_Context_py_channel (K : Event → Prop) self args created w :
  (∀ name req, PyArg_Parse_s args = Some name → K (Ev_createChannel self name req created)) →
  evolves K w (Context_py_channel self args created w).1.
Proof.
  intros HK.
  destruct (PyArg_Parse_s args) as [cname|] eqn:Ea.
  2:{ destruct (Context_py_channel_bad_args self args created w Ea) as [m ->].
      apply evolves_refl. }
  destruct (Context.provider (the_ctx w self)) as [p|] eqn:Ep.
  2:{ destruct (Context_py_channel_closed self args created w Ep) as (e & m & ->).
      apply evolves_refl. }
  destruct (Context.channels (the_ctx w self) !! cname) as [chan|] eqn:Ec.
  { rewrite (Context_py_channel_found _ _ _ _ _ _ _ Ea Ep Ec). simpl.
    apply evolves_store; simpl; [lia|done..]. }
  assert (evolves K w (emit (Ev_createChannel self cname (next w) created)
                         (put_chan (next w) Channel.empty (bump w)))) as He.
  { eapply evolves_trans; [|apply evolves_emit; [by apply HK|done]].
    apply evolves_store; simpl; [lia|done..]. }
  destruct created as [chan|].
  - rewrite (Context_py_channel_created _ _ _ _ _ _ Ea Ep Ec). simpl.
    eapply evolves_trans; [exact He|]. by apply evolves_store.
  - by rewrite (Context_py_channel_refused _ _ _ _ _ Ea Ep Ec).
Qed.

Lemma evolves_Context_py_init (K : Event → Prop) args created w :
  (∀ name, K (Ev_createProvider name)) →
  evolves K w (Context_py_init args created w).1.
Proof.
  intros HK. unfold Context_py_init.
  destruct (PyArg_Parse_s args) as [pname|]; simpl; [|apply evolves_refl].
  eapply (evolves_trans _ _ (emit (Ev_createProvider pname) (bump w))).
  - eapply evolves_trans; [|by apply evolves_emit]. apply evolves_store; simpl; [lia|done..].
  - by apply evolves_store.
Qed.

Lemma evolves_GetOp_getDone (K : Event → Prop) this status g pv w :
  (∀ f v, getDone_V host status pv = Some v → K (Ev_PyCall this g f v)) →
  K Ev_PyErr_Print → K Ev_PyErr_Clear →
  evolves K w (GetOp_getDone host this status g pv w).
Proof.
  intros HK1 HK2 HK3. unfold GetOp_getDone.
  destruct (GetOp.cb (the_op w this)) as [f|] eqn:Ecb; [|apply evolves_refl].
  assert (∀ w', evolves K w w' →
                evolves K w (emit Ev_PyErr_Clear (emit Ev_PyErr_Print w'))) as Herr.
  { intros w' Hw'. eapply evolves_trans; [exact Hw'|].
    eapply evolves_trans; by apply evolves_emit. }
  destruct (getDone_V host status pv) as [v|] eqn:EV.
  - assert (evolves K w (emit (Ev_PyCall this g f v) w)) as Hcall.
    { apply evolves_emit; [by apply HK1|]. simpl. right. by rewrite Ecb. }
    destruct (PyObject_Call host f v); [done|]. by apply Herr.
  - apply Herr, evolves_refl.
Qed.

Lemma evolves_Channel_py_get (K : Event → Prop) self parsed connected answer w w' r :
  (∀ t, K (Ev_ChannelGet_destroy t)) →
  (∀ pch o rq, connected = true → K (Ev_createChannelGet pch o rq)) →
  Channel_py_get host self parsed connected answer w = Some (w', r) →
  evolves K w w'.
Proof.
  intros HK1 HK2.
  destruct parsed as [|exc msg|cb req]; [done|intros [= <- _]; apply evolves_refl|].
  destruct (PyCallable_Check cb) eqn:Ecb.
  2:{ rewrite Channel_py_get_not_callable by done. intros [= <- _]. apply evolves_refl. }
  destruct (Channel.channel (the_chan w self)) as [pch|] eqn:Ech.
  2:{ intros Hg. destruct (Channel_py_get_closed _ _ _ _ _ _ _ _ Ech Hg) as [-> _].
      apply evolves_refl. }
  rewrite (Channel_py_get_open _ _ _ _ _ _ pch) by done.
  destruct (buildRequest host req) as [what|opts].
  - intros [= <- _]. apply evolves_store.
    + simpl. destruct (OpBase_cancel_frame (next w)
        (put_op (next w) (GetOp.mk (Some self) None None (Some cb)) (bump w)))
        as (_ & _ & -> & _). simpl. lia.
    + intros o Ho. rewrite the_op_free_op. rewrite decide_False by lia.
      unfold the_op at 1.
      destruct (OpBase_cancel_frame (next w)
        (put_op (next w) (GetOp.mk (Some self) None None (Some cb)) (bump w)))
        as (_ & -> & _ & _). fold (the_op (put_op (next w)
          (GetOp.mk (Some self) None None (Some cb)) (bump w)) o).
      rewrite the_op_put_op, the_op_bump. by rewrite decide_False by lia.
    + simpl. by destruct (OpBase_cancel_frame (next w)
        (put_op (next w) (GetOp.mk (Some self) None None (Some cb)) (bump w)))
        as (_ & _ & _ & ->).
  - assert (evolves K w (registered_get self cb opts w)) as Hreg.
    { apply evolves_store; simpl; [lia| |done].
      intros o Ho. unfold registered_get.
      rewrite the_op_put_chan, the_op_put_op, the_op_bump. by rewrite decide_False by lia. }
    destruct connected; [|by intros [= <- _]].
    destruct (GetOp_restart _ _ _) as [[w1 [what|]]|] eqn:Er; [| |done];
      intros [= <- _]; (eapply evolves_trans; [exact Hreg|]);
      eapply evolves_GetOp_restart; eauto.
Qed.

Lemma step_evolves a w w' : step host a w = Some w' → evolves (step_emits host a) w w'.
Proof.
  destruct a; simpl.
  - intros [= <-]. apply evolves_Context_py_init. simpl. eauto.
  - intros [= <-]. apply evolves_Context_py_channel. simpl. eauto.
  - intros [= <-]. apply evolves_Context_close. simpl. eauto.
  - destruct (Channel_py_get host self parsed connected answer w) as [[w1 r]|] eqn:Eg;
      [|done]. simpl. intros [= <-].
    eapply evolves_Channel_py_get; [| |exact Eg]; simpl; [done|].
    intros ? ? ? ->. left. eauto 10.
  - intros [= <-]. unfold OpBase_py_cancel.
    destruct (GetOp.channel (the_op w self)); [|apply evolves_refl].
    by apply evolves_GetOp_cancel.
  - intros [= <-]. by apply evolves_GetOp_cancel.
  - intros [= <-]. unfold Channel_channelCreated.
    destruct (isOK status) eqn:Es; simpl; [apply evolves_refl|].
    apply evolves_emit; [|done]. simpl. right. eauto.
  - apply evolves_Channel_channelStateChange; simpl; [done| |].
    + intros ? ? ? ->. right. eauto.
    + intros ? ->. left. eauto.
  - intros [= <-]. unfold GetOp_channelGetConnect.
    destruct (isSuccess status) eqn:Es; simpl; (apply evolves_emit; [|done]); simpl; eauto.
  - intros [= <-]. apply evolves_GetOp_getDone; simpl; eauto 10.
Qed.

Lemma run_evolves acts w w' :
  run host acts w = Some w' → evolves (λ e, ∃ a, a ∈ acts ∧ step_emits host a e) w w'.
Proof.
  revert w. induction acts as [|a acts IH]; intros w; simpl.
  { intros [= <-]. apply evolves_refl. }
  destruct (step host a w) as [w1|] eqn:Es; [|done]. intros Hr.
  eapply evolves_trans.
  - eapply evolves_weaken; [|by apply step_evolves]. simpl.
    intros e He. exists a. split; [left|done].
  - eapply evolves_weaken; [|by apply IH]. simpl.
    intros e (b & Hb & He). exists b. split; [by right|done].
Qed.

Lemma evolves_filter (p : Event → bool) (K : Event → Prop) w w' :
  evolves K w w' → (∀ e, K e → justified w e → p e = false) →
  List.filter p (trace w') = List.filter p (trace w).
Proof.
  intros (_ & _ & d & -> & Hd) Hp. rewrite List.filter_app.
  assert (List.filter p d = []) as ->; [|done].
  induction Hd as [|e d [HK HJ] _ IH]; simpl; [done|]. by rewrite (Hp e HK HJ).
Qed.

Lemma evolves_channel_None (K : Event → Prop) w w' o :
  evolves K w w' → o < next w → GetOp.channel (the_op w o) = None →
  GetOp.channel (the_op w' o) = None.
Proof.
  intros (_ & Hf & _) Ho Hc. destruct (Hf o Ho) as [[H| H] _]; congruence.
Qed.

Lemma evolves_cb_None (K : Event → Prop) w w' o :
  evolves K w w' → o < next w → GetOp.cb (the_op w o) = None →
  GetOp.cb (the_op w' o) = None.
Proof.
  intros (_ & Hf & _) Ho Hc. destruct (Hf o Ho) as [_ [H| H]]; congruence.
Qed.

(** An operation without callback is never called back. *)
Lemma evolves_no_PyCall (K : Event → Prop) w w' o :
  evolves K w w' → o < next w → GetOp.cb (the_op w o) = None →
  List.filter (is_PyCall_of o) (trace w') = List.filter (is_PyCall_of o) (trace w).
Proof.
  intros He Ho Hc. eapply evolves_filter; [exact He|].
  intros e _ HJ. destruct e; simpl; try done.
  apply bool_decide_eq_false. intros ->. simpl in HJ.
  destruct HJ as [?|[? Hs]]; [lia|congruence].
Qed.

(** An operation without channel never asks for an exchange. *)
Lemma evolves_no_createChannelGet (K : Event → Prop) w w' o :
  evolves K w w' → o < next w → GetOp.channel (the_op w o) = None →
  List.filter (is_createChannelGet_of o) (trace w') =
  List.filter (is_createChannelGet_of o) (trace w).
Proof.
  intros He Ho Hc. eapply evolves_filter; [exact He|].
  intros e _ HJ. destruct e; simpl; try done.
  apply bool_decide_eq_false. intros ->. simpl in HJ.
  destruct HJ as [?|[? Hs]]; [lia|congruence].
Qed.

(** *** Cancellation *)

Lemma OpBase_py_cancel_unbinds self w :
  GetOp.channel (the_op (OpBase_py_cancel self w).1 self) = None.
Proof.
  unfold OpBase_py_cancel.
  destruct (GetOp.channel (the_op w self)) eqn:Ec; [|done].
  rewrite GetOp_cancel_op. by rewrite decide_True.
Qed.

Lemma OpBase_py_cancel_true self w :
  (OpBase_py_cancel self w).2 = true →
  is_Some (GetOp.channel (the_op w self)) ∧ is_Some (GetOp.cb (the_op w self)) ∧
  GetOp.cb (the_op (OpBase_py_cancel self w).1 self) = None.
Proof.
  unfold OpBase_py_cancel.
  destruct (GetOp.channel (the_op w self)) eqn:Ec; [|done].
  rewrite GetOp_cancel_result, GetOp_cancel_op, decide_True by done.
  intros Hb. apply bool_decide_eq_true in Hb. by repeat split.
Qed.

Lemma OpBase_py_cancel_unbound self w :
  GetOp.channel (the_op w self) = None → OpBase_py_cancel self w = (w, false).
Proof. unfold OpBase_py_cancel. by intros ->. Qed.

Lemma OpBase_py_cancel_next self w : next (OpBase_py_cancel self w).1 = next w.
Proof.
  unfold OpBase_py_cancel. destruct (GetOp.channel (the_op w self)); [|done].
  by destruct (GetOp_cancel_frame self w).
Qed.

(** C1: [cancel()] is idempotent.  Whatever the first call returns, a second
    call returns false, at once and (for an operation that exists, that is,
    whose address has been given out) after any further activity of the
    interpreter and of the transport; once a call has returned true, the
    callback of the operation is never invoked again, whatever completion
    notifications the transport delivers. *)
Theorem cancel_idempotent (w : World) (self : addr) :
  let w1 := (OpBase_py_cancel self w).1 in
  (OpBase_py_cancel self w1).2 = false ∧
  (self < next w → ∀ acts w',
     run host acts w1 = Some w' →
     (OpBase_py_cancel self w').2 = false ∧
     ((OpBase_py_cancel self w).2 = true →
      List.filter (is_PyCall_of self) (trace w') = List.filter (is_PyCall_of self) (trace w1))).
Proof.
  intros w1. pose proof (OpBase_py_cancel_unbinds self w) as Hu. fold w1 in Hu.
  split; [by rewrite OpBase_py_cancel_unbound|].
  intros Hlt acts w' Hr. apply run_evolves in Hr.
  assert (self < next w1) as Hlt1 by (unfold w1; by rewrite OpBase_py_cancel_next).
  split.
  - rewrite OpBase_py_cancel_unbound; [done|]. by eapply evolves_channel_None.
  - intros Ht. apply OpBase_py_cancel_true in Ht as (_ & _ & Hcb).
    by eapply evolves_no_PyCall.
Qed.

Lemma step_emits_no_PyCall a e :
  (∀ this status g pv, a ≠ Notify_getDone this status g pv) →
  step_emits host a e → is_PyCall e = false.
Proof.
  intros Ha. destruct e; simpl; try done. intros (status & pv & -> & _). by destruct (Ha this status from pv).
Qed.

Lemma step_emits_no_createChannelGet a e o :
  (∀ self parsed answer, a ≠ Call_Channel_get self parsed true answer) →
  (∀ self answers, a ≠ Notify_channelStateChange self CONNECTED answers) →
  step_emits host a e → is_createChannelGet_of o e = false.
Proof.
  intros Ha1 Ha2. destruct e; simpl; try done.
  intros [(self & parsed & answer & ->)|(self & answers & ->)].
  - by destruct (Ha1 self parsed answer).
  - by destruct (Ha2 self answers).
Qed.

(** C6: after the Destroyed transition every operation that was registered
    has been cancelled: it is bound to no channel, has no callback and no
    exchange (the one it had was destroyed); the set of the channel is
    empty; and from then on such an operation is in no set and never asks
    the transport for an exchange again. *)
Theorem destroyed_cancels_registered (w : World) (self : addr) (answers : addr → CreateGet) :
  ∃ w', Channel_channelStateChange self DESTROYED answers w = Some w' ∧
    Channel.ops (the_chan w' self) = ∅ ∧
    ∀ o, o ∈ Channel.ops (the_chan w self) →
      GetOp.channel (the_op w' o) = None ∧
      GetOp.cb (the_op w' o) = None ∧
      GetOp.op (the_op w' o) = None ∧
      (∀ t, GetOp.op (the_op w o) = Some t → Ev_ChannelGet_destroy t ∈ trace w') ∧
      (reachable host w → ∀ acts w'',
         run host acts w' = Some w'' →
         GetOp.channel (the_op w'' o) = None ∧
         (∀ c, o ∉ Channel.ops (the_chan w'' c)) ∧
         List.filter (is_createChannelGet_of o) (trace w'') =
         List.filter (is_createChannelGet_of o) (trace w')).
Proof.
  eexists. split; [reflexivity|].
  set (l := elements (Channel.ops (the_chan w self))).
  set (swapped := put_chan self (Channel.set_ops ∅ (the_chan w self)) w).
  split.
  - apply (anti_symm (⊆)); [|apply empty_subseteq].
    etrans; [apply cancel_each_ops|]. unfold swapped.
    rewrite the_chan_put_chan, decide_True by done. done.
  - intros o Ho. assert (o ∈ l) as Hl by by apply elem_of_elements.
    rewrite !cancel_each_op, !decide_True by done. simpl.
    split; [done|]. split; [done|]. split; [done|]. split.
    + intros t Ht. by eapply cancel_each_destroys.
    + intros Hreach acts w'' Hr.
      pose proof (reachable_Inv w Hreach) as HI.
      assert (Inv (cancel_each l swapped)) as HI'
        by by apply Inv_cancel_each, Inv_swap.
      pose proof (Inv_run_Some _ _ _ HI' Hr) as HI''.
      assert (o < next (cancel_each l swapped)) as Hlt.
      { destruct (cancel_each_frame l swapped) as [_ ->]. simpl.
        apply (inv_registered w HI) in Ho. apply (Inv_bound_lt _ _ _ HI) in Ho. lia. }
      assert (GetOp.channel (the_op (cancel_each l swapped) o) = None) as Hc
        by by rewrite cancel_each_op, decide_True.
      apply run_evolves in Hr.
      assert (GetOp.channel (the_op w'' o) = None) as Hc''
        by by eapply evolves_channel_None.
      split; [done|]. split; [intros c; by apply Inv_unregistered|].
      by eapply evolves_no_createChannelGet.
Qed.

(** C2: Disconnected followed by Connected.  [lostConn] leaves every
    registered operation registered and without exchange, the exchange it
    had being destroyed; then [restart] asks the transport for exactly one
    new exchange for each of them and for none for any other operation;
    no user callback is invoked along the way. *)
Theorem reconnect_restarts_once (w : World) (self : addr) (lost answers : addr → CreateGet) :
  reachable host w →
  ∃ w1 w2,
    Channel_channelStateChange self DISCONNECTED lost w = Some w1 ∧
    Channel_channelStateChange self CONNECTED answers w1 = Some w2 ∧
    Channel.ops (the_chan w1 self) = Channel.ops (the_chan w self) ∧
    (∀ o, o ∈ Channel.ops (the_chan w self) →
       GetOp.op (the_op w1 o) = None ∧
       GetOp.cb (the_op w1 o) = GetOp.cb (the_op w o) ∧
       (∀ t, GetOp.op (the_op w o) = Some t → Ev_ChannelGet_destroy t ∈ trace w1)) ∧
    List.filter is_PyCall (trace w1) = List.filter is_PyCall (trace w) ∧
    List.filter is_PyCall (trace w2) = List.filter is_PyCall (trace w) ∧
    (∀ o, count (is_createChannelGet_of o) (trace w1) =
          count (is_createChannelGet_of o) (trace w)) ∧
    (∀ o, count (is_createChannelGet_of o) (trace w2) =
          count (is_createChannelGet_of o) (trace w) +
          (if decide (o ∈ Channel.ops (the_chan w self)) then 1 else 0)).
Proof.
  intros Hreach. pose proof (reachable_Inv w Hreach) as HI.
  destruct (Channel_channelStateChange_total self DISCONNECTED lost w HI) as (w1 & Hw1 & HI1).
  destruct (Channel_channelStateChange_total self CONNECTED answers w1 HI1) as (w2 & Hw2 & HI2).
  exists w1, w2. split; [done|]. split; [done|].
  pose proof (step_evolves (Notify_channelStateChange self DISCONNECTED lost) w w1 Hw1) as He1.
  pose proof (step_evolves (Notify_channelStateChange self CONNECTED answers) w1 w2 Hw2) as He2.
  assert (List.filter is_PyCall (trace w1) = List.filter is_PyCall (trace w)) as Hp1.
  { eapply evolves_filter; [exact He1|]. intros e HK _.
    eapply step_emits_no_PyCall; [|exact HK]. done. }
  assert (List.filter is_PyCall (trace w2) = List.filter is_PyCall (trace w1)) as Hp2.
  { eapply evolves_filter; [exact He2|]. intros e HK _.
    eapply step_emits_no_PyCall; [|exact HK]. done. }
  assert (∀ o, List.filter (is_createChannelGet_of o) (trace w1) =
               List.filter (is_createChannelGet_of o) (trace w)) as Hg1.
  { intros o. eapply evolves_filter; [exact He1|]. intros e HK _.
    eapply step_emits_no_createChannelGet; [| |exact HK]; done. }
  unfold Channel_channelStateChange in Hw1, Hw2.
  set (l := elements (Channel.ops (the_chan w self))) in *.
  set (swapped := put_chan self (Channel.set_ops ∅ (the_chan w self)) w) in *.
  assert (∀ x, x ∈ l ↔ x ∈ Channel.ops (the_chan w self)) as Hl
    by (intros x; apply elem_of_elements).
  assert (Channel.ops (the_chan w1 self) = Channel.ops (the_chan w self)) as Hops.
  { simplify_eq. apply set_eq. intros x. rewrite lostConn_each_ops.
    unfold swapped at 1. rewrite the_chan_put_chan, decide_True by done. simpl.
    rewrite Hl. unfold swapped. rewrite the_op_put_chan. split.
    - intros [Hx|[Hx _]]; [by apply elem_of_empty in Hx|done].
    - intros Hx. right. split; [done|]. by apply HI. }
  split; [done|]. split.
  { intros o Ho. simplify_eq. rewrite lostConn_each_op.
    assert (is_Some (GetOp.channel (the_op swapped o))) as Hb.
    { unfold swapped. rewrite the_op_put_chan. rewrite (inv_registered w HI self o Ho). done. }
    rewrite decide_True by (split; [by apply Hl|done]). simpl.
    split; [done|]. split; [done|]. intros t Ht.
    eapply lostConn_each_destroys; [by apply Hl|done|done]. }
  split; [done|]. split; [congruence|]. split.
  { intros o. unfold count. by rewrite Hg1. }
  intros o.
  pose proof (restart_each_count answers _
                (put_chan self (Channel.set_ops ∅ (the_chan w1 self)) w1) _ o
                (NoDup_elements _)
                (λ x Hx, mk_is_Some _ _ (inv_registered w1 HI1 self x
                   (proj1 (elem_of_elements _ x) Hx))) Hw2) as Hc.
  simpl in Hc. rewrite Hc. unfold count. rewrite Hg1, Hops.
  destruct (decide (o ∈ elements (Channel.ops (the_chan w self)))) as [Hin|Hin].
  - apply Hl in Hin. by rewrite decide_True.
  - rewrite decide_False; [done|]. intros Ho. by apply Hin, Hl.
Qed.

(** *** Contexts *)

Lemma Context_py_init_ctx args created w a :
  a < next w → the_ctx (Context_py_init args created w).1 a = the_ctx w a.
Proof.
  intros Ha. unfold Context_py_init. destruct (PyArg_Parse_s args); [|done]. simpl.
  rewrite the_ctx_put_ctx. rewrite decide_False by lia. done.
Qed.

Lemma Context_py_channel_ctx self args created w a :
  the_ctx (Context_py_channel self args created w).1 a =
    match PyArg_Parse_s args, Context.provider (the_ctx w self), created with
    | Some cname, Some p, Some chan =>
        if decide (self = a ∧ Context.channels (the_ctx w self) !! cname = None)
        then Context.mk (Some p) (<[cname := chan]> (Context.channels (the_ctx w self)))
        else the_ctx w a
    | _, _, _ => the_ctx w a
    end.
Proof.
  destruct (PyArg_Parse_s args) as [cname|] eqn:Ea.
  2:{ by destruct (Context_py_channel_bad_args self args created w Ea) as [m ->]. }
  destruct (Context.provider (the_ctx w self)) as [p|] eqn:Ep.
  2:{ by destruct (Context_py_channel_closed self args created w Ep) as (e & m & ->). }
  destruct (Context.channels (the_ctx w self) !! cname) as [chan|] eqn:Ec.
  { rewrite (Context_py_channel_found _ _ _ _ _ _ _ Ea Ep Ec). simpl.
    destruct created; [|done]. rewrite decide_False; [done|]. by intros [_ ?]. }
  destruct created as [chan|].
  - rewrite (Context_py_channel_created _ _ _ _ _ _ Ea Ep Ec). simpl.
    rewrite the_ctx_put_chan, the_ctx_put_ctx.
    destruct (decide (self = a)); [by rewrite decide_True|].
    rewrite decide_False; [done|]. by intros [? _].
  - by rewrite (Context_py_channel_refused _ _ _ _ _ Ea Ep Ec).
Qed.

Lemma Context_close_ctx self w a :
  the_ctx (Context_close self w) a =
    if decide (self = a ∧ is_Some (Context.provider (the_ctx w self)))
    then Context.mk None ∅ else the_ctx w a.
Proof.
  unfold Context_close.
  destruct (Context.provider (the_ctx w self)) as [p|] eqn:Ep.
  - match goal with |- the_ctx (foldl _ ?w0 ?l) _ = _ =>
      destruct (destroy_all_frame l w0) as (Hc & _) end.
    rewrite (the_ctx_ext _ _ _ Hc), the_ctx_put_ctx.
    destruct (decide (self = a)); [by rewrite decide_True|].
    rewrite decide_False; [done|]. by intros [? _].
  - rewrite decide_False; [done|]. intros [_ [? ?]]. done.
Qed.

Lemma Context_close_trace self w :
  trace (Context_close self w) =
    match Context.provider (the_ctx w self) with
    | Some _ =>
        rev (map (λ it : string * nat, Ev_Channel_destroy it.2)
               (map_to_list (Context.channels (the_ctx w self)))) ++ trace w
    | None => trace w
    end.
Proof.
  unfold Context_close.
  destruct (Context.provider (the_ctx w self)) as [p|] eqn:Ep; [|done].
  match goal with |- trace (foldl _ ?w0 ?l) = _ =>
    destruct (destroy_all_frame l w0) as (_ & _ & _ & _ & ->) end.
  done.
Qed.

Lemma Channel_py_get_frame self parsed connected answer w w' r :
  Channel_py_get host self parsed connected answer w = Some (w', r) →
  contexts w' = contexts w.
Proof.
  destruct parsed as [|exc msg|cb req]; [done|by intros [= <- _]|].
  destruct (PyCallable_Check cb) eqn:Ecb.
  2:{ rewrite Channel_py_get_not_callable by done. by intros [= <- _]. }
  destruct (Channel.channel (the_chan w self)) as [pch|] eqn:Ech.
  2:{ intros Hg. by destruct (Channel_py_get_closed _ _ _ _ _ _ _ _ Ech Hg) as [-> _]. }
  rewrite (Channel_py_get_open _ _ _ _ _ _ pch) by done.
  destruct (buildRequest host req) as [what|opts].
  - intros [= <- _]. simpl.
    by destruct (OpBase_cancel_frame (next w)
        (put_op (next w) (GetOp.mk (Some self) None None (Some cb)) (bump w)))
        as (-> & _).
  - destruct connected; [|by intros [= <- _]].
    destruct (GetOp_restart _ _ _) as [[w1 [what|]]|] eqn:Er; [| |done];
      intros [= <- _]; by apply GetOp_restart_frame in Er as [-> _].
Qed.

Lemma step_contexts a w w' :
  is_Context_call a = false → step host a w = Some w' → contexts w' = contexts w.
Proof.
  destruct a; simpl; try done; intros _.
  - destruct (Channel_py_get host self parsed connected answer w) as [[w1 r]|] eqn:Eg;
      [|done]. simpl. intros [= <-]. by eapply Channel_py_get_frame.
  - intros [= <-]. unfold OpBase_py_cancel.
    destruct (GetOp.channel (the_op w self)); [|done].
    by destruct (GetOp_cancel_frame self w).
  - intros [= <-]. by destruct (GetOp_cancel_frame self w).
  - intros [= <-]. unfold Channel_channelCreated. by destruct (negb _).
  - intros Hs. by apply Channel_channelStateChange_frame in Hs as [? _].
  - intros [= <-]. unfold GetOp_channelGetConnect. by destruct (negb _).
  - intros [= <-]. by destruct (GetOp_getDone_frame this status channelGet pvStructure w).
Qed.

(** A context without provider stays without provider. *)
Lemma step_closed a w w' self :
  self < next w → Context.provider (the_ctx w self) = None →
  step host a w = Some w' → Context.provider (the_ctx w' self) = None.
Proof.
  intros Hlt Hp. destruct (is_Context_call a) eqn:Ea.
  - destruct a; try done; simpl; intros [= <-].
    + by rewrite Context_py_init_ctx.
    + rewrite Context_py_channel_ctx.
      destruct (PyArg_Parse_s args); [|done].
      destruct (Context.provider (the_ctx w self0)) eqn:Ep0; [|done].
      destruct created; [|done].
      destruct (decide (self0 = self ∧ _)) as [[-> _]|]; [congruence|done].
    + rewrite Context_close_ctx. by goal_decide.
  - intros Hs. by rewrite (the_ctx_ext _ _ _ (step_contexts a w w' Ea Hs)).
Qed.

Lemma run_closed acts w w' self :
  self < next w → Context.provider (the_ctx w self) = None →
  run host acts w = Some w' → Context.provider (the_ctx w' self) = None.
Proof.
  revert w. induction acts as [|a acts IH]; intros w Hlt Hp; simpl.
  { by intros [= <-]. }
  destruct (step host a w) as [w1|] eqn:Es; [|done].
  apply IH; [|by eapply step_closed].
  apply step_evolves in Es as (? & _). lia.
Qed.

(** C3: [Context.close()].  A second call changes nothing; the provider
    handle is cleared; in every world the client can reach the registry is
    empty afterwards and every channel it tracked has been destroyed; and
    from then on [channel(name)] on that context fails, for every argument
    and after any further activity, without changing anything. *)
Theorem close_idempotent_then_channel_fails (w : World) (self : addr) :
  let w1 := Context_close self w in
  Context_close self w1 = w1 ∧
  Context.provider (the_ctx w1 self) = None ∧
  (∀ args created, ∃ exc msg,
     Context_py_channel self args created w1 = (w1, PyRaise exc msg)) ∧
  (reachable host w →
     Context.channels (the_ctx w1 self) = ∅ ∧
     (∀ name ch, Context.channels (the_ctx w self) !! name = Some ch →
                 Ev_Channel_destroy ch ∈ trace w1) ∧
     (is_Some (contexts w !! self) → ∀ acts w' args created,
        run host acts w1 = Some w' →
        ∃ exc msg, Context_py_channel self args created w' = (w', PyRaise exc msg))).
Proof.
  intros w1.
  assert (Context.provider (the_ctx w1 self) = None) as Hp.
  { unfold w1. rewrite Context_close_ctx.
    destruct (decide (self = self ∧ _)) as [|Hn]; [done|].
    destruct (Context.provider (the_ctx w self)) eqn:Ep; [|done].
    destruct Hn. by split. }
  split; [unfold Context_close at 1; by rewrite Hp|]. split; [done|].
  split; [intros; by apply Context_py_channel_closed|].
  intros Hreach. pose proof (reachable_Inv w Hreach) as HI. split; [|split].
  - unfold w1. rewrite Context_close_ctx. goal_decide as [|Hn]; [done|]. apply HI.
    destruct (Context.provider (the_ctx w self)) eqn:Ep; [|done]. destruct Hn. by split.
  - intros name ch Hch. unfold w1. rewrite Context_close_trace.
    destruct (Context.provider (the_ctx w self)) eqn:Ep.
    + apply elem_of_app. left. apply list_elem_of_In. rewrite <- in_rev.
      apply (in_map (λ it : string * nat, Ev_Channel_destroy it.2) _ (name, ch)).
      apply list_elem_of_In. by apply elem_of_map_to_list.
    + rewrite (inv_closed_empty w HI self Ep) in Hch. by rewrite lookup_empty in Hch.
  - intros Hself acts w' args created Hr.
    apply Context_py_channel_closed. eapply run_closed; [|exact Hp|exact Hr].
    assert (next w1 = next w) as ->.
    { unfold w1, Context_close. destruct (Context.provider (the_ctx w self)); [|done].
      match goal with |- next (foldl _ ?w0 ?l) = _ =>
        destruct (destroy_all_frame l w0) as (_ & _ & _ & -> & _) end. done. }
    destruct (decide (self < next w)) as [|Hge]; [done|].
    rewrite (inv_fresh_ctx w HI self) in Hself by lia. by destruct Hself.
Qed.

(** *** One connection per name *)

Lemma Context_py_channel_trace self args created w :
  trace (Context_py_channel self args created w).1 =
    match PyArg_Parse_s args, Context.provider (the_ctx w self) with
    | Some cname, Some p =>
        match Context.channels (the_ctx w self) !! cname with
        | Some _ => trace w
        | None => Ev_createChannel self cname (next w) created :: trace w
        end
    | _, _ => trace w
    end.
Proof.
  destruct (PyArg_Parse_s args) as [cname|] eqn:Ea.
  2:{ by destruct (Context_py_channel_bad_args self args created w Ea) as [m ->]. }
  destruct (Context.provider (the_ctx w self)) as [p|] eqn:Ep.
  2:{ by destruct (Context_py_channel_closed self args created w Ep) as (e & m & ->). }
  destruct (Context.channels (the_ctx w self) !! cname) as [chan|] eqn:Ec.
  { by rewrite (Context_py_channel_found _ _ _ _ _ _ _ Ea Ep Ec). }
  destruct created as [chan|].
  - by rewrite (Context_py_channel_created _ _ _ _ _ _ Ea Ep Ec).
  - by rewrite (Context_py_channel_refused _ _ _ _ _ Ea Ep Ec).
Qed.

Lemma step_emits_no_creation a e ctx name :
  is_Context_call a = false → step_emits host a e → is_created_for ctx name e = false.
Proof.
  intros Ha. destruct e as [|? ? ? [ch|]| | | | | | | | |]; simpl; try done.
  intros (args & -> & _). done.
Qed.

Lemma Inv_created_init : Inv_created World_init.
Proof.
  intros ctx name. split; [done|]. unfold the_ctx. simpl.
  rewrite lookup_empty. simpl. rewrite lookup_empty. split; [|done].
  unfold creations, count. simpl. lia.
Qed.

Lemma step_Inv_created a w w' :
  Inv w → Inv_created w → step host a w = Some w' → Inv_created w'.
Proof.
  intros HI HC Hs. pose proof (step_evolves a w w' Hs) as He.
  destruct (is_Context_call a) eqn:Ea.
  2:{ pose proof (step_contexts a w w' Ea Hs) as Hc.
      assert (∀ ctx name, creations ctx name w' = creations ctx name w) as Hcr.
      { intros ctx name. unfold creations, count. f_equal.
        eapply evolves_filter; [exact He|]. intros e HK _.
        by eapply step_emits_no_creation. }
      intros ctx name. rewrite (the_ctx_ext _ _ _ Hc), Hcr.
      destruct (HC ctx name) as [H1 H2]. split; [|done].
      intros Hge. apply H1. destruct He as (? & _). lia. }
  destruct a; try done; simpl in Hs; simplify_eq; intros ctx name;
    destruct (HC ctx name) as [H1 H2].
  - (* Context.__init__ *)
    unfold Context_py_init. destruct (PyArg_Parse_s args) as [pname|]; [|done]. simpl.
    rewrite the_ctx_put_ctx.
    assert (creations ctx name
              (put_ctx (next w) (Context.mk created ∅) (emit (Ev_createProvider pname) (bump w)))
            = creations ctx name w) as -> by done.
    split; [intros; apply H1; lia|].
    goal_decide as [<-|]; [|done]. simpl. rewrite lookup_empty.
    rewrite H1 by lia. split; [lia|done].
  - (* Context.channel *)
    assert (next w ≤ next (Context_py_channel self args created w).1) as Hn
      by by destruct He.
    unfold creations in *. rewrite Context_py_channel_trace, Context_py_channel_ctx.
    destruct (PyArg_Parse_s args) as [cname|] eqn:Eargs; [|by split; [intros; apply H1; lia|]].
    destruct (Context.provider (the_ctx w self)) as [p|] eqn:Ep;
      [|by split; [intros; apply H1; lia|]].
    assert (self < next w) as Hself.
    { destruct (decide (self < next w)) as [|Hge]; [done|].
      pose proof (provider_allocated w self p Ep) as [x Hx].
      rewrite (inv_fresh_ctx w HI self) in Hx by lia. done. }
    destruct (Context.channels (the_ctx w self) !! cname) as [chan0|] eqn:Ec.
    { split; [intros; apply H1; lia|].
      destruct created; [|done]. rewrite decide_False; [done|].
      intros [_ ?]. congruence. }
    destruct created as [chan|].
    + unfold count in *. simpl.
      destruct (decide (self = ctx ∧ cname = name)) as [[-> ->]|Hne].
      * rewrite bool_decide_eq_true_2 by done. simpl.
        rewrite decide_True by done. simpl. rewrite lookup_insert_eq.
        rewrite Ec, Ep in H2. destruct H2 as [_ H2]. rewrite H2 by done.
        split; [lia|done].
      * rewrite bool_decide_eq_false_2 by naive_solver.
        split; [intros; apply H1; lia|].
        destruct (decide (self = ctx ∧ _)) as [[-> _]|]; [|done]. simpl.
        rewrite lookup_insert_ne by naive_solver. by rewrite Ep in H2.
    + unfold count in *. simpl. split; [intros; apply H1; lia|done].
  - (* Context.close *)
    unfold creations in *. rewrite Context_close_ctx, Context_close_trace.
    assert (next w ≤ next (Context_close self w)) as Hn by by destruct He.
    assert (count (is_created_for ctx name)
              match Context.provider (the_ctx w self) with
              | Some _ =>
                  rev (map (λ it : string * nat, Ev_Channel_destroy it.2)
                         (map_to_list (Context.channels (the_ctx w self)))) ++ trace w
              | None => trace w
              end = count (is_created_for ctx name) (trace w)) as ->.
    { destruct (Context.provider (the_ctx w self)); [|done].
      unfold count. rewrite List.filter_app.
      assert (∀ l : list (string * nat),
                List.filter (is_created_for ctx name)
                  (rev (map (λ it : string * nat, Ev_Channel_destroy it.2) l)) = []) as ->;
        [|done].
      induction l as [|it l IH]; simpl; [done|].
      rewrite List.filter_app, IH. done. }
    split; [intros; apply H1; lia|].
    destruct (decide (self = ctx ∧ _)) as [[-> _]|]; [|done]. simpl.
    rewrite lookup_empty. split; [|by intros [? ?]].
    destruct (Context.channels (the_ctx w ctx) !! name); [lia|by destruct H2].
Qed.

Lemma run_Inv_created acts w w' :
  Inv w → Inv_created w → run host acts w = Some w' → Inv_created w'.
Proof.
  revert w. induction acts as [|a acts IH]; intros w HI HC; simpl.
  { by intros [= <-]. }
  destruct (step host a w) as [w1|] eqn:Hs; [|done].
  apply IH; [by eapply Inv_step|]. eapply step_Inv_created; [exact HI|exact HC|exact Hs].
Qed.

Lemma reachable_Inv_created w : reachable host w → Inv_created w.
Proof.
  intros [acts Hr]. eapply run_Inv_created; [apply Inv_init|apply Inv_created_init|done].
Qed.

Lemma reachable_step a w w' : reachable host w → step host a w = Some w' → reachable host w'.
Proof. intros Hw Hs. apply (reachable_run [a] w w' Hw). simpl. by rewrite Hs. Qed.

Lemma Inv_created_le w ctx name : Inv_created w → creations ctx name w ≤ 1.
Proof.
  intros HC. destruct (HC ctx name) as [_ H].
  destruct (Context.channels (the_ctx w ctx) !! name); [lia|by destruct H].
Qed.

(** C4: one transport connection per name.  In every world the client can
    reach, no context has ever had the transport connect the same name
    twice.  When [channel(name)] has returned a handle, a second call with
    the same name returns another handle on the same transport connection,
    which is the one in the registry, and makes no call into the transport;
    the trace then holds exactly one successful creation for that name. *)
Theorem channel_shares_connection (w : World) (self : addr) (args : PyObject)
    (created1 created2 : option pva_Channel) (c1 : addr) :
  let r1 := Context_py_channel self args created1 w in
  let r2 := Context_py_channel self args created2 r1.1 in
  reachable host w →
  r1.2 = PyReturn (PyChannelObj c1) →
  ∃ name conn c2,
    PyArg_Parse_s args = Some name ∧
    r2.2 = PyReturn (PyChannelObj c2) ∧ c2 ≠ c1 ∧
    Channel.channel (the_chan r2.1 c1) = Some conn ∧
    Channel.channel (the_chan r2.1 c2) = Some conn ∧
    Context.channels (the_ctx r2.1 self) !! name = Some conn ∧
    trace r2.1 = trace r1.1 ∧
    creations self name r2.1 = 1 ∧
    (Context.channels (the_ctx w self) !! name = None →
     trace r1.1 = Ev_createChannel self name c1 (Some conn) :: trace w) ∧
    (∀ ctx name', creations ctx name' r1.1 ≤ 1 ∧ creations ctx name' r2.1 ≤ 1).
Proof.
  intros r1 r2 Hreach Hret.
  assert (reachable host r1.1) as Hreach1
    by (apply (reachable_step (Call_Context_channel self args created1) w); done).
  assert (reachable host r2.1) as Hreach2
    by (apply (reachable_step (Call_Context_channel self args created2) r1.1); done).
  pose proof (reachable_Inv_created _ Hreach1) as HC1.
  pose proof (reachable_Inv_created _ Hreach2) as HC2.
  destruct (PyArg_Parse_s args) as [name|] eqn:Ea.
  2:{ unfold r1 in Hret.
      destruct (Context_py_channel_bad_args self args created1 w Ea) as [m Hm].
      by rewrite Hm in Hret. }
  destruct (Context.provider (the_ctx w self)) as [p|] eqn:Ep.
  2:{ unfold r1 in Hret.
      destruct (Context_py_channel_closed self args created1 w Ep) as (e & m & Hm).
      by rewrite Hm in Hret. }
  (* the registry after the first call *)
  assert (∃ conn,
    c1 = next w ∧ next r1.1 = S (next w) ∧
    Context.provider (the_ctx r1.1 self) = Some p ∧
    Context.channels (the_ctx r1.1 self) !! name = Some conn ∧
    Channel.channel (the_chan r1.1 c1) = Some conn ∧
    (Context.channels (the_ctx w self) !! name = None →
     trace r1.1 = Ev_createChannel self name c1 (Some conn) :: trace w))
    as (conn & -> & Hn1 & Hp1 & Hc1 & Hch1 & Ht1).
  { unfold r1 in *.
    destruct (Context.channels (the_ctx w self) !! name) as [chan|] eqn:Ec.
    - rewrite (Context_py_channel_found _ _ _ _ _ _ _ Ea Ep Ec) in *. simpl in *.
      simplify_eq. exists chan. autorewrite with store.
      rewrite !decide_True by done. rewrite Ep, Ec. by repeat split.
    - destruct created1 as [chan|].
      + rewrite (Context_py_channel_created _ _ _ _ _ _ Ea Ep Ec) in *. simpl in *.
        simplify_eq. exists chan. autorewrite with store.
        rewrite !decide_True by done. simpl. rewrite lookup_insert_eq. by repeat split.
      + rewrite (Context_py_channel_refused _ _ _ _ _ Ea Ep Ec) in Hret. done. }
  exists name, conn, (S (next w)).
  unfold r2 in *. set (w1 := r1.1) in *.
  rewrite (Context_py_channel_found _ _ _ _ _ _ _ Ea Hp1 Hc1) in *. simpl in *.
  rewrite !Hn1. rewrite !the_chan_put_chan.
  rewrite !(decide_False (P := S (next w) = next w)) by lia.
  rewrite !(decide_True (P := S (next w) = S (next w))) by done. simpl.
  rewrite the_chan_bump, !the_ctx_put_chan, the_ctx_bump.
  split; [done|]. split; [done|]. split; [lia|]. split; [done|]. split; [done|].
  split; [done|]. split; [done|]. split.
  - destruct (HC2 self name) as [_ H].
    by rewrite !the_ctx_put_chan, the_ctx_bump, Hc1 in H.
  - split; [done|]. intros ctx name'. split; by apply Inv_created_le.
Qed.

(** *** Completion *)

Lemma c_str_no_NUL s : has_NUL s = false → c_str s = s.
Proof.
  induction s as [|c s IH]; simpl; [done|].
  destruct (Ascii.eqb c Ascii.zero); simpl; [done|]. intros Hs. by rewrite IH.
Qed.

Lemma GetOp_getDone_no_callback this status g pv w :
  GetOp.cb (the_op w this) = None → GetOp_getDone host this status g pv w = w.
Proof. unfold GetOp_getDone. by intros ->. Qed.

Lemma GetOp_getDone_trace this status g pv w f :
  GetOp.cb (the_op w this) = Some f →
  trace (GetOp_getDone host this status g pv w) =
    match getDone_V host status pv with
    | Some v =>
        match PyObject_Call host f v with
        | Some _ => [Ev_PyCall this g f v]
        | None => [Ev_PyErr_Clear; Ev_PyErr_Print; Ev_PyCall this g f v]
        end
    | None => [Ev_PyErr_Clear; Ev_PyErr_Print]
    end ++ trace w.
Proof.
  unfold GetOp_getDone. intros ->.
  destruct (getDone_V host status pv) as [v|]; [|done].
  by destruct (PyObject_Call host f v).
Qed.

(** C5, amended: a completion notification for an operation whose
    callback is installed invokes the callback exactly once whenever the
    object to pass can be built: with the wrapped value on success, and on
    failure with an error whose message is the transport's message read as
    a C string, which is the whole message when it holds no NUL.  Without
    callback nothing happens. *)
Theorem getDone_invokes_callback_once (w : World) (this : addr) (status : Status)
    (g : pva_ChannelGet) (pv : PVStructure) :
  let w' := GetOp_getDone host this status g pv w in
  match GetOp.cb (the_op w this) with
  | None => w' = w
  | Some f =>
      ∀ v, getDone_V host status pv = Some v →
        List.filter is_PyCall (trace w') = Ev_PyCall this g f v :: List.filter is_PyCall (trace w) ∧
        if isSuccess status then P4PValue_wrap host pv = Some v
        else v = PyRuntimeErrorInst (c_str (getMessage status)) ∧
             (has_NUL (getMessage status) = false → v = PyRuntimeErrorInst (getMessage status))
  end.
Proof.
  intros w'. destruct (GetOp.cb (the_op w this)) as [f|] eqn:Ecb.
  2:{ by apply GetOp_getDone_no_callback. }
  intros v HV. split.
  - unfold w'. rewrite (GetOp_getDone_trace _ _ _ _ _ f Ecb), HV.
    by destruct (PyObject_Call host f v).
  - unfold getDone_V in HV. destruct (isSuccess status); [done|].
    unfold PyObject_CallFunction_RuntimeError in HV.
    destruct (PyExc_RuntimeError_alloc host _); [|done]. simplify_eq.
    split; [done|]. intros HN. by rewrite c_str_no_NUL.
Qed.

(** C10: when the object for the callback cannot be built, the callback is
    not invoked: the pending error is printed and cleared and nothing else
    happens. *)
Theorem getDone_drops_completion_without_value (w : World) (this : addr) (status : Status)
    (g : pva_ChannelGet) (pv : PVStructure) (f : PyObject) :
  GetOp.cb (the_op w this) = Some f →
  (if isSuccess status then P4PValue_wrap host pv = None
   else PyExc_RuntimeError_alloc host (c_str (getMessage status)) = false) →
  GetOp_getDone host this status g pv w = emit Ev_PyErr_Clear (emit Ev_PyErr_Print w) ∧
  List.filter is_PyCall (trace (GetOp_getDone host this status g pv w)) =
  List.filter is_PyCall (trace w).
Proof.
  intros Ecb HV.
  assert (getDone_V host status pv = None) as HN.
  { unfold getDone_V, PyObject_CallFunction_RuntimeError.
    destruct (isSuccess status); [done|]. by rewrite HV. }
  assert (GetOp_getDone host this status g pv w = emit Ev_PyErr_Clear (emit Ev_PyErr_Print w))
    as ->; [|done].
  unfold GetOp_getDone. by rewrite Ecb, HN.
Qed.

(** *** Request options *)

(** C9: [buildRequest]: [None] gives the structure without fields, a string
    makes it throw whatever the string, and any other object is handed to
    [P4PValue_unwrap]. *)
Theorem buildRequest_forms :
  buildRequest host Py_None = inr empty_struct ∧
  (∀ s, buildRequest host (PyStr s) = inl "pvRequest parsing not implemented") ∧
  (∀ v, buildRequest host (P4PValue v) = P4PValue_unwrap host (P4PValue v)) ∧
  (∀ req, req ≠ Py_None → PyString_Check req = false →
          buildRequest host req = P4PValue_unwrap host req).
Proof.
  split; [done|]. split; [done|]. split; [done|].
  intros req Hn Hs. unfold buildRequest. rewrite Hs. by destruct req.
Qed.

(** *** The connect phase *)

Lemma step_no_get a w w' g :
  connects g a = false → step host a w = Some w' →
  List.filter (is_get_on g) (trace w') = List.filter (is_get_on g) (trace w).
Proof.
  intros Ha Hs. eapply evolves_filter; [by apply step_evolves|].
  intros e HK _. destruct e; simpl; try done. simpl in HK.
  destruct HK as (this & status & -> & Hok). simpl in Ha. rewrite Hok in Ha. simpl in Ha.
  apply bool_decide_eq_false. by apply bool_decide_eq_false in Ha.
Qed.

Lemma run_no_get acts w w' g :
  forallb (λ a, negb (connects g a)) acts = true → run host acts w = Some w' →
  List.filter (is_get_on g) (trace w') = List.filter (is_get_on g) (trace w).
Proof.
  revert w. induction acts as [|a acts IH]; intros w; simpl.
  { by intros _ [= <-]. }
  intros Ha. apply andb_prop in Ha as [Ha Hacts]. apply negb_true_iff in Ha.
  destruct (step host a w) as [w1|] eqn:Es; [|done]. intros Hr.
  rewrite (IH w1 Hacts Hr). by eapply step_no_get.
Qed.

Lemma run_no_completion acts w w' g :
  forallb (λ a, negb (connects g a)) acts = true →
  count (is_get_on g) (trace w) = 0 →
  completions_answer_requests host acts w →
  run host acts w = Some w' →
  List.filter (is_PyCall_from g) (trace w') = List.filter (is_PyCall_from g) (trace w).
Proof.
  revert w. induction acts as [|a acts IH]; intros w; simpl.
  { by intros _ _ _ [= <-]. }
  intros Ha Hg [Hans Hrest]. apply andb_prop in Ha as [Ha Hacts]. apply negb_true_iff in Ha.
  destruct (step host a w) as [w1|] eqn:Es; [|done]. intros Hr.
  rewrite (IH w1 Hacts); [| |done|done].
  - eapply evolves_filter; [by apply step_evolves|].
    intros e HK _. destruct e; simpl; try done. simpl in HK.
    destruct HK as (status & pv & -> & _).
    apply bool_decide_eq_false. intros ->. simpl in Hans. lia.
  - unfold count in *. by rewrite (step_no_get a w w1 g Ha Es).
Qed.

(** C8, amended: a connect-phase notification with a failure status only
    writes a log line and leaves the store as it is; with a success status
    it requests the data on the exchange it was given.  As long as no
    successful connect notification arrives for an exchange, its data is
    never requested; and if the transport completes only exchanges whose
    data was requested, no callback is ever invoked for that exchange.
    (The operation stays registered: a reconnection restarts it with a new
    exchange.) *)
Theorem connect_failure_only_logs (w : World) (this : addr) (status : Status)
    (g : pva_ChannelGet) :
  (isSuccess status = false →
   GetOp_channelGetConnect this status g w =
     emit (Ev_cerr ("channelGetConnect oops " +:+ Status_dump status)) w) ∧
  (isSuccess status = true →
   GetOp_channelGetConnect this status g w = emit (Ev_ChannelGet_get g) w) ∧
  (∀ acts w',
     forallb (λ a, negb (connects g a)) acts = true →
     run host acts w = Some w' →
     List.filter (is_get_on g) (trace w') = List.filter (is_get_on g) (trace w) ∧
     (count (is_get_on g) (trace w) = 0 → completions_answer_requests host acts w →
      List.filter (is_PyCall_from g) (trace w') = List.filter (is_PyCall_from g) (trace w))).
Proof.
  split; [|split].
  - unfold GetOp_channelGetConnect. by intros ->.
  - unfold GetOp_channelGetConnect. by intros ->.
  - intros acts w' Ha Hr. split; [by eapply run_no_get|].
    intros Hg Hans. by eapply run_no_completion.
Qed.

End Properties.

(** ** The scenarios, checked *)

Example world_R1_op :
  the_op world_R1 2 = GetOp.mk (Some 1) (Some []) (Some 9) (Some (PyFunction 0)).
Proof. vm_compute. reflexivity. Qed.

Example world_R1_reachable : reachable example_host world_R1.
Proof. exists get_on_R1. vm_compute. reflexivity. Qed.

Example world_ctx_reachable : reachable example_host world_ctx.
Proof. exists open_context. vm_compute. reflexivity. Qed.

Lemma cancel_idempotent_witness :
  2 < next world_R1 ∧
  (OpBase_py_cancel 2 world_R1).2 = true ∧
  (OpBase_py_cancel 2 (OpBase_py_cancel 2 world_R1).1).2 = false ∧
  ∃ w', run example_host late_completion (OpBase_py_cancel 2 world_R1).1 = Some w' ∧
        (OpBase_py_cancel 2 w').2 = false ∧
        List.filter (is_PyCall_of 2) (trace w') =
        List.filter (is_PyCall_of 2) (trace (OpBase_py_cancel 2 world_R1).1).
Proof.
  assert (2 < next world_R1) as Hlt by (vm_compute; lia).
  assert ((OpBase_py_cancel 2 world_R1).2 = true) as Ht by (vm_compute; reflexivity).
  destruct (cancel_idempotent example_host world_R1 2) as [H1 H2].
  split; [exact Hlt|]. split; [exact Ht|]. split; [exact H1|].
  exists (default World_init (run example_host late_completion (OpBase_py_cancel 2 world_R1).1)).
  assert (run example_host late_completion (OpBase_py_cancel 2 world_R1).1 =
          Some (default World_init
                  (run example_host late_completion (OpBase_py_cancel 2 world_R1).1))) as Hr
    by (vm_compute; reflexivity).
  destruct (H2 Hlt _ _ Hr) as [H3 H4].
  split; [exact Hr|]. split; [exact H3|exact (H4 Ht)].
Defined.

Lemma reconnect_restarts_once_witness :
  reachable example_host world_R1 ∧
  ∃ w1 w2,
    Channel_channelStateChange 1 DISCONNECTED (λ _, Returns None) world_R1 = Some w1 ∧
    Channel_channelStateChange 1 CONNECTED (λ _, Returns (Some 10)) w1 = Some w2 ∧
    Channel.ops (the_chan w1 1) = Channel.ops (the_chan world_R1 1) ∧
    GetOp.op (the_op w1 2) = None ∧
    Ev_ChannelGet_destroy 9 ∈ trace w1 ∧
    List.filter is_PyCall (trace w2) = List.filter is_PyCall (trace world_R1) ∧
    count (is_createChannelGet_of 2) (trace w2) =
    count (is_createChannelGet_of 2) (trace world_R1) + 1.
Proof.
  split; [exact world_R1_reachable|].
  destruct (reconnect_restarts_once example_host world_R1 1
              (λ _, Returns None) (λ _, Returns (Some 10)) world_R1_reachable)
    as (w1 & w2 & Hd & Hc & Hops & Hin & _ & Hcalls & _ & Hcount).
  assert (2 ∈ Channel.ops (the_chan world_R1 1)) as Hreg
    by (apply (bool_decide_unpack (2 ∈ Channel.ops (the_chan world_R1 1)));
        vm_compute; exact I).
  exists w1, w2. split; [exact Hd|]. split; [exact Hc|]. split; [exact Hops|].
  destruct (Hin 2 Hreg) as (Hop & _ & Hdes).
  split; [exact Hop|]. split; [exact (Hdes 9 (f_equal GetOp.op world_R1_op))|].
  split; [exact Hcalls|].
  specialize (Hcount 2). rewrite decide_True in Hcount by exact Hreg. exact Hcount.
Defined.

Lemma close_idempotent_then_channel_fails_witness :
  reachable example_host world_R1 ∧ is_Some (contexts world_R1 !! 0) ∧
  Context.channels (the_ctx world_R1 0) !! "R1" = Some 7 ∧
  Context_close 0 (Context_close 0 world_R1) = Context_close 0 world_R1 ∧
  Context.provider (the_ctx (Context_close 0 world_R1) 0) = None ∧
  Context.channels (the_ctx (Context_close 0 world_R1) 0) = ∅ ∧
  Ev_Channel_destroy 7 ∈ trace (Context_close 0 world_R1) ∧
  ∃ w', run example_host late_completion (Context_close 0 world_R1) = Some w' ∧
        ∃ exc msg, Context_py_channel 0 (PyStr "R2") (Some 8) w' = (w', PyRaise exc msg).
Proof.
  assert (is_Some (contexts world_R1 !! 0)) as Hctx by (vm_compute; eexists; reflexivity).
  assert (Context.channels (the_ctx world_R1 0) !! "R1" = Some 7) as Hreg
    by (vm_compute; reflexivity).
  destruct (close_idempotent_then_channel_fails example_host world_R1 0)
    as (Hid & Hp & _ & Hr).
  destruct (Hr world_R1_reachable) as (Hempty & Hdes & Hfail).
  split; [exact world_R1_reachable|]. split; [exact Hctx|]. split; [exact Hreg|].
  split; [exact Hid|]. split; [exact Hp|]. split; [exact Hempty|].
  split; [exact (Hdes "R1" 7 Hreg)|].
  exists (default World_init (run example_host late_completion (Context_close 0 world_R1))).
  assert (run example_host late_completion (Context_close 0 world_R1) =
          Some (default World_init
                  (run example_host late_completion (Context_close 0 world_R1)))) as Hrun
    by (vm_compute; reflexivity).
  split; [exact Hrun|]. exact (Hfail Hctx _ _ (PyStr "R2") (Some 8) Hrun).
Defined.

Lemma channel_shares_connection_witness :
  reachable example_host world_ctx ∧
  (Context_py_channel 0 (PyStr "R1") (Some 7) world_ctx).2 = PyReturn (PyChannelObj 1) ∧
  ∃ conn c2,
    (Context_py_channel 0 (PyStr "R1") (Some 8)
       (Context_py_channel 0 (PyStr "R1") (Some 7) world_ctx).1).2
      = PyReturn (PyChannelObj c2) ∧
    c2 ≠ 1 ∧
    Channel.channel
      (the_chan (Context_py_channel 0 (PyStr "R1") (Some 8)
                   (Context_py_channel 0 (PyStr "R1") (Some 7) world_ctx).1).1 1) = Some conn ∧
    Channel.channel
      (the_chan (Context_py_channel 0 (PyStr "R1") (Some 8)
                   (Context_py_channel 0 (PyStr "R1") (Some 7) world_ctx).1).1 c2) = Some conn ∧
    creations 0 "R1"
      (Context_py_channel 0 (PyStr "R1") (Some 8)
         (Context_py_channel 0 (PyStr "R1") (Some 7) world_ctx).1).1 = 1.
Proof.
  assert ((Context_py_channel 0 (PyStr "R1") (Some 7) world_ctx).2 = PyReturn (PyChannelObj 1))
    as Hret by (vm_compute; reflexivity).
  destruct (channel_shares_connection example_host world_ctx 0 (PyStr "R1") (Some 7) (Some 8) 1
              world_ctx_reachable Hret)
    as (name & conn & c2 & Hname & Hret2 & Hne & Hch1 & Hch2 & _ & _ & Hone & _).
  split; [exact world_ctx_reachable|]. split; [exact Hret|].
  exists conn, c2. split; [exact Hret2|]. split; [exact Hne|]. split; [exact Hch1|].
  split; [exact Hch2|].
  assert (name = "R1") as Hn by (vm_compute in Hname; congruence).
  rewrite Hn in Hone. exact Hone.
Defined.

Lemma getDone_callback_counterexample :
  GetOp.cb (the_op world_R1 2) = Some (PyFunction 0) ∧
  (* the exception instance cannot be built: the callback is not invoked *)
  List.filter is_PyCall (trace (GetOp_getDone exhausted_host 2 no_such_field 9 [] world_R1))
    = [] ∧
  (* a message with a NUL: the error carries only what precedes it *)
  List.filter is_PyCall
    (trace (GetOp_getDone example_host 2 (mkStatus STATUSTYPE_ERROR message_with_NUL) 9 []
              world_R1))
    = [Ev_PyCall 2 9 (PyFunction 0) (PyRuntimeErrorInst "no")] ∧
  PyRuntimeErrorInst "no" ≠ PyRuntimeErrorInst message_with_NUL.
Proof.
  split; [vm_compute; reflexivity|]. split; [vm_compute; reflexivity|].
  split; [vm_compute; reflexivity|]. vm_compute. discriminate.
Qed.

Lemma getDone_invokes_callback_once_witness :
  getDone_V example_host no_such_field [] = Some (PyRuntimeErrorInst "no such field") ∧
  List.filter is_PyCall (trace (GetOp_getDone example_host 2 no_such_field 9 [] world_R1)) =
  Ev_PyCall 2 9 (PyFunction 0) (PyRuntimeErrorInst "no such field")
    :: List.filter is_PyCall (trace world_R1).
Proof.
  assert (getDone_V example_host no_such_field [] = Some (PyRuntimeErrorInst "no such field"))
    as HV by (vm_compute; reflexivity).
  split; [exact HV|].
  pose proof (getDone_invokes_callback_once example_host world_R1 2 no_such_field 9 []) as H.
  cbv zeta in H. rewrite world_R1_op in H. simpl GetOp.cb in H. cbv iota beta in H.
  destruct (H _ HV) as [H1 _]. exact H1.
Defined.

Lemma getDone_drops_completion_without_value_witness :
  GetOp.cb (the_op world_R1 2) = Some (PyFunction 0) ∧
  PyExc_RuntimeError_alloc exhausted_host (c_str (getMessage no_such_field)) = false ∧
  GetOp_getDone exhausted_host 2 no_such_field 9 [] world_R1 =
    emit Ev_PyErr_Clear (emit Ev_PyErr_Print world_R1).
Proof.
  assert (GetOp.cb (the_op world_R1 2) = Some (PyFunction 0)) as Hcb
    by (vm_compute; reflexivity).
  split; [exact Hcb|]. split; [reflexivity|].
  exact (proj1 (getDone_drops_completion_without_value exhausted_host world_R1 2
                  no_such_field 9 [] (PyFunction 0) Hcb eq_refl)).
Defined.

Lemma destroyed_cancels_registered_witness :
  reachable example_host world_R1 ∧ 2 ∈ Channel.ops (the_chan world_R1 1) ∧
  ∃ w', Channel_channelStateChange 1 DESTROYED destroy_R1 world_R1 = Some w' ∧
    Channel.ops (the_chan w' 1) = ∅ ∧
    GetOp.channel (the_op w' 2) = None ∧
    Ev_ChannelGet_destroy 9 ∈ trace w' ∧
    ∃ w'', run example_host
             [Notify_channelStateChange 1 CONNECTED (λ _, Returns (Some 10))] w' = Some w'' ∧
           List.filter (is_createChannelGet_of 2) (trace w'') =
           List.filter (is_createChannelGet_of 2) (trace w').
Proof.
  assert (2 ∈ Channel.ops (the_chan world_R1 1)) as Hreg
    by (apply (bool_decide_unpack (2 ∈ Channel.ops (the_chan world_R1 1)));
        vm_compute; exact I).
  split; [exact world_R1_reachable|]. split; [exact Hreg|].
  destruct (destroyed_cancels_registered example_host world_R1 1 destroy_R1)
    as (w' & Hw' & Hempty & Hall).
  destruct (Hall 2 Hreg) as (Hch & _ & _ & Hdes & Hlater).
  exists w'. split; [exact Hw'|]. split; [exact Hempty|]. split; [exact Hch|].
  split; [exact (Hdes 9 (f_equal GetOp.op world_R1_op))|].
  assert (w' = default World_init (Channel_channelStateChange 1 DESTROYED destroy_R1 world_R1))
    as Hw'eq by (rewrite Hw'; reflexivity).
  exists (default World_init
            (run example_host
               [Notify_channelStateChange 1 CONNECTED (λ _, Returns (Some 10))] w')).
  assert (run example_host
            [Notify_channelStateChange 1 CONNECTED (λ _, Returns (Some 10))] w' =
          Some (default World_init
                  (run example_host
                     [Notify_channelStateChange 1 CONNECTED (λ _, Returns (Some 10))] w')))
    as Hrun by (rewrite Hw'eq; vm_compute; reflexivity).
  split; [exact Hrun|].
  destruct (Hlater world_R1_reachable _ _ Hrun) as (_ & _ & Hnone). exact Hnone.
Defined.

Lemma buildRequest_forms_witness :
  PyFunction 3 ≠ Py_None ∧ PyString_Check (PyFunction 3) = false ∧
  buildRequest example_host (PyFunction 3) = inl "not a Value" ∧
  buildRequest example_host (P4PValue [("field", PVString "value")]) =
    inr [("field", PVString "value")].
Proof.
  destruct (buildRequest_forms example_host) as (_ & _ & Hv & Hother).
  assert (PyFunction 3 ≠ Py_None) as Hne by discriminate.
  split; [exact Hne|]. split; [reflexivity|]. split.
  - exact (Hother (PyFunction 3) Hne eq_refl).
  - exact (Hv [("field", PVString "value")]).
Defined.

Lemma connect_failure_only_logs_witness :
  GetOp_channelGetConnect 2 no_such_field 9 world_R1 =
    emit (Ev_cerr "channelGetConnect oops Status [type=ERROR, message=no such field]") world_R1 ∧
  GetOp_channelGetConnect 2 (mkStatus STATUSTYPE_OK "") 9 world_R1 =
    emit (Ev_ChannelGet_get 9) world_R1 ∧
  ∃ w', run example_host failed_connect_then_reconnect world_R1 = Some w' ∧
        List.filter (is_get_on 9) (trace w') = List.filter (is_get_on 9) (trace world_R1) ∧
        List.filter (is_PyCall_from 9) (trace w') =
        List.filter (is_PyCall_from 9) (trace world_R1).
Proof.
  destruct (connect_failure_only_logs example_host world_R1 2 no_such_field 9)
    as (Hlog & _ & Hnever).
  destruct (connect_failure_only_logs example_host world_R1 2 (mkStatus STATUSTYPE_OK "") 9)
    as (_ & Hget & _).
  split; [exact (Hlog eq_refl)|]. split; [exact (Hget eq_refl)|].
  exists (default World_init (run example_host failed_connect_then_reconnect world_R1)).
  assert (run example_host failed_connect_then_reconnect world_R1 =
          Some (default World_init (run example_host failed_connect_then_reconnect world_R1)))
    as Hrun by (vm_compute; reflexivity).
  destruct (Hnever failed_connect_then_reconnect _ eq_refl Hrun) as [H1 H2].
  split; [exact Hrun|]. split; [exact H1|]. apply H2.
  - vm_compute. reflexivity.
  - vm_compute. repeat split; lia.
Defined.

(** After a failed connect phase the operation is still registered: when the
    channel reconnects it is restarted, and the completion of the new
    exchange invokes the callback. *)
Lemma connect_failure_callback_counterexample :
  let w1 := GetOp_channelGetConnect 2 no_such_field 9 world_R1 in
  let w' := default World_init (run example_host (tail failed_connect_then_reconnect) w1) in
  run example_host (tail failed_connect_then_reconnect) w1 = Some w' ∧
  List.filter (is_PyCall_of 2) (trace w1) = [] ∧
  List.filter (is_PyCall_of 2) (trace w') =
    [Ev_PyCall 2 10 (PyFunction 0) (P4PValue [("value", PVScalar 42)])].
Proof. vm_compute. repeat split; reflexivity. Qed.

(** * Further properties of the client *)

Section Coverage.
Variable host : Host.

(** ** What is never undone *)

Lemma keeps_refl w : keeps w w.
Proof. split; [by exists []|]. split; [done|]. intros; by left. Qed.

Lemma keeps_trans w1 w2 w3 : keeps w1 w2 → keeps w2 w3 → keeps w1 w3.
Proof.
  intros ([d1 Ht1] & Hh1 & He1) ([d2 Ht2] & Hh2 & He2). split; [|split].
  - exists (d2 ++ d1). by rewrite Ht2, Ht1, app_assoc.
  - intros c pch Hc. by apply Hh2, Hh1.
  - intros o g Ho. destruct (He1 o g Ho) as [Ho1|Hd]; [by apply He2|].
    right. rewrite Ht2. apply elem_of_app. by right.
Qed.

Lemma keeps_store w w' :
  trace w' = trace w →
  (∀ c pch, Channel.channel (the_chan w c) = Some pch →
            Channel.channel (the_chan w' c) = Some pch) →
  (∀ o g, GetOp.op (the_op w o) = Some g → GetOp.op (the_op w' o) = Some g) →
  keeps w w'.
Proof.
  intros Ht Hh Ho. split; [exists []; by rewrite Ht|]. split; [done|].
  intros o g Hg. left. by apply Ho.
Qed.

Lemma keeps_emit e w : keeps w (emit e w).
Proof. split; [by exists [e]|]. split; [done|]. intros; by left. Qed.

Lemma keeps_caught prefix e w : keeps w (caught prefix e w).
Proof. destruct e; [apply keeps_emit|apply keeps_refl]. Qed.

Lemma keeps_GetOp_cancel this w : keeps w (GetOp_cancel this w).1.
Proof.
  split; [|split].
  - rewrite GetOp_cancel_trace. destruct (GetOp.op _) as [t|]; [by exists [Ev_ChannelGet_destroy t]|by exists []].
  - intros c pch Hc. rewrite GetOp_cancel_chan. by goal_decide.
  - intros o g Hg. rewrite GetOp_cancel_op, GetOp_cancel_trace.
    goal_decide as [->|]; [|by left]. right. rewrite Hg. by left.
Qed.

Lemma keeps_GetOp_lostConn self w : keeps w (GetOp_lostConn self w).
Proof.
  split; [|split].
  - rewrite GetOp_lostConn_trace. destruct (GetOp.channel _); [|by exists []].
    by eexists.
  - intros c pch Hc. rewrite GetOp_lostConn_chan. by goal_decide.
  - intros o g Hg. rewrite GetOp_lostConn_op, GetOp_lostConn_trace.
    destruct (decide (self = o ∧ _)) as [[-> [c Hc]]|]; [|by left].
    right. rewrite Hc, Hg. by left.
Qed.

Lemma keeps_GetOp_restart self answer w w' e :
  GetOp_restart self answer w = Some (w', e) → keeps w w'.
Proof.
  intros Hr. destruct (GetOp.channel (the_op w self)) as [c|] eqn:Ec.
  2:{ rewrite GetOp_restart_unbound in Hr by done. simplify_eq. apply keeps_refl. }
  destruct (Channel.channel (the_chan w c)) as [pch|] eqn:Ech.
  2:{ by rewrite (GetOp_restart_fault _ _ _ c) in Hr. }
  destruct (GetOp_restart_bound self answer w c pch Ec Ech)
    as (w'' & Hr' & _ & _ & Hop & Hch & Ht).
  rewrite Hr in Hr'. simplify_eq. split; [|split].
  - rewrite Ht. by exists (Ev_createChannelGet pch self (GetOp.req (the_op w self))
                          :: destroyed (GetOp.op (the_op w self))).
  - intros c' pch' Hc'. rewrite Hch. by goal_decide.
  - intros o g Hg. rewrite Hop, Ht. goal_decide as [->|]; [|by left].
    right. rewrite Hg. simpl. right. by left.
Qed.

Lemma keeps_cancel_each l w : keeps w (cancel_each l w).
Proof.
  revert w. induction l as [|it l IH]; intros w; simpl; [apply keeps_refl|].
  eapply keeps_trans; [apply keeps_GetOp_cancel|apply IH].
Qed.

Lemma keeps_lostConn_each l w : keeps w (lostConn_each l w).
Proof.
  revert w. induction l as [|it l IH]; intros w; simpl; [apply keeps_refl|].
  eapply keeps_trans; [apply keeps_GetOp_lostConn|apply IH].
Qed.

Lemma keeps_restart_each answers l w w' :
  restart_each answers l w = Some w' → keeps w w'.
Proof.
  revert w. induction l as [|it l IH]; intros w; simpl.
  { intros [= <-]. apply keeps_refl. }
  destruct (GetOp_restart it (answers it) w) as [[w1 e]|] eqn:Er; [|done].
  intros Hl. eapply keeps_trans; [by eapply keeps_GetOp_restart|].
  eapply keeps_trans; [apply keeps_caught|by apply IH].
Qed.

Lemma keeps_Channel_channelStateChange self s answers w w' :
  Channel_channelStateChange self s answers w = Some w' → keeps w w'.
Proof.
  unfold Channel_channelStateChange.
  set (swapped := put_chan _ _ w).
  assert (keeps w swapped) as Hs.
  { apply keeps_store; [done| |done]. intros c pch Hc. unfold swapped.
    rewrite the_chan_put_chan. goal_decide as [->|]; done. }
  destruct s.
  - intros [= <-]. apply keeps_refl.
  - intros Hl. eapply keeps_trans; [done|]. by eapply keeps_restart_each.
  - intros [= <-]. eapply keeps_trans; [done|]. apply keeps_lostConn_each.
  - intros [= <-]. eapply keeps_trans; [done|]. apply keeps_cancel_each.
Qed.

Lemma keeps_Context_close self w : keeps w (Context_close self w).
Proof.
  split; [|split].
  - rewrite Context_close_trace. destruct (Context.provider _); [by eexists|by exists []].
  - intros c pch Hc. unfold Context_close.
    destruct (Context.provider (the_ctx w self)); [|done].
    match goal with |- context [foldl ?f ?w0 ?l] =>
      destruct (destroy_all_frame l w0) as (_ & Hch & _) end.
    unfold the_chan in *. by rewrite Hch.
  - intros o g Hg. left. unfold Context_close.
    destruct (Context.provider (the_ctx w self)); [|done].
    match goal with |- context [foldl ?f ?w0 ?l] =>
      destruct (destroy_all_frame l w0) as (_ & _ & Hop & _) end.
    unfold the_op in *. by rewrite Hop.
Qed.

Lemma keeps_Context_py_init args created w : keeps w (Context_py_init args created w).1.
Proof.
  unfold Context_py_init. destruct (PyArg_Parse_s args) as [pname|]; [|apply keeps_refl].
  simpl. split; [by exists [Ev_createProvider pname]|]. split; [done|]. intros; by left.
Qed.

Lemma Context_py_channel_chan self args created w c :
  c ≠ next w → the_chan (Context_py_channel self args created w).1 c = the_chan w c.
Proof.
  intros Hc.
  destruct (PyArg_Parse_s args) as [cname|] eqn:Ea.
  2:{ by destruct (Context_py_channel_bad_args self args created w Ea) as [m ->]. }
  destruct (Context.provider (the_ctx w self)) as [p|] eqn:Ep.
  2:{ by destruct (Context_py_channel_closed self args created w Ep) as (e & m & ->). }
  destruct (Context.channels (the_ctx w self) !! cname) as [chan|] eqn:Ec.
  { rewrite (Context_py_channel_found _ _ _ _ _ _ _ Ea Ep Ec). simpl.
    autorewrite with store. rewrite !decide_False by congruence. done. }
  destruct created as [chan|].
  - rewrite (Context_py_channel_created _ _ _ _ _ _ Ea Ep Ec). simpl.
    autorewrite with store. rewrite !decide_False by congruence. done.
  - rewrite (Context_py_channel_refused _ _ _ _ _ Ea Ep Ec). simpl.
    autorewrite with store. rewrite !decide_False by congruence. done.
Qed.

Lemma Context_py_channel_getops self args created w :
  getops (Context_py_channel self args created w).1 = getops w.
Proof.
  destruct (PyArg_Parse_s args) as [cname|] eqn:Ea.
  2:{ by destruct (Context_py_channel_bad_args self args created w Ea) as [m ->]. }
  destruct (Context.provider (the_ctx w self)) as [p|] eqn:Ep.
  2:{ by destruct (Context_py_channel_closed self args created w Ep) as (e & m & ->). }
  destruct (Context.channels (the_ctx w self) !! cname) as [chan|] eqn:Ec.
  { by rewrite (Context_py_channel_found _ _ _ _ _ _ _ Ea Ep Ec). }
  destruct created as [chan|].
  - by rewrite (Context_py_channel_created _ _ _ _ _ _ Ea Ep Ec).
  - by rewrite (Context_py_channel_refused _ _ _ _ _ Ea Ep Ec).
Qed.

Lemma keeps_Context_py_channel self args created w :
  Inv w → keeps w (Context_py_channel self args created w).1.
Proof.
  intros HI. split; [|split].
  - rewrite Context_py_channel_trace.
    destruct (PyArg_Parse_s args); [|by exists []].
    destruct (Context.provider _); [|by exists []].
    destruct (_ !! _); [by exists []|by eexists [_]].
  - intros c pch Hc. rewrite Context_py_channel_chan; [done|].
    intros ->. by rewrite (inv_fresh_chan w HI (next w)) in Hc.
  - intros o g Hg. left. unfold the_op in *. by rewrite Context_py_channel_getops.
Qed.

Lemma keeps_Channel_py_get self parsed connected answer w w' r :
  Inv w → Channel_py_get host self parsed connected answer w = Some (w', r) → keeps w w'.
Proof.
  intros HI.
  destruct parsed as [|exc msg|cb req]; [done|intros [= <- _]; apply keeps_refl|].
  destruct (PyCallable_Check cb) eqn:Ecb.
  2:{ rewrite Channel_py_get_not_callable by done. intros [= <- _]. apply keeps_refl. }
  destruct (Channel.channel (the_chan w self)) as [pch|] eqn:Ech.
  2:{ intros Hg. destruct (Channel_py_get_closed host _ _ _ _ _ _ _ _ Ech Hg) as [-> _].
      apply keeps_refl. }
  rewrite (Channel_py_get_open _ _ _ _ _ _ _ pch) by done.
  assert (∀ g, GetOp.op (the_op w (next w)) ≠ Some g) as Hfresh
    by (intros g; by rewrite (inv_fresh_op w HI (next w))).
  destruct (buildRequest host req) as [what|opts].
  - intros [= <- _].
    set (w1 := put_op (next w) (GetOp.mk (Some self) None None (Some cb)) (bump w)).
    destruct (OpBase_cancel_frame (next w) w1) as (_ & Hops & _ & Ht).
    apply keeps_store.
    + simpl. by rewrite Ht.
    + intros c pch' Hc. rewrite the_chan_free_op, OpBase_cancel_chan.
      unfold w1. rewrite the_chan_put_op, the_chan_bump. by goal_decide.
    + intros o g Hg. rewrite the_op_free_op.
      goal_decide as [<-|Hne]; [by destruct (Hfresh g)|].
      unfold the_op at 1. rewrite Hops. fold (the_op w1 o). unfold w1.
      by rewrite the_op_put_op, decide_False, the_op_bump.
  - assert (keeps w (registered_get self cb opts w)) as Hreg.
    { apply keeps_store; [done|..]; unfold registered_get.
      - intros c pch' Hc. rewrite the_chan_put_chan. goal_decide as [<-|]; done.
      - intros o g Hg. rewrite the_op_put_chan, the_op_put_op.
        goal_decide as [<-|]; [by destruct (Hfresh g)|done]. }
    destruct connected; [|by intros [= <- _]].
    destruct (GetOp_restart _ _ _) as [[w1 [what|]]|] eqn:Er; [| |done];
      intros [= <- _]; (eapply keeps_trans; [exact Hreg|]);
      by eapply keeps_GetOp_restart.
Qed.

Lemma keeps_GetOp_getDone this status g pv w :
  keeps w (GetOp_getDone host this status g pv w).
Proof.
  destruct (GetOp_getDone_frame host this status g pv w) as (_ & Hch & Hop & _).
  split; [|split].
  - destruct (GetOp.cb (the_op w this)) as [f|] eqn:Ecb.
    + rewrite (GetOp_getDone_trace host _ _ _ _ _ f Ecb). by eexists.
    + rewrite GetOp_getDone_no_callback by done. by exists [].
  - intros c pch Hc. unfold the_chan in *. by rewrite Hch.
  - intros o g' Hg. left. unfold the_op in *. by rewrite Hop.
Qed.

Lemma step_keeps a w w' : Inv w → step host a w = Some w' → keeps w w'.
Proof.
  intros HI. destruct a; simpl.
  - intros [= <-]. apply keeps_Context_py_init.
  - intros [= <-]. by apply keeps_Context_py_channel.
  - intros [= <-]. apply keeps_Context_close.
  - destruct (Channel_py_get host self parsed connected answer w) as [[w1 r]|] eqn:Eg;
      [|done]. simpl. intros [= <-]. by eapply keeps_Channel_py_get.
  - intros [= <-]. unfold OpBase_py_cancel.
    destruct (GetOp.channel (the_op w self)); [|apply keeps_refl].
    apply keeps_GetOp_cancel.
  - intros [= <-]. apply keeps_GetOp_cancel.
  - intros [= <-]. unfold Channel_channelCreated.
    destruct (negb _); [apply keeps_emit|apply keeps_refl].
  - apply keeps_Channel_channelStateChange.
  - intros [= <-]. unfold GetOp_channelGetConnect. destruct (negb _); apply keeps_emit.
  - intros [= <-]. apply keeps_GetOp_getDone.
Qed.

Lemma run_keeps acts w w' : Inv w → run host acts w = Some w' → keeps w w'.
Proof.
  revert w. induction acts as [|a acts IH]; intros w HI; simpl.
  { intros [= <-]. apply keeps_refl. }
  destruct (step host a w) as [w1|] eqn:Hs; [|done]. intros Hr.
  pose proof (Inv_step host a w w1 HI Hs) as HI1.
  eapply keeps_trans; [by eapply step_keeps|by apply IH].
Qed.

(** ** Operations are bound exactly while they have a callback *)

Lemma wf_empty : well_formed_op GetOp.empty.
Proof. split; [|done]. split; intros [? ?]; done. Qed.

Lemma wf_cancelled r : well_formed_op (GetOp.mk None r None None).
Proof. split; [|done]. split; intros [? ?]; done. Qed.

Lemma wf_set_op x g : well_formed_op g → well_formed_op (GetOp.set_op x g).
Proof. by destruct g. Qed.

Lemma Inv_ops_ext w w' : getops w' = getops w → Inv_ops w → Inv_ops w'.
Proof. intros Hg HO o. unfold the_op. rewrite Hg. apply HO. Qed.

Lemma Inv_ops_init : Inv_ops World_init.
Proof. intros o. apply wf_empty. Qed.

Lemma Inv_ops_GetOp_cancel this w : Inv_ops w → Inv_ops (GetOp_cancel this w).1.
Proof.
  intros HO o. rewrite GetOp_cancel_op. goal_decide; [apply wf_cancelled|apply HO].
Qed.

Lemma Inv_ops_GetOp_lostConn self w : Inv_ops w → Inv_ops (GetOp_lostConn self w).
Proof.
  intros HO o. rewrite GetOp_lostConn_op. goal_decide; [apply wf_set_op|]; apply HO.
Qed.

Lemma Inv_ops_GetOp_restart self answer w w' e :
  GetOp_restart self answer w = Some (w', e) → Inv_ops w → Inv_ops w'.
Proof.
  intros Hr HO. destruct (GetOp.channel (the_op w self)) as [c|] eqn:Ec.
  2:{ rewrite GetOp_restart_unbound in Hr by done. by simplify_eq. }
  destruct (Channel.channel (the_chan w c)) as [pch|] eqn:Ech.
  2:{ by rewrite (GetOp_restart_fault _ _ _ c) in Hr. }
  destruct (GetOp_restart_bound self answer w c pch Ec Ech) as (w'' & Hr' & _ & _ & Hop & _).
  rewrite Hr in Hr'. simplify_eq. intros o. rewrite Hop.
  goal_decide; [apply wf_set_op|]; apply HO.
Qed.

Lemma Inv_ops_cancel_each l w : Inv_ops w → Inv_ops (cancel_each l w).
Proof.
  revert w. induction l as [|it l IH]; intros w HO; simpl; [done|].
  by apply IH, Inv_ops_GetOp_cancel.
Qed.

Lemma Inv_ops_lostConn_each l w : Inv_ops w → Inv_ops (lostConn_each l w).
Proof.
  revert w. induction l as [|it l IH]; intros w HO; simpl; [done|].
  by apply IH, Inv_ops_GetOp_lostConn.
Qed.

Lemma Inv_ops_restart_each answers l w w' :
  restart_each answers l w = Some w' → Inv_ops w → Inv_ops w'.
Proof.
  revert w. induction l as [|it l IH]; intros w; simpl; [by intros [= <-]|].
  destruct (GetOp_restart it (answers it) w) as [[w1 e]|] eqn:Er; [|done].
  intros Hl HO. apply (IH _ Hl). apply (Inv_ops_ext w1); [by destruct e|].
  by eapply Inv_ops_GetOp_restart.
Qed.

Lemma Inv_ops_Channel_py_get self parsed connected answer w w' r :
  Channel_py_get host self parsed connected answer w = Some (w', r) → Inv_ops w → Inv_ops w'.
Proof.
  intros Hget HO.
  destruct parsed as [|exc msg|cb req]; [done|simpl in Hget; by simplify_eq|].
  destruct (PyCallable_Check cb) eqn:Ecb.
  2:{ rewrite Channel_py_get_not_callable in Hget by done. by simplify_eq. }
  destruct (Channel.channel (the_chan w self)) as [pch|] eqn:Ech.
  2:{ by destruct (Channel_py_get_closed host _ _ _ _ _ _ _ _ Ech Hget) as [-> _]. }
  rewrite (Channel_py_get_open _ _ _ _ _ _ _ pch) in Hget by done.
  destruct (buildRequest host req) as [what|opts].
  - simplify_eq. intros o. rewrite the_op_free_op. goal_decide; [apply wf_empty|].
    set (w1 := put_op (next w) (GetOp.mk (Some self) None None (Some cb)) (bump w)).
    destruct (OpBase_cancel_frame (next w) w1) as (_ & Hops & _).
    unfold the_op. rewrite Hops. fold (the_op w1 o). unfold w1.
    rewrite the_op_put_op, decide_False, the_op_bump by done. apply HO.
  - assert (Inv_ops (registered_get self cb opts w)) as Hreg.
    { intros o. unfold registered_get. rewrite the_op_put_chan, the_op_put_op, the_op_bump.
      goal_decide; [|apply HO]. split; [done|]. simpl. by intros f [= <-]. }
    destruct connected; [|by simplify_eq].
    destruct (GetOp_restart _ _ _) as [[w1 [what|]]|] eqn:Er; [| |done];
      simplify_eq; by eapply Inv_ops_GetOp_restart.
Qed.

Lemma step_Inv_ops a w w' : step host a w = Some w' → Inv_ops w → Inv_ops w'.
Proof.
  destruct a; simpl.
  - intros [= <-]. apply Inv_ops_ext. unfold Context_py_init.
    by destruct (PyArg_Parse_s args).
  - intros [= <-]. apply Inv_ops_ext, Context_py_channel_getops.
  - intros [= <-]. apply Inv_ops_ext. unfold Context_close.
    destruct (Context.provider (the_ctx w self)); [|done].
    match goal with |- context [foldl ?f ?w0 ?l] =>
      by destruct (destroy_all_frame l w0) as (_ & _ & -> & _) end.
  - destruct (Channel_py_get host self parsed connected answer w) as [[w1 r]|] eqn:Eg;
      [|done]. simpl. intros [= <-]. by eapply Inv_ops_Channel_py_get.
  - intros [= <-]. unfold OpBase_py_cancel.
    destruct (GetOp.channel (the_op w self)); [|done]. apply Inv_ops_GetOp_cancel.
  - intros [= <-]. apply Inv_ops_GetOp_cancel.
  - intros [= <-]. apply Inv_ops_ext. unfold Channel_channelCreated. by destruct (negb _).
  - unfold Channel_channelStateChange. destruct s.
    + by intros [= <-].
    + intros Hl HO. by eapply Inv_ops_restart_each.
    + intros [= <-] HO. by apply Inv_ops_lostConn_each.
    + intros [= <-] HO. by apply Inv_ops_cancel_each.
  - intros [= <-]. apply Inv_ops_ext. unfold GetOp_channelGetConnect. by destruct (negb _).
  - intros [= <-]. apply Inv_ops_ext.
    by destruct (GetOp_getDone_frame host this status channelGet pvStructure w) as (_ & _ & -> & _).
Qed.

Lemma step_calls_callable a w w' :
  step host a w = Some w' → Inv_ops w →
  Forall calls_callable (trace w) → Forall calls_callable (trace w').
Proof.
  intros Hs HO Hc.
  assert ((∀ this status g pv, a ≠ Notify_getDone this status g pv) →
          Forall calls_callable (trace w')) as Hgen.
  { intros Hn. destruct (step_evolves host a w w' Hs) as (_ & _ & d & -> & Hd).
    apply Forall_app. split; [|done].
    eapply Forall_impl; [exact Hd|]. simpl. intros e [HK _].
    destruct e; try done. simpl in HK. destruct HK as (status & pv & -> & _).
    by destruct (Hn this status from pv). }
  destruct a; try (apply Hgen; done).
  simpl in Hs. simplify_eq.
  destruct (GetOp.cb (the_op w this)) as [f|] eqn:Ecb.
  2:{ by rewrite GetOp_getDone_no_callback. }
  rewrite (GetOp_getDone_trace host _ _ _ _ _ f Ecb). apply Forall_app. split; [|done].
  pose proof (proj2 (HO this) f Ecb) as Hf.
  destruct (getDone_V host status pvStructure) as [v|]; [|by repeat constructor].
  destruct (PyObject_Call host f v); by repeat constructor.
Qed.

Lemma run_Inv_ops_calls acts w w' :
  run host acts w = Some w' → Inv_ops w → Forall calls_callable (trace w) →
  Inv_ops w' ∧ Forall calls_callable (trace w').
Proof.
  revert w. induction acts as [|a acts IH]; intros w; simpl.
  { by intros [= <-]. }
  destruct (step host a w) as [w1|] eqn:Es; [|done]. intros Hr HO Hc.
  apply (IH w1 Hr); [by eapply step_Inv_ops|by eapply step_calls_callable].
Qed.

Lemma reachable_Inv_ops w : reachable host w → Inv_ops w.
Proof.
  intros [acts Hr]. by apply (run_Inv_ops_calls acts World_init w Hr Inv_ops_init).
Qed.

(** ** What holds of every reachable world *)

(** X2: an operation that is in the set of a channel is bound to that
    channel, has a callback, is in the set of no other channel, and the
    channel has its transport connection. *)
Theorem registered_operation_is_bound (w : World) (c o : addr) :
  reachable host w → o ∈ Channel.ops (the_chan w c) →
  GetOp.channel (the_op w o) = Some c ∧
  is_Some (GetOp.cb (the_op w o)) ∧
  is_Some (Channel.channel (the_chan w c)) ∧
  ∀ c', o ∈ Channel.ops (the_chan w c') → c' = c.
Proof.
  intros Hreach Ho. pose proof (reachable_Inv host w Hreach) as HI.
  pose proof (inv_registered w HI c o Ho) as Hb.
  split; [done|]. split; [|split].
  - apply (reachable_Inv_ops w Hreach o). by rewrite Hb.
  - by eapply inv_bound_open.
  - intros c' Ho'. apply (inv_registered w HI) in Ho'. congruence.
Qed.

(** X3: an exchange handle leaves an operation only after [destroy()] was
    called on it: along any run, an operation still holds the exchange it
    held, or the trace has the call that destroyed it. *)
Theorem exchange_destroyed_when_dropped (w w' : World) (acts : list Action)
    (o : addr) (g : pva_ChannelGet) :
  reachable host w → run host acts w = Some w' →
  GetOp.op (the_op w o) = Some g →
  GetOp.op (the_op w' o) = Some g ∨ Ev_ChannelGet_destroy g ∈ trace w'.
Proof.
  intros Hreach Hr Hg.
  destruct (run_keeps acts w w' (reachable_Inv host w Hreach) Hr) as (_ & _ & He).
  by apply He.
Qed.

(** X4: nothing ever takes the transport connection away from a channel
    object: along any run, [Context.close()] and the Destroyed transition
    included, the handle it holds stays the same. *)
Theorem channel_object_keeps_connection (w w' : World) (acts : list Action)
    (c : addr) (pch : pva_Channel) :
  reachable host w → run host acts w = Some w' →
  Channel.channel (the_chan w c) = Some pch →
  Channel.channel (the_chan w' c) = Some pch.
Proof.
  intros Hreach Hr Hc.
  destruct (run_keeps acts w w' (reachable_Inv host w Hreach) Hr) as (_ & Hh & _).
  by apply Hh.
Qed.

(** X5: [cancel()] returns true exactly for an operation that has not been
    cancelled yet, that is, one that is still bound to its channel. *)
Theorem cancel_returns_true_iff_bound (w : World) (o : addr) :
  reachable host w →
  (OpBase_py_cancel o w).2 = true ↔ is_Some (GetOp.channel (the_op w o)).
Proof.
  intros Hreach. pose proof (reachable_Inv_ops w Hreach o) as [Hiff _].
  unfold OpBase_py_cancel.
  destruct (GetOp.channel (the_op w o)) as [c|] eqn:Ec.
  - rewrite GetOp_cancel_result. split; [done|]. intros _.
    apply bool_decide_eq_true. apply Hiff. by rewrite ?Ec.
  - split; [done|]. by intros [? ?].
Qed.

(** X6: whatever the client has called as a callback passed
    [PyCallable_Check] when [get] took it. *)
Theorem only_callables_are_called (w : World) (this : addr) (g : pva_ChannelGet)
    (f v : PyObject) :
  reachable host w → Ev_PyCall this g f v ∈ trace w → PyCallable_Check f = true.
Proof.
  intros [acts Hr] Hin.
  destruct (run_Inv_ops_calls acts World_init w Hr Inv_ops_init) as [_ Hc];
    [by constructor|].
  rewrite Forall_forall in Hc. by apply (Hc _ Hin).
Qed.

(** ** [Channel.get] *)

Lemma restart_each_requests answers l w w' o c pch :
  o ∈ l → GetOp.channel (the_op w o) = Some c →
  Channel.channel (the_chan w c) = Some pch →
  restart_each answers l w = Some w' →
  Ev_createChannelGet pch o (GetOp.req (the_op w o)) ∈ trace w'.
Proof.
  revert w. induction l as [|it l IH]; intros w Hin Ho Hc; simpl.
  { by apply elem_of_nil in Hin. }
  destruct (GetOp_restart it (answers it) w) as [[w1 e]|] eqn:Er; [|done].
  intros Hl. destruct (decide (o = it)) as [->|Hne].
  - destruct (GetOp_restart_bound it (answers it) w c pch Ho Hc) as (w'' & Hr' & _ & _ & _ & _ & Ht).
    rewrite Er in Hr'. simplify_eq.
    destruct (keeps_restart_each _ _ _ _ Hl) as ([d Hd] & _).
    rewrite Hd. apply elem_of_app. right.
    destruct (thrown (answers it)); simpl; rewrite Ht; [right|]; by left.
  - apply elem_of_cons in Hin as [?|Hin]; [done|].
    assert (the_op (caught "Error in restart() " e w1) o = the_op w o ∧
            Channel.channel (the_chan (caught "Error in restart() " e w1) c) = Some pch)
      as [Ho1 Hc1].
    { assert (the_op (caught "Error in restart() " e w1) o = the_op w1 o) as ->
        by by destruct e.
      assert (the_chan (caught "Error in restart() " e w1) c = the_chan w1 c) as ->
        by by destruct e.
      destruct (keeps_GetOp_restart _ _ _ _ _ Er) as (_ & Hh & _).
      split; [|by apply Hh].
      destruct (GetOp.channel (the_op w it)) as [c'|] eqn:Ec'.
      2:{ rewrite GetOp_restart_unbound in Er by done. by simplify_eq. }
      destruct (Channel.channel (the_chan w c')) as [pch'|] eqn:Ech'.
      2:{ by rewrite (GetOp_restart_fault _ _ _ c') in Er. }
      destruct (GetOp_restart_bound it (answers it) w c' pch' Ec' Ech')
        as (w'' & Hr' & _ & _ & Hop & _).
      rewrite Er in Hr'. simplify_eq. rewrite Hop. by rewrite decide_False. }
    rewrite <- Ho1. apply IH; [done|by rewrite Ho1|done|done].
Qed.

(** X7: when the parse of its arguments binds a callable and request
    options that can be built, [get] on a channel that is not connected
    makes no call into the transport: it registers the new operation with
    its callback and request options and returns its handle; the next
    Connected transition then asks the transport for exactly one exchange
    for it, on the connection of the channel and with those request
    options. *)
Theorem get_waits_for_connected (w : World) (self : addr) (cb req : PyObject)
    (answer : CreateGet) (pch : pva_Channel) (opts : PVStructure)
    (answers : addr → CreateGet) :
  reachable host w →
  PyCallable_Check cb = true →
  Channel.channel (the_chan w self) = Some pch →
  buildRequest host req = inr opts →
  ∃ w1 w2,
    Channel_py_get host self (Parse_binds cb req) false answer w =
      Some (w1, PyReturn (PyOpObj (next w))) ∧
    trace w1 = trace w ∧
    the_op w1 (next w) = GetOp.mk (Some self) (Some opts) None (Some cb) ∧
    Channel.ops (the_chan w1 self) = {[next w]} ∪ Channel.ops (the_chan w self) ∧
    Channel_channelStateChange self CONNECTED answers w1 = Some w2 ∧
    count (is_createChannelGet_of (next w)) (trace w2) =
      count (is_createChannelGet_of (next w)) (trace w) + 1 ∧
    Ev_createChannelGet pch (next w) (Some opts) ∈ trace w2.
Proof.
  intros Hreach Hcb Hch Hreq. pose proof (reachable_Inv host w Hreach) as HI.
  rewrite (Channel_py_get_open _ _ _ _ _ _ _ pch), Hreq by done.
  set (w1 := registered_get self cb opts w).
  assert (Inv w1) as HI1 by (apply Inv_registered_get; [done|by rewrite Hch]).
  destruct (Channel_channelStateChange_total self CONNECTED answers w1 HI1) as (w2 & Hw2 & _).
  assert (the_op w1 (next w) = GetOp.mk (Some self) (Some opts) None (Some cb)) as Hop.
  { unfold w1, registered_get. by rewrite the_op_put_chan, the_op_put_op, decide_True. }
  assert (Channel.ops (the_chan w1 self) = {[next w]} ∪ Channel.ops (the_chan w self)) as Hops.
  { unfold w1, registered_get. by rewrite the_chan_put_chan, decide_True. }
  assert (next w ∈ Channel.ops (the_chan w1 self)) as Hin.
  { rewrite Hops. apply elem_of_union. left. by apply elem_of_singleton. }
  exists w1, w2. split; [done|]. split; [done|]. split; [done|]. split; [done|].
  split; [done|]. unfold Channel_channelStateChange in Hw2.
  set (l := elements (Channel.ops (the_chan w1 self))) in *.
  set (swapped := put_chan self (Channel.set_ops ∅ (the_chan w1 self)) w1) in *.
  split.
  - rewrite (restart_each_count answers l swapped w2 (next w)); [|apply NoDup_elements| |done].
    + rewrite decide_True by (by apply elem_of_elements). done.
    + intros x Hx. apply elem_of_elements in Hx. unfold swapped. rewrite the_op_put_chan.
      by rewrite (inv_registered w1 HI1 self x Hx).
  - assert (GetOp.req (the_op swapped (next w)) = Some opts) as <-
      by (unfold swapped; by rewrite the_op_put_chan, Hop).
    eapply (restart_each_requests answers l swapped w2 (next w) self pch); [by apply elem_of_elements| | |done].
    + unfold swapped. by rewrite the_op_put_chan, Hop.
    + unfold swapped, w1, registered_get. autorewrite with store.
      rewrite !(decide_True (P := self = self)) by done. simpl.
      by autorewrite with store.
Qed.

(** X8: when the parse of its arguments binds a callable and request
    options that cannot be built (a string, or a value that
    [P4PValue_unwrap] rejects), [get] fails with the text of the exception
    and leaves nothing behind: no call into the transport, every channel as
    it was, every existing operation as it was, and no operation at the
    address it had used. *)
Theorem get_with_bad_request_leaves_nothing (w : World) (self : addr) (cb req : PyObject)
    (connected : bool) (answer : CreateGet) (pch : pva_Channel) (what : string) :
  reachable host w →
  PyCallable_Check cb = true →
  Channel.channel (the_chan w self) = Some pch →
  buildRequest host req = inl what →
  ∃ w1,
    Channel_py_get host self (Parse_binds cb req) connected answer w =
      Some (w1, CATCH what) ∧
    trace w1 = trace w ∧
    (∀ c, the_chan w1 c = the_chan w c) ∧
    (∀ o, the_op w1 o = the_op w o) ∧
    reachable host w1.
Proof.
  intros Hreach Hcb Hch Hreq. pose proof (reachable_Inv host w Hreach) as HI.
  assert (step host (Call_Channel_get self (Parse_binds cb req) connected answer) w =
          fst <$> Channel_py_get host self (Parse_binds cb req) connected answer w)
    as Hstep by done.
  rewrite (Channel_py_get_open _ _ _ _ _ _ _ pch), Hreq in * by done.
  eexists. split; [reflexivity|].
  set (w0 := put_op (next w) (GetOp.mk (Some self) None None (Some cb)) (bump w)) in *.
  destruct (OpBase_cancel_frame (next w) w0) as (_ & Hops & _ & Ht).
  split; [simpl; by rewrite Ht|]. split; [|split].
  - intros c. rewrite the_chan_free_op, OpBase_cancel_chan.
    assert (the_op w0 (next w) = GetOp.mk (Some self) None None (Some cb)) as ->
      by (unfold w0; rewrite the_op_put_op; by rewrite (decide_True (P := next w = next w))).
    assert (the_chan w0 c = the_chan w c) as -> by done.
    simpl. goal_decide; [|done].
    rewrite difference_not_elem, set_ops_same; [done|].
    apply Inv_unregistered; [done|]. by rewrite (inv_fresh_op w HI (next w)).
  - intros o. rewrite the_op_free_op. goal_decide as [<-|].
    + by rewrite (inv_fresh_op w HI (next w)).
    + unfold the_op at 1. rewrite Hops. fold (the_op w0 o). unfold w0.
      by rewrite the_op_put_op, decide_False, the_op_bump.
  - by apply (reachable_step host
                (Call_Channel_get self (Parse_binds cb req) connected answer) w).
Qed.

(** X9: when the parse of its arguments binds a callable and request
    options that can be built, the channel is connected and
    [createChannelGet] throws, [get] fails with the text of the exception, but the operation it had already
    put in the set of the channel stays there, bound, with its callback and
    request options and without exchange, although the caller gets no
    handle for it. *)
Theorem get_that_throws_stays_registered (w : World) (self : addr) (cb req : PyObject)
    (pch : pva_Channel) (opts : PVStructure) (what : string) :
  PyCallable_Check cb = true →
  Channel.channel (the_chan w self) = Some pch →
  buildRequest host req = inr opts →
  ∃ w1,
    Channel_py_get host self (Parse_binds cb req) true (Throws what) w =
      Some (w1, CATCH what) ∧
    next w ∈ Channel.ops (the_chan w1 self) ∧
    the_op w1 (next w) = GetOp.mk (Some self) (Some opts) None (Some cb) ∧
    trace w1 = Ev_createChannelGet pch (next w) (Some opts) :: trace w.
Proof.
  intros Hcb Hch Hreq.
  rewrite (Channel_py_get_open _ _ _ _ _ _ _ pch), Hreq by done.
  set (w0 := registered_get self cb opts w).
  assert (the_op w0 (next w) = GetOp.mk (Some self) (Some opts) None (Some cb)) as Hop.
  { unfold w0, registered_get. by rewrite the_op_put_chan, the_op_put_op, decide_True. }
  assert (the_chan w0 self =
          Channel.set_ops ({[next w]} ∪ Channel.ops (the_chan w self)) (the_chan w self)) as Hc0.
  { unfold w0, registered_get. by rewrite the_chan_put_chan, decide_True. }
  destruct (GetOp_restart_bound (next w) (Throws what) w0 self pch)
    as (w1 & Hr & _ & _ & Hop1 & Hch1 & Ht).
  { by rewrite Hop. }
  { by rewrite Hc0. }
  rewrite Hr. simpl. exists w1. split; [done|]. split; [|split].
  - rewrite Hch1. rewrite decide_False by (intros [_ ?]; done). rewrite Hc0. simpl.
    apply elem_of_union. left. by apply elem_of_singleton.
  - by rewrite Hop1, decide_True, Hop.
  - rewrite Ht, Hop. done.
Qed.

(** ** Cancelling and dropping an operation *)

Lemma put_op_same a g w : getops w !! a = Some g → put_op a g w = w.
Proof. intros Hg. destruct w. unfold put_op; simpl in *. by rewrite insert_id. Qed.

Lemma GetOp_cancel_allocates this w : is_Some (getops (GetOp_cancel this w).1 !! this).
Proof.
  unfold GetOp_cancel. destruct (GetOp.op _); simpl; rewrite lookup_insert_eq; by eexists.
Qed.

(** X10: [GetOp::cancel] is idempotent: a second call returns false and
    changes nothing, so an exchange is destroyed by the first call only. *)
Theorem GetOp_cancel_twice (w : World) (this : addr) :
  GetOp_cancel this (GetOp_cancel this w).1 = ((GetOp_cancel this w).1, false).
Proof.
  set (w1 := (GetOp_cancel this w).1).
  assert (the_op w1 this = GetOp.mk None (GetOp.req (the_op w this)) None None) as Hop
    by (unfold w1; by rewrite GetOp_cancel_op, decide_True).
  assert (getops w1 !! this = Some (the_op w1 this)) as Hget.
  { destruct (GetOp_cancel_allocates this w) as [g Hg]. fold w1 in Hg.
    unfold the_op. by rewrite Hg. }
  unfold GetOp_cancel at 1. unfold OpBase_cancel. rewrite Hop. simpl.
  rewrite Hop. simpl. unfold GetOp.set_cb, GetOp.set_channel. simpl.
  f_equal. apply put_op_same. by rewrite Hget, Hop.
Qed.

(** X11: when the interpreter drops the handle of an operation,
    [TheDestroyer] cancels it: it ends without channel, callback and
    exchange and in no set, and from then on it is never called back, never
    asks for an exchange, and [cancel()] on it returns false.  (The line
    the destructor writes to standard error when other references remain
    is not part of the trace.) *)
Theorem dropped_operation_is_cancelled (w : World) (ref : addr) :
  let w1 := TheDestroyer_dtor ref w in
  the_op w1 ref = GetOp.mk None (GetOp.req (the_op w ref)) None None ∧
  (reachable host w →
     (∀ c, ref ∉ Channel.ops (the_chan w1 c)) ∧
     (∀ t, GetOp.op (the_op w ref) = Some t → Ev_ChannelGet_destroy t ∈ trace w1)) ∧
  (ref < next w → ∀ acts w',
     run host acts w1 = Some w' →
     (OpBase_py_cancel ref w').2 = false ∧
     List.filter (is_PyCall_of ref) (trace w') = List.filter (is_PyCall_of ref) (trace w1) ∧
     List.filter (is_createChannelGet_of ref) (trace w') =
       List.filter (is_createChannelGet_of ref) (trace w1)).
Proof.
  intros w1. unfold TheDestroyer_dtor in w1.
  assert (the_op w1 ref = GetOp.mk None (GetOp.req (the_op w ref)) None None) as Hop
    by (unfold w1; by rewrite GetOp_cancel_op, decide_True).
  split; [done|]. split.
  - intros Hreach. pose proof (reachable_Inv host w Hreach) as HI. split.
    + intros c. apply Inv_unregistered; [by apply Inv_GetOp_cancel|]. fold w1. by rewrite Hop.
    + intros t Ht. unfold w1. rewrite GetOp_cancel_trace, Ht. by left.
  - intros Hlt acts w' Hr. apply run_evolves in Hr.
    assert (ref < next w1) as Hlt1
      by (unfold w1; by destruct (GetOp_cancel_frame ref w) as [_ ->]).
    split; [|split].
    + rewrite OpBase_py_cancel_unbound; [done|].
      eapply evolves_channel_None; [done..|]. by rewrite Hop.
    + eapply evolves_no_PyCall; [done..|]. by rewrite Hop.
    + eapply evolves_no_createChannelGet; [done..|]. by rewrite Hop.
Qed.

(** ** Closing a context and completing an exchange *)

(** X12: [Context::close] only calls [destroy()] on transport connections:
    it cancels no operation and destroys no exchange; every channel object
    and every operation, registered or not, is left as it was. *)
Theorem close_leaves_operations (w : World) (self : addr) :
  let w1 := Context_close self w in
  chans w1 = chans w ∧ getops w1 = getops w ∧ next w1 = next w ∧
  List.filter is_ChannelGet_destroy (trace w1) = List.filter is_ChannelGet_destroy (trace w) ∧
  List.filter is_PyCall (trace w1) = List.filter is_PyCall (trace w).
Proof.
  intros w1. unfold w1.
  assert (∀ (p : Event → bool) (l : list (string * nat)),
            (∀ ch, p (Ev_Channel_destroy ch) = false) →
            List.filter p (rev (map (λ it : string * nat, Ev_Channel_destroy it.2) l)) = [])
    as Hnone.
  { intros p l Hp. induction l as [|it l IH]; simpl; [done|].
    by rewrite List.filter_app, IH; simpl; rewrite Hp. }
  rewrite Context_close_trace. unfold Context_close.
  destruct (Context.provider (the_ctx w self)); [|done].
  match goal with |- context [foldl ?f ?w0 ?l] =>
    destruct (destroy_all_frame l w0) as (_ & -> & -> & -> & _) end.
  rewrite !List.filter_app, !Hnone by done. done.
Qed.

(** X13: a completion does not use the operation up: [GetOp::getDone]
    changes nothing in the store, the operation keeps its callback and its
    registration, and a second completion invokes the callback a second
    time. *)
Theorem completion_keeps_operation (w : World) (this : addr)
    (status1 status2 : Status) (g1 g2 : pva_ChannelGet) (pv1 pv2 : PVStructure)
    (f v1 v2 : PyObject) :
  GetOp.cb (the_op w this) = Some f →
  getDone_V host status1 pv1 = Some v1 →
  getDone_V host status2 pv2 = Some v2 →
  let w1 := GetOp_getDone host this status1 g1 pv1 w in
  let w2 := GetOp_getDone host this status2 g2 pv2 w1 in
  chans w2 = chans w ∧ getops w2 = getops w ∧
  List.filter is_PyCall (trace w2) =
    Ev_PyCall this g2 f v2 :: Ev_PyCall this g1 f v1 :: List.filter is_PyCall (trace w).
Proof.
  intros Hcb HV1 HV2 w1 w2.
  destruct (GetOp_getDone_frame host this status1 g1 pv1 w) as (_ & Hc1 & Ho1 & _).
  destruct (GetOp_getDone_frame host this status2 g2 pv2 w1) as (_ & Hc2 & Ho2 & _).
  fold w1 in Hc1, Ho1. fold w2 in Hc2, Ho2.
  split; [congruence|]. split; [congruence|].
  assert (GetOp.cb (the_op w1 this) = Some f) as Hcb1 by (unfold the_op; by rewrite Ho1).
  unfold w2. rewrite (GetOp_getDone_trace host _ _ _ _ _ f Hcb1), HV2.
  unfold w1. rewrite (GetOp_getDone_trace host _ _ _ _ _ f Hcb), HV1.
  by destruct (PyObject_Call host f v2), (PyObject_Call host f v1).
Qed.

(** ** Creating contexts and channels *)

(** X14: [Context::py_init] does not look at what [createProvider]
    returns: with an empty provider pointer it still returns success, and
    the context it made fails every [channel()] call, then and ever after,
    like a closed one. *)
Theorem init_without_provider_is_closed (w : World) (args : PyObject) (pname : string) :
  PyArg_Parse_s args = Some pname →
  let r := Context_py_init args None w in
  r.2 = Some (next w) ∧
  trace r.1 = Ev_createProvider pname :: trace w ∧
  ∀ acts w' args' created,
    run host acts r.1 = Some w' →
    ∃ exc msg, Context_py_channel (next w) args' created w' = (w', PyRaise exc msg).
Proof.
  intros Ha r. unfold r, Context_py_init. rewrite Ha. simpl.
  split; [done|]. split; [done|]. intros acts w' args' created Hr.
  apply Context_py_channel_closed. eapply (run_closed host); [| |exact Hr].
  - simpl. lia.
  - by rewrite the_ctx_put_ctx, decide_True.
Qed.

(** X15: a connection that the transport refuses is not entered in the
    registry: [channel(name)] fails naming the channel, the context is as it
    was, and the next call with that name asks the transport again and, if
    it then answers, registers and returns the connection. *)
Theorem refused_channel_is_asked_again (w : World) (self : addr) (args : PyObject)
    (name : string) (p : pva_ChannelProvider) (chan : pva_Channel) :
  PyArg_Parse_s args = Some name →
  Context.provider (the_ctx w self) = Some p →
  Context.channels (the_ctx w self) !! name = None →
  let r1 := Context_py_channel self args None w in
  let r2 := Context_py_channel self args (Some chan) r1.1 in
  r1.2 = PyRaise PyExc_RuntimeError ("Failed to create channel '" +:+ name +:+ "'") ∧
  the_ctx r1.1 self = the_ctx w self ∧
  trace r1.1 = Ev_createChannel self name (next w) None :: trace w ∧
  r2.2 = PyReturn (PyChannelObj (S (next w))) ∧
  trace r2.1 = Ev_createChannel self name (S (next w)) (Some chan) :: trace r1.1 ∧
  Context.channels (the_ctx r2.1 self) !! name = Some chan ∧
  Channel.channel (the_chan r2.1 (S (next w))) = Some chan.
Proof.
  intros Ha Hp Hc r1 r2. unfold r2, r1.
  rewrite (Context_py_channel_refused _ _ _ _ _ Ha Hp Hc). simpl.
  set (w1 := emit _ _).
  assert (Context.provider (the_ctx w1 self) = Some p) as Hp1 by done.
  assert (Context.channels (the_ctx w1 self) !! name = None) as Hc1 by done.
  rewrite (Context_py_channel_created _ _ _ _ _ _ Ha Hp1 Hc1). simpl.
  split; [done|]. split; [done|]. split; [done|]. split; [done|]. split; [done|].
  autorewrite with store. rewrite !decide_True by done. simpl.
  by rewrite lookup_insert_eq.
Qed.

(** ** State changes of the connection *)

Lemma lostConn_each_chan l w c :
  the_chan (lostConn_each l w) c =
    Channel.set_ops (Channel.ops (the_chan (lostConn_each l w) c)) (the_chan w c).
Proof.
  revert w. induction l as [|it l IH]; intros w; simpl.
  { by destruct (the_chan w c). }
  rewrite IH at 1. rewrite GetOp_lostConn_chan. by goal_decide.
Qed.

Lemma lostConn_each_idle l w :
  (∀ o, o ∈ l → GetOp.op (the_op w o) = None) →
  trace (lostConn_each l w) = trace w ∧ ∀ o, the_op (lostConn_each l w) o = the_op w o.
Proof.
  intros Hidle. split.
  - revert w Hidle. induction l as [|it l IH]; intros w Hidle; simpl; [done|].
    rewrite IH.
    + rewrite GetOp_lostConn_trace, Hidle by (by left).
      by destruct (GetOp.channel (the_op w it)).
    + intros o Ho. rewrite GetOp_lostConn_op.
      goal_decide; [done|]. apply Hidle. by right.
  - intros o. rewrite lostConn_each_op. goal_decide as [[Ho _]|]; [|done].
    by rewrite <- (Hidle o Ho), set_op_same.
Qed.

(** X16: a second Disconnected notification changes nothing: the first
    one left every registered operation without exchange, so the second
    destroys nothing, writes nothing and leaves every channel object and
    every operation as it found them. *)
Theorem disconnected_twice (w w1 : World) (self : addr) (lost lost' : addr → CreateGet) :
  reachable host w →
  Channel_channelStateChange self DISCONNECTED lost w = Some w1 →
  ∃ w2, Channel_channelStateChange self DISCONNECTED lost' w1 = Some w2 ∧
    trace w2 = trace w1 ∧ contexts w2 = contexts w1 ∧ next w2 = next w1 ∧
    (∀ c, the_chan w2 c = the_chan w1 c) ∧
    (∀ o, the_op w2 o = the_op w1 o).
Proof.
  intros Hreach Hw1. pose proof (reachable_Inv host w Hreach) as HI.
  eexists. split; [reflexivity|].
  unfold Channel_channelStateChange in Hw1. simplify_eq.
  set (l := elements (Channel.ops (the_chan w self))).
  set (swapped := put_chan self (Channel.set_ops ∅ (the_chan w self)) w).
  set (w1 := lostConn_each l swapped).
  assert (Inv w1) as HI1 by by apply Inv_lostConn_each, Inv_swap.
  set (l1 := elements (Channel.ops (the_chan w1 self))).
  set (swapped1 := put_chan self (Channel.set_ops ∅ (the_chan w1 self)) w1).
  assert (∀ o, o ∈ l1 → GetOp.op (the_op swapped1 o) = None) as Hidle.
  { intros o Ho. unfold l1 in Ho. apply elem_of_elements in Ho.
    unfold w1 in Ho. apply lostConn_each_ops in Ho as [Ho|(Ho & Hb)].
    { unfold swapped in Ho. rewrite the_chan_put_chan, decide_True in Ho by done.
      by apply elem_of_empty in Ho. }
    change (the_op swapped1 o) with (the_op w1 o). unfold w1.
    rewrite lostConn_each_op, decide_True; [done|]. split; [done|by eexists]. }
  destruct (lostConn_each_idle l1 swapped1 Hidle) as [Ht Hop].
  destruct (lostConn_each_frame l1 swapped1) as [Hc Hn].
  split; [done|]. split; [done|]. split; [done|]. split; [|done].
  intros c. rewrite lostConn_each_chan.
  assert (Channel.ops (the_chan (lostConn_each l1 swapped1) c) = Channel.ops (the_chan w1 c))
    as ->.
  { apply set_eq. intros x. rewrite lostConn_each_ops.
    change (the_op swapped1 x) with (the_op w1 x).
    unfold swapped1 at 1. rewrite the_chan_put_chan. unfold l1. rewrite elem_of_elements.
    destruct (decide (self = c)) as [->|Hne]; simpl.
    - split.
      + intros [H|[H _]]; [by apply elem_of_empty in H|done].
      + intros H. right. split; [done|]. by apply (inv_registered w1 HI1).
    - split; [|by left]. intros [H|[H Hb]]; [done|].
      apply (inv_registered w1 HI1) in H. congruence. }
  unfold swapped1. rewrite the_chan_put_chan.
  by destruct (decide (self = c)) as [->|]; destruct (the_chan w1 c).
Qed.

Lemma the_op_caught prefix e w o : the_op (caught prefix e w) o = the_op w o.
Proof. by destruct e. Qed.

Lemma the_chan_caught prefix e w c : the_chan (caught prefix e w) c = the_chan w c.
Proof. by destruct e. Qed.

Lemma restart_each_op answers l w w' o :
  (∀ x, x ∈ l → is_Some (GetOp.channel (the_op w x))) →
  restart_each answers l w = Some w' →
  the_op w' o =
    if decide (o ∈ l) then GetOp.set_op (answered (answers o)) (the_op w o) else the_op w o.
Proof.
  revert w. induction l as [|it l IH]; intros w Hb; simpl.
  { by intros [= <-]. }
  destruct (GetOp_restart it (answers it) w) as [[w1 e]|] eqn:Er; [|done].
  intros Hl. destruct (Hb it) as [c Ec]; [by left|].
  destruct (Channel.channel (the_chan w c)) as [pch|] eqn:Ech.
  2:{ by rewrite (GetOp_restart_fault _ _ _ c) in Er. }
  destruct (GetOp_restart_bound it (answers it) w c pch Ec Ech)
    as (w'' & Hr' & _ & _ & Hop & _).
  rewrite Er in Hr'. simplify_eq.
  assert (∀ x, x ∈ l → is_Some (GetOp.channel
            (the_op (caught "Error in restart() " (thrown (answers it)) w'') x))) as Hb1.
  { intros x Hx. rewrite the_op_caught, Hop.
    destruct (decide (it = x)) as [->|]; [simpl; rewrite Ec; by eexists|].
    apply Hb. by right. }
  rewrite (IH _ Hb1 Hl), the_op_caught, Hop.
  destruct (decide (o ∈ l)) as [Hin|Hnin].
  - rewrite (decide_True (P := o ∈ it :: l)) by (by right).
    by destruct (decide (it = o)) as [->|].
  - destruct (decide (it = o)) as [->|Hne].
    + by rewrite (decide_True (P := o ∈ o :: l)) by (by left).
    + rewrite (decide_False (P := o ∈ it :: l)); [done|].
      intros [?|?]%elem_of_cons; congruence.
Qed.

Lemma restart_each_ops answers l w w' c x :
  (∀ y, y ∈ l → is_Some (GetOp.channel (the_op w y))) →
  restart_each answers l w = Some w' →
  x ∈ Channel.ops (the_chan w' c) ↔
  x ∈ Channel.ops (the_chan w c) ∨
  (x ∈ l ∧ GetOp.channel (the_op w x) = Some c ∧ thrown (answers x) = None).
Proof.
  revert w. induction l as [|it l IH]; intros w Hb; simpl.
  { intros [= <-]. split; [by left|]. intros [?|[H _]]; [done|by apply elem_of_nil in H]. }
  destruct (GetOp_restart it (answers it) w) as [[w1 e]|] eqn:Er; [|done].
  intros Hl. destruct (Hb it) as [c' Ec]; [by left|].
  destruct (Channel.channel (the_chan w c')) as [pch|] eqn:Ech.
  2:{ by rewrite (GetOp_restart_fault _ _ _ c') in Er. }
  destruct (GetOp_restart_bound it (answers it) w c' pch Ec Ech)
    as (w'' & Hr' & _ & _ & Hop & Hch & _).
  rewrite Er in Hr'. simplify_eq.
  assert (∀ y, GetOp.channel (the_op (caught "Error in restart() " (thrown (answers it)) w'') y)
               = GetOp.channel (the_op w y)) as Hsame.
  { intros y. rewrite the_op_caught, Hop. by destruct (decide (it = y)) as [->|]. }
  assert (∀ y, y ∈ l → is_Some (GetOp.channel
            (the_op (caught "Error in restart() " (thrown (answers it)) w'') y))) as Hb1.
  { intros y Hy. rewrite Hsame. apply Hb. by right. }
  rewrite (IH _ Hb1 Hl), Hsame, the_chan_caught, Hch, elem_of_cons.
  destruct (decide (c' = c ∧ thrown (answers it) = None)) as [[-> Hth]|Hn]; simpl.
  - rewrite elem_of_union, elem_of_singleton. naive_solver.
  - split; [naive_solver|].
    intros [?|([->|?] & ? & ?)]; [by left| |by right].
    exfalso. apply Hn. split; congruence.
Qed.

Lemma restart_each_logs answers l w w' o what :
  (∀ x, x ∈ l → is_Some (GetOp.channel (the_op w x))) →
  o ∈ l → answers o = Throws what →
  restart_each answers l w = Some w' →
  Ev_cout ("Error in restart() " +:+ what) ∈ trace w'.
Proof.
  revert w. induction l as [|it l IH]; intros w Hb Hin Hth; simpl.
  { by apply elem_of_nil in Hin. }
  destruct (GetOp_restart it (answers it) w) as [[w1 e]|] eqn:Er; [|done].
  intros Hl. destruct (Hb it) as [c Ec]; [by left|].
  destruct (Channel.channel (the_chan w c)) as [pch|] eqn:Ech.
  2:{ by rewrite (GetOp_restart_fault _ _ _ c) in Er. }
  destruct (GetOp_restart_bound it (answers it) w c pch Ec Ech)
    as (w'' & Hr' & _ & _ & Hop & _).
  rewrite Er in Hr'. simplify_eq.
  destruct (decide (o = it)) as [->|Hne].
  - destruct (keeps_restart_each _ _ _ _ Hl) as ([d Hd] & _).
    rewrite Hd, Hth. apply elem_of_app. right. simpl. by left.
  - eapply IH; [|by apply elem_of_cons in Hin as [?|?]|done|exact Hl].
    intros x Hx. rewrite the_op_caught, Hop.
    destruct (decide (it = x)) as [->|]; [simpl; rewrite Ec; by eexists|].
    apply Hb. by right.
Qed.

(** X17: on Connected, an operation whose request for a new exchange
    throws is reported on standard output and drops out of the set of its
    channel, while it stays bound to the channel with its callback; the set
    afterwards holds exactly the operations whose request did not throw,
    each with the exchange the transport returned. *)
Theorem failed_restart_unregisters (w : World) (self : addr) (answers : addr → CreateGet) :
  reachable host w →
  ∃ w2, Channel_channelStateChange self CONNECTED answers w = Some w2 ∧
    (∀ o, o ∈ Channel.ops (the_chan w2 self) ↔
          o ∈ Channel.ops (the_chan w self) ∧ thrown (answers o) = None) ∧
    (∀ o, o ∈ Channel.ops (the_chan w self) →
       the_op w2 o = GetOp.set_op (answered (answers o)) (the_op w o) ∧
       GetOp.channel (the_op w2 o) = Some self ∧
       ∀ what, answers o = Throws what →
         Ev_cout ("Error in restart() " +:+ what) ∈ trace w2).
Proof.
  intros Hreach. pose proof (reachable_Inv host w Hreach) as HI.
  destruct (Channel_channelStateChange_total self CONNECTED answers w HI) as (w2 & Hw2 & _).
  exists w2. split; [done|].
  unfold Channel_channelStateChange in Hw2.
  set (l := elements (Channel.ops (the_chan w self))) in *.
  set (swapped := put_chan self (Channel.set_ops ∅ (the_chan w self)) w) in *.
  assert (∀ x, x ∈ l → GetOp.channel (the_op swapped x) = Some self) as Hb.
  { intros x Hx. apply elem_of_elements in Hx. by apply (inv_registered w HI). }
  assert (∀ x, x ∈ l → is_Some (GetOp.channel (the_op swapped x))) as Hb'
    by (intros x Hx; rewrite Hb by done; by eexists).
  split.
  - intros o. rewrite (restart_each_ops _ _ _ _ _ _ Hb' Hw2).
    unfold swapped at 1. rewrite the_chan_put_chan, decide_True by done. simpl.
    unfold l. rewrite elem_of_elements. split.
    + intros [H|(? & ? & ?)]; [by apply elem_of_empty in H|done].
    + intros [Ho Hth]. right. split; [done|]. split; [|done].
      by apply (inv_registered w HI).
  - intros o Ho. assert (o ∈ l) as Hl by by apply elem_of_elements.
    rewrite (restart_each_op _ _ _ _ _ Hb' Hw2), decide_True by done.
    split; [done|]. split; [simpl; by apply (inv_registered w HI)|].
    intros what Hth. by eapply restart_each_logs.
Qed.

(** ** The hooks of the garbage collector *)

(** X18: [GetOp::traverse] shows the collector the callback and nothing
    else, and [GetOp::clear] drops the callback and nothing else: the
    operation stays bound and registered with its exchange, a completion
    that arrives afterwards is ignored, and [cancel()] then returns false
    although it unregisters the operation and destroys the exchange. *)
Theorem cleared_operation_is_silent (w : World) (this c : addr) (visit : PyObject → Z) :
  GetOp.channel (the_op w this) = Some c →
  let w1 := GetOp_clear this w in
  (∀ f, GetOp.cb (the_op w this) = Some f → GetOp_traverse visit this w = ([f], visit f)) ∧
  GetOp_traverse visit this w1 = ([], 0%Z) ∧
  the_op w1 this = GetOp.set_cb None (the_op w this) ∧
  chans w1 = chans w ∧ trace w1 = trace w ∧
  (∀ status g pv, GetOp_getDone host this status g pv w1 = w1) ∧
  (OpBase_py_cancel this w1).2 = false ∧
  (this ∉ Channel.ops (the_chan (OpBase_py_cancel this w1).1 c)) ∧
  (∀ t, GetOp.op (the_op w this) = Some t →
        Ev_ChannelGet_destroy t ∈ trace (OpBase_py_cancel this w1).1).
Proof.
  intros Hc w1.
  assert (the_op w1 this = GetOp.set_cb None (the_op w this)) as Hop.
  { unfold w1, GetOp_clear. by rewrite the_op_put_op, decide_True. }
  split.
  { intros f Hf. unfold GetOp_traverse. rewrite Hf. by destruct (Z.eqb_spec (visit f) 0) as [->|]. }
  split; [unfold GetOp_traverse; by rewrite Hop|].
  split; [done|]. split; [done|]. split; [done|]. split.
  { intros status g pv. apply GetOp_getDone_no_callback. by rewrite Hop. }
  assert (GetOp.channel (the_op w1 this) = Some c) as Hc1 by by rewrite Hop.
  unfold OpBase_py_cancel. rewrite Hc1. split; [|split].
  - by rewrite GetOp_cancel_result, Hop.
  - rewrite GetOp_cancel_chan, decide_True by done. simpl.
    rewrite elem_of_difference, elem_of_singleton. by intros [_ ?].
  - intros t Ht. rewrite GetOp_cancel_trace, Hop. simpl. rewrite Ht. by left.
Qed.

(** ** Channel handles *)

Lemma Context_py_channel_returns self args created w c :
  (Context_py_channel self args created w).2 = PyReturn (PyChannelObj c) →
  c = next w ∧
  ∃ name p pch,
    PyArg_Parse_s args = Some name ∧
    Context.provider (the_ctx (Context_py_channel self args created w).1 self) = Some p ∧
    Context.channels (the_ctx (Context_py_channel self args created w).1 self) !! name
      = Some pch ∧
    Channel.channel (the_chan (Context_py_channel self args created w).1 c) = Some pch.
Proof.
  intros Hret.
  destruct (PyArg_Parse_s args) as [cname|] eqn:Ea.
  2:{ destruct (Context_py_channel_bad_args self args created w Ea) as [m Hm].
      by rewrite Hm in Hret. }
  destruct (Context.provider (the_ctx w self)) as [p|] eqn:Ep.
  2:{ destruct (Context_py_channel_closed self args created w Ep) as (e & m & Hm).
      by rewrite Hm in Hret. }
  destruct (Context.channels (the_ctx w self) !! cname) as [chan|] eqn:Ec.
  { rewrite (Context_py_channel_found _ _ _ _ _ _ _ Ea Ep Ec) in Hret |- *.
    simpl in *. simplify_eq. split; [done|]. exists cname, p, chan.
    autorewrite with store. by rewrite !decide_True. }
  destruct created as [chan|].
  - rewrite (Context_py_channel_created _ _ _ _ _ _ Ea Ep Ec) in Hret |- *.
    simpl in *. simplify_eq. split; [done|]. exists cname, p, chan.
    autorewrite with store. rewrite !decide_True by done. simpl.
    by rewrite lookup_insert_eq.
  - by rewrite (Context_py_channel_refused _ _ _ _ _ Ea Ep Ec) in Hret.
Qed.

Lemma Context_close_chans self w : chans (Context_close self w) = chans w.
Proof.
  unfold Context_close. destruct (Context.provider (the_ctx w self)); [|done].
  match goal with |- context [foldl ?f ?w0 ?l] =>
    by destruct (destroy_all_frame l w0) as (_ & -> & _) end.
Qed.

(** X19: a channel handle that [channel()] returned is never closed:
    whatever happens afterwards, closing its context and a Destroyed
    notification included, it keeps the connection it was given, and
    [name()] returns the name and never answers "Channel closed". *)
Theorem channel_handle_never_closed (w w' : World) (self c : addr) (args : PyObject)
    (created : option pva_Channel) (acts : list Action) :
  reachable host w →
  (Context_py_channel self args created w).2 = PyReturn (PyChannelObj c) →
  run host acts (Context_py_channel self args created w).1 = Some w' →
  c = next w ∧
  (∃ pch, Channel.channel (the_chan (Context_py_channel self args created w).1 c) = Some pch ∧
          Channel.channel (the_chan w' c) = Some pch) ∧
  (∀ name, Channel_py_name c name w' = Some (PyReturn (PyStr name))).
Proof.
  intros Hreach Hret Hrun. pose proof (reachable_Inv host w Hreach) as HI.
  pose proof (Inv_Context_py_channel self args created w HI) as HI1.
  destruct (Context_py_channel_returns _ _ _ _ _ Hret) as (-> & name & p & pch & _ & _ & _ & Hpch).
  destruct (run_keeps _ _ _ HI1 Hrun) as (_ & Hkeep & _).
  pose proof (Hkeep _ _ Hpch) as Hpch'.
  split; [done|]. split; [by exists pch|].
  intros nm. unfold Channel_py_name.
  destruct (chans w' !! next w) as [ch|] eqn:Ech.
  - rewrite (the_chan_lookup _ _ _ Ech) in Hpch'. by rewrite Hpch'.
  - unfold the_chan in Hpch'. by rewrite Ech in Hpch'.
Qed.

(** C7: [Channel.get] does not fail on a closed channel.  Once its
    arguments are parsed it refuses a callback that is not callable, and
    changes nothing then.  But its test for a closed channel,
    [!SELF->channel], never holds for a handle that [channel()] returned:
    after [Context.close()] has destroyed the connection of the handle, and
    whatever is called or notified afterwards, [get] with a callable makes
    and registers an operation and returns its handle, and when the
    transport reports the channel connected it asks the destroyed
    connection for an exchange. *)
Theorem get_on_closed_channel_proceeds (w w' : World) (self c : addr) (args : PyObject)
    (created : option pva_Channel) (acts : list Action) :
  reachable host w →
  (Context_py_channel self args created w).2 = PyReturn (PyChannelObj c) →
  run host acts (Context_close self (Context_py_channel self args created w).1) = Some w' →
  (∀ cb req connected answer,
     PyCallable_Check cb = false →
     Channel_py_get host c (Parse_binds cb req) connected answer w' =
       Some (w', PyRaise PyExc_ValueError ("callable required, not " +:+ tp_name_of cb))) ∧
  ∃ pch,
    Ev_Channel_destroy pch ∈ trace w' ∧
    Channel.channel (the_chan w' c) = Some pch ∧
    ∀ cb req opts connected t,
      PyCallable_Check cb = true → buildRequest host req = inr opts →
      ∃ w'',
        Channel_py_get host c (Parse_binds cb req) connected (Returns t) w' =
          Some (w'', PyReturn (PyOpObj (next w'))) ∧
        next w' ∈ Channel.ops (the_chan w'' c) ∧
        trace w'' =
          (if connected then [Ev_createChannelGet pch (next w') (Some opts)] else [])
          ++ trace w'.
Proof.
  intros Hreach Hret Hrun. pose proof (reachable_Inv host w Hreach) as HI.
  split; [intros; by apply Channel_py_get_not_callable|].
  destruct (Context_py_channel_returns _ _ _ _ _ Hret)
    as (-> & name & p & pch & _ & Hp & Hreg & Hpch).
  set (w0 := (Context_py_channel self args created w).1) in *.
  assert (Inv (Context_close self w0)) as HI1
    by by apply Inv_Context_close, Inv_Context_py_channel.
  destruct (run_keeps _ _ _ HI1 Hrun) as ([d Hd] & Hkeep & _).
  assert (Channel.channel (the_chan w' (next w)) = Some pch) as Hpch'.
  { apply Hkeep. unfold the_chan. by rewrite Context_close_chans. }
  exists pch. split; [|split; [done|]].
  { rewrite Hd, Context_close_trace, Hp. apply elem_of_app. right.
    apply elem_of_app. left. apply list_elem_of_In. rewrite <- in_rev.
    apply (in_map (λ it : string * nat, Ev_Channel_destroy it.2) _ (name, pch)).
    apply list_elem_of_In. by apply elem_of_map_to_list. }
  intros cb req opts connected t Hcb Hreq.
  rewrite (Channel_py_get_open _ _ _ _ _ _ _ pch), Hreq by done.
  set (wr := registered_get (next w) cb opts w').
  assert (the_op wr (next w') = GetOp.mk (Some (next w)) (Some opts) None (Some cb)) as Hop.
  { unfold wr, registered_get. by rewrite the_op_put_chan, the_op_put_op, decide_True. }
  assert (the_chan wr (next w) =
          Channel.set_ops ({[next w']} ∪ Channel.ops (the_chan w' (next w)))
            (the_chan w' (next w))) as Hc0.
  { unfold wr, registered_get. by rewrite the_chan_put_chan, decide_True. }
  destruct connected.
  - destruct (GetOp_restart_bound (next w') (Returns t) wr (next w) pch)
      as (w1 & Hr & _ & _ & _ & Hch1 & Ht).
    { by rewrite Hop. }
    { by rewrite Hc0. }
    rewrite Hr. simpl. exists w1. split; [done|]. split.
    + rewrite Hch1, decide_True by done. simpl.
      apply elem_of_union. left. by apply elem_of_singleton.
    + by rewrite Ht, Hop.
  - exists wr. split; [done|]. split; [|done].
    rewrite Hc0. simpl. apply elem_of_union. left. by apply elem_of_singleton.
Qed.

End Coverage.

(** ** The further properties on the scenarios *)

Example world_chan_reachable : reachable example_host world_chan.
Proof. exists channel_R1. vm_compute. reflexivity. Qed.

Example world_R1_registered : 2 ∈ Channel.ops (the_chan world_R1 1).
Proof.
  apply (bool_decide_unpack (2 ∈ Channel.ops (the_chan world_R1 1))). vm_compute. exact I.
Qed.

Lemma registered_operation_is_bound_witness :
  reachable example_host world_R1 ∧ 2 ∈ Channel.ops (the_chan world_R1 1) ∧
  GetOp.channel (the_op world_R1 2) = Some 1 ∧
  is_Some (GetOp.cb (the_op world_R1 2)) ∧
  is_Some (Channel.channel (the_chan world_R1 1)) ∧
  ∀ c', 2 ∈ Channel.ops (the_chan world_R1 c') → c' = 1.
Proof.
  split; [exact world_R1_reachable|]. split; [exact world_R1_registered|].
  exact (registered_operation_is_bound example_host world_R1 1 2
           world_R1_reachable world_R1_registered).
Defined.

Lemma exchange_destroyed_when_dropped_witness :
  reachable example_host world_R1 ∧ GetOp.op (the_op world_R1 2) = Some 9 ∧
  ∃ w', run example_host [Notify_channelStateChange 1 DISCONNECTED destroy_R1] world_R1
          = Some w' ∧
        (GetOp.op (the_op w' 2) = Some 9 ∨ Ev_ChannelGet_destroy 9 ∈ trace w').
Proof.
  split; [exact world_R1_reachable|]. split; [exact (f_equal GetOp.op world_R1_op)|].
  exists (default World_init
            (run example_host [Notify_channelStateChange 1 DISCONNECTED destroy_R1] world_R1)).
  assert (run example_host [Notify_channelStateChange 1 DISCONNECTED destroy_R1] world_R1 =
          Some (default World_init
                  (run example_host [Notify_channelStateChange 1 DISCONNECTED destroy_R1]
                     world_R1))) as Hrun by (vm_compute; reflexivity).
  split; [exact Hrun|].
  exact (exchange_destroyed_when_dropped example_host _ _ _ 2 9 world_R1_reachable Hrun
           (f_equal GetOp.op world_R1_op)).
Defined.

Lemma channel_object_keeps_connection_witness :
  reachable example_host world_R1 ∧ Channel.channel (the_chan world_R1 1) = Some 7 ∧
  ∃ w', run example_host
          [Call_Context_close 0; Notify_channelStateChange 1 DESTROYED destroy_R1] world_R1
          = Some w' ∧
        Channel.channel (the_chan w' 1) = Some 7.
Proof.
  assert (Channel.channel (the_chan world_R1 1) = Some 7) as Hc by (vm_compute; reflexivity).
  split; [exact world_R1_reachable|]. split; [exact Hc|].
  exists (default World_init
            (run example_host
               [Call_Context_close 0; Notify_channelStateChange 1 DESTROYED destroy_R1]
               world_R1)).
  assert (run example_host
            [Call_Context_close 0; Notify_channelStateChange 1 DESTROYED destroy_R1] world_R1 =
          Some (default World_init
                  (run example_host
                     [Call_Context_close 0; Notify_channelStateChange 1 DESTROYED destroy_R1]
                     world_R1))) as Hrun by (vm_compute; reflexivity).
  split; [exact Hrun|].
  exact (channel_object_keeps_connection example_host _ _ _ 1 7 world_R1_reachable Hrun Hc).
Defined.

Lemma cancel_returns_true_iff_bound_witness :
  reachable example_host world_R1 ∧
  ((OpBase_py_cancel 2 world_R1).2 = true ↔ is_Some (GetOp.channel (the_op world_R1 2))).
Proof.
  split; [exact world_R1_reachable|].
  exact (cancel_returns_true_iff_bound example_host world_R1 2 world_R1_reachable).
Defined.

Example world_done_reachable : reachable example_host world_done.
Proof. exists (get_on_R1 ++ late_completion). vm_compute. reflexivity. Qed.

Example world_done_called :
  Ev_PyCall 2 9 (PyFunction 0) (P4PValue [("value", PVScalar 42)]) ∈ trace world_done.
Proof.
  assert (trace world_done =
          Ev_PyCall 2 9 (PyFunction 0) (P4PValue [("value", PVScalar 42)]) :: trace world_R1)
    as -> by (vm_compute; reflexivity).
  by left.
Qed.

Lemma only_callables_are_called_witness :
  reachable example_host world_done ∧
  Ev_PyCall 2 9 (PyFunction 0) (P4PValue [("value", PVScalar 42)]) ∈ trace world_done ∧
  PyCallable_Check (PyFunction 0) = true.
Proof.
  split; [exact world_done_reachable|]. split; [exact world_done_called|].
  exact (only_callables_are_called example_host world_done 2 9 (PyFunction 0) _
           world_done_reachable world_done_called).
Defined.

Example world_chan_open : Channel.channel (the_chan world_chan 1) = Some 7.
Proof. vm_compute. reflexivity. Qed.

Lemma get_waits_for_connected_witness :
  reachable example_host world_chan ∧
  PyCallable_Check (PyFunction 0) = true ∧
  Channel.channel (the_chan world_chan 1) = Some 7 ∧
  buildRequest example_host Py_None = inr [] ∧
  ∃ w1 w2,
    Channel_py_get example_host 1 (Parse_binds (PyFunction 0) Py_None) false
      (Returns (Some 9)) world_chan
      = Some (w1, PyReturn (PyOpObj (next world_chan))) ∧
    trace w1 = trace world_chan ∧
    Channel_channelStateChange 1 CONNECTED (λ _, Returns (Some 9)) w1 = Some w2 ∧
    Ev_createChannelGet 7 (next world_chan) (Some []) ∈ trace w2.
Proof.
  split; [exact world_chan_reachable|]. split; [reflexivity|].
  split; [exact world_chan_open|]. split; [reflexivity|].
  destruct (get_waits_for_connected example_host world_chan 1 (PyFunction 0) Py_None
              (Returns (Some 9)) 7 [] (λ _, Returns (Some 9))
              world_chan_reachable eq_refl world_chan_open eq_refl)
    as (w1 & w2 & Hg & Ht & _ & _ & Hc & _ & Hin).
  exists w1, w2. split; [exact Hg|]. split; [exact Ht|]. split; [exact Hc|exact Hin].
Defined.

Lemma get_with_bad_request_leaves_nothing_witness :
  reachable example_host world_chan ∧
  PyCallable_Check (PyFunction 0) = true ∧
  Channel.channel (the_chan world_chan 1) = Some 7 ∧
  buildRequest example_host (PyStr "field(value)") = inl "pvRequest parsing not implemented" ∧
  ∃ w1,
    Channel_py_get example_host 1 (Parse_binds (PyFunction 0) (PyStr "field(value)")) true
      (Returns (Some 9)) world_chan
      = Some (w1, CATCH "pvRequest parsing not implemented") ∧
    trace w1 = trace world_chan ∧
    (∀ c, the_chan w1 c = the_chan world_chan c) ∧
    (∀ o, the_op w1 o = the_op world_chan o) ∧
    reachable example_host w1.
Proof.
  split; [exact world_chan_reachable|]. split; [reflexivity|].
  split; [exact world_chan_open|]. split; [reflexivity|].
  exact (get_with_bad_request_leaves_nothing example_host world_chan 1 (PyFunction 0)
           (PyStr "field(value)") true (Returns (Some 9)) 7 _
           world_chan_reachable eq_refl world_chan_open eq_refl).
Defined.

Lemma get_that_throws_stays_registered_witness :
  PyCallable_Check (PyFunction 0) = true ∧
  Channel.channel (the_chan world_chan 1) = Some 7 ∧
  buildRequest example_host Py_None = inr [] ∧
  ∃ w1,
    Channel_py_get example_host 1 (Parse_binds (PyFunction 0) Py_None) true
      (Throws "timeout") world_chan
      = Some (w1, CATCH "timeout") ∧
    next world_chan ∈ Channel.ops (the_chan w1 1) ∧
    the_op w1 (next world_chan) = GetOp.mk (Some 1) (Some []) None (Some (PyFunction 0)) ∧
    trace w1 = Ev_createChannelGet 7 (next world_chan) (Some []) :: trace world_chan.
Proof.
  split; [reflexivity|]. split; [exact world_chan_open|]. split; [reflexivity|].
  exact (get_that_throws_stays_registered example_host world_chan 1 (PyFunction 0) Py_None
           7 [] "timeout" eq_refl world_chan_open eq_refl).
Defined.

Lemma dropped_operation_is_cancelled_witness :
  reachable example_host world_R1 ∧ 2 < next world_R1 ∧
  the_op (TheDestroyer_dtor 2 world_R1) 2 = GetOp.mk None (Some []) None None ∧
  (∀ c, 2 ∉ Channel.ops (the_chan (TheDestroyer_dtor 2 world_R1) c)) ∧
  Ev_ChannelGet_destroy 9 ∈ trace (TheDestroyer_dtor 2 world_R1) ∧
  ∃ w', run example_host late_completion (TheDestroyer_dtor 2 world_R1) = Some w' ∧
        (OpBase_py_cancel 2 w').2 = false ∧
        List.filter (is_PyCall_of 2) (trace w') =
          List.filter (is_PyCall_of 2) (trace (TheDestroyer_dtor 2 world_R1)).
Proof.
  assert (2 < next world_R1) as Hlt by (vm_compute; lia).
  pose proof (dropped_operation_is_cancelled example_host world_R1 2) as H.
  cbv zeta in H. destruct H as (Hop & Hreach & Hlater).
  destruct (Hreach world_R1_reachable) as [Hnin Hdes].
  split; [exact world_R1_reachable|]. split; [exact Hlt|].
  split; [rewrite Hop, world_R1_op; reflexivity|].
  split; [exact Hnin|]. split; [exact (Hdes 9 (f_equal GetOp.op world_R1_op))|].
  exists (default World_init
            (run example_host late_completion (TheDestroyer_dtor 2 world_R1))).
  assert (run example_host late_completion (TheDestroyer_dtor 2 world_R1) =
          Some (default World_init
                  (run example_host late_completion (TheDestroyer_dtor 2 world_R1)))) as Hrun
    by (vm_compute; reflexivity).
  destruct (Hlater Hlt _ _ Hrun) as (Hc & Hp & _).
  split; [exact Hrun|]. split; [exact Hc|exact Hp].
Defined.

Lemma completion_keeps_operation_witness :
  GetOp.cb (the_op world_R1 2) = Some (PyFunction 0) ∧
  getDone_V example_host (mkStatus STATUSTYPE_OK "") [("value", PVScalar 1)]
    = Some (P4PValue [("value", PVScalar 1)]) ∧
  getDone_V example_host (mkStatus STATUSTYPE_OK "") [("value", PVScalar 2)]
    = Some (P4PValue [("value", PVScalar 2)]) ∧
  List.filter is_PyCall
    (trace (GetOp_getDone example_host 2 (mkStatus STATUSTYPE_OK "") 9 [("value", PVScalar 2)]
              (GetOp_getDone example_host 2 (mkStatus STATUSTYPE_OK "") 9
                 [("value", PVScalar 1)] world_R1))) =
    Ev_PyCall 2 9 (PyFunction 0) (P4PValue [("value", PVScalar 2)])
    :: Ev_PyCall 2 9 (PyFunction 0) (P4PValue [("value", PVScalar 1)])
    :: List.filter is_PyCall (trace world_R1).
Proof.
  assert (GetOp.cb (the_op world_R1 2) = Some (PyFunction 0)) as Hcb
    by (vm_compute; reflexivity).
  split; [exact Hcb|]. split; [reflexivity|]. split; [reflexivity|].
  pose proof (completion_keeps_operation example_host world_R1 2
                (mkStatus STATUSTYPE_OK "") (mkStatus STATUSTYPE_OK "") 9 9
                [("value", PVScalar 1)] [("value", PVScalar 2)]
                (PyFunction 0) _ _ Hcb eq_refl eq_refl) as H.
  cbv zeta in H. exact (proj2 (proj2 H)).
Defined.

Lemma init_without_provider_is_closed_witness :
  PyArg_Parse_s (PyStr "pva") = Some "pva" ∧
  (Context_py_init (PyStr "pva") None World_init).2 = Some 0 ∧
  ∃ w', run example_host [Call_Context_close 0]
          (Context_py_init (PyStr "pva") None World_init).1 = Some w' ∧
        ∃ exc msg, Context_py_channel 0 (PyStr "R1") (Some 7) w' = (w', PyRaise exc msg).
Proof.
  pose proof (init_without_provider_is_closed example_host World_init (PyStr "pva") "pva"
                eq_refl) as H.
  cbv zeta in H. destruct H as (Hret & _ & Hlater).
  split; [reflexivity|]. split; [exact Hret|].
  exists (default World_init
            (run example_host [Call_Context_close 0]
               (Context_py_init (PyStr "pva") None World_init).1)).
  assert (run example_host [Call_Context_close 0]
            (Context_py_init (PyStr "pva") None World_init).1 =
          Some (default World_init
                  (run example_host [Call_Context_close 0]
                     (Context_py_init (PyStr "pva") None World_init).1))) as Hrun
    by (vm_compute; reflexivity).
  split; [exact Hrun|]. exact (Hlater _ _ (PyStr "R1") (Some 7) Hrun).
Defined.

Lemma refused_channel_is_asked_again_witness :
  PyArg_Parse_s (PyStr "R2") = Some "R2" ∧
  Context.provider (the_ctx world_ctx 0) = Some "pva" ∧
  Context.channels (the_ctx world_ctx 0) !! "R2" = None ∧
  (Context_py_channel 0 (PyStr "R2") None world_ctx).2 =
    PyRaise PyExc_RuntimeError ("Failed to create channel '" +:+ "R2" +:+ "'") ∧
  (Context_py_channel 0 (PyStr "R2") (Some 8)
     (Context_py_channel 0 (PyStr "R2") None world_ctx).1).2 =
    PyReturn (PyChannelObj (S (next world_ctx))).
Proof.
  assert (Context.provider (the_ctx world_ctx 0) = Some "pva") as Hp
    by (vm_compute; reflexivity).
  assert (Context.channels (the_ctx world_ctx 0) !! "R2" = None) as Hc
    by (vm_compute; reflexivity).
  pose proof (refused_channel_is_asked_again world_ctx 0 (PyStr "R2") "R2" "pva" 8
                eq_refl Hp Hc) as H.
  cbv zeta in H. destruct H as (H1 & _ & _ & H2 & _).
  split; [reflexivity|]. split; [exact Hp|]. split; [exact Hc|].
  split; [exact H1|exact H2].
Defined.

Lemma disconnected_twice_witness :
  reachable example_host world_R1 ∧
  ∃ w1 w2,
    Channel_channelStateChange 1 DISCONNECTED destroy_R1 world_R1 = Some w1 ∧
    Channel_channelStateChange 1 DISCONNECTED destroy_R1 w1 = Some w2 ∧
    trace w2 = trace w1 ∧
    (∀ c, the_chan w2 c = the_chan w1 c) ∧
    (∀ o, the_op w2 o = the_op w1 o).
Proof.
  split; [exact world_R1_reachable|].
  exists (default World_init (Channel_channelStateChange 1 DISCONNECTED destroy_R1 world_R1)).
  assert (Channel_channelStateChange 1 DISCONNECTED destroy_R1 world_R1 =
          Some (default World_init
                  (Channel_channelStateChange 1 DISCONNECTED destroy_R1 world_R1))) as Hw1
    by reflexivity.
  destruct (disconnected_twice example_host world_R1 _ 1 destroy_R1 destroy_R1
              world_R1_reachable Hw1) as (w2 & Hw2 & Ht & _ & _ & Hch & Hop).
  exists w2. split; [exact Hw1|]. split; [exact Hw2|]. split; [exact Ht|].
  split; [exact Hch|exact Hop].
Defined.

Lemma failed_restart_unregisters_witness :
  reachable example_host world_R1 ∧ 2 ∈ Channel.ops (the_chan world_R1 1) ∧
  ∃ w2, Channel_channelStateChange 1 CONNECTED (λ _, Throws "timeout") world_R1 = Some w2 ∧
    (2 ∉ Channel.ops (the_chan w2 1)) ∧
    GetOp.channel (the_op w2 2) = Some 1 ∧
    GetOp.op (the_op w2 2) = None ∧
    Ev_cout ("Error in restart() " +:+ "timeout") ∈ trace w2.
Proof.
  split; [exact world_R1_reachable|]. split; [exact world_R1_registered|].
  destruct (failed_restart_unregisters example_host world_R1 1 (λ _, Throws "timeout")
              world_R1_reachable) as (w2 & Hw2 & Hset & Hops).
  destruct (Hops 2 world_R1_registered) as (Hop & Hch & Hlog).
  exists w2. split; [exact Hw2|]. split.
  { intros Hin. apply Hset in Hin as [_ Hth]. discriminate Hth. }
  split; [exact Hch|]. split; [rewrite Hop; reflexivity|]. exact (Hlog "timeout" eq_refl).
Defined.

Lemma cleared_operation_is_silent_witness :
  GetOp.channel (the_op world_R1 2) = Some 1 ∧
  GetOp_traverse (λ _, 0%Z) 2 world_R1 = ([PyFunction 0], 0%Z) ∧
  GetOp_traverse (λ _, 0%Z) 2 (GetOp_clear 2 world_R1) = ([], 0%Z) ∧
  GetOp_getDone example_host 2 (mkStatus STATUSTYPE_OK "") 9 [("value", PVScalar 42)]
    (GetOp_clear 2 world_R1) = GetOp_clear 2 world_R1 ∧
  (OpBase_py_cancel 2 (GetOp_clear 2 world_R1)).2 = false ∧
  Ev_ChannelGet_destroy 9 ∈ trace (OpBase_py_cancel 2 (GetOp_clear 2 world_R1)).1.
Proof.
  assert (GetOp.channel (the_op world_R1 2) = Some 1) as Hc by (vm_compute; reflexivity).
  pose proof (cleared_operation_is_silent example_host world_R1 2 1 (λ _, 0%Z) Hc) as H.
  cbv zeta in H. destruct H as (Ht & Ht' & _ & _ & _ & Hdone & Hret & _ & Hdes).
  split; [exact Hc|].
  split; [exact (Ht (PyFunction 0) (f_equal GetOp.cb world_R1_op))|].
  split; [exact Ht'|]. split; [exact (Hdone _ _ _)|]. split; [exact Hret|].
  exact (Hdes 9 (f_equal GetOp.op world_R1_op)).
Defined.

Lemma channel_handle_never_closed_witness :
  reachable example_host world_ctx ∧
  (Context_py_channel 0 (PyStr "R1") (Some 7) world_ctx).2 = PyReturn (PyChannelObj 1) ∧
  ∃ w', run example_host
          [Call_Context_close 0; Notify_channelStateChange 1 DESTROYED destroy_R1]
          (Context_py_channel 0 (PyStr "R1") (Some 7) world_ctx).1 = Some w' ∧
        Channel.channel (the_chan w' 1) = Some 7 ∧
        Channel_py_name 1 "R1" w' = Some (PyReturn (PyStr "R1")).
Proof.
  assert ((Context_py_channel 0 (PyStr "R1") (Some 7) world_ctx).2 =
          PyReturn (PyChannelObj 1)) as Hret by (vm_compute; reflexivity).
  assert (Channel.channel
            (the_chan (Context_py_channel 0 (PyStr "R1") (Some 7) world_ctx).1 1) = Some 7)
    as Hch by (vm_compute; reflexivity).
  split; [exact world_ctx_reachable|]. split; [exact Hret|].
  exists (default World_init
            (run example_host
               [Call_Context_close 0; Notify_channelStateChange 1 DESTROYED destroy_R1]
               (Context_py_channel 0 (PyStr "R1") (Some 7) world_ctx).1)).
  assert (run example_host
            [Call_Context_close 0; Notify_channelStateChange 1 DESTROYED destroy_R1]
            (Context_py_channel 0 (PyStr "R1") (Some 7) world_ctx).1 =
          Some (default World_init
                  (run example_host
                     [Call_Context_close 0; Notify_channelStateChange 1 DESTROYED destroy_R1]
                     (Context_py_channel 0 (PyStr "R1") (Some 7) world_ctx).1))) as Hrun
    by (vm_compute; reflexivity).
  destruct (channel_handle_never_closed example_host _ _ 0 1 (PyStr "R1") (Some 7) _
              world_ctx_reachable Hret Hrun) as (_ & (pch & Hpch & Hpch') & Hname).
  split; [exact Hrun|]. split; [|exact (Hname "R1")].
  rewrite Hpch'. rewrite <- Hpch. exact Hch.
Defined.

Lemma get_on_closed_channel_proceeds_witness :
  reachable example_host world_ctx ∧
  (Context_py_channel 0 (PyStr "R1") (Some 7) world_ctx).2 = PyReturn (PyChannelObj 1) ∧
  ∃ w', run example_host [Notify_channelStateChange 1 DESTROYED destroy_R1]
          (Context_close 0 (Context_py_channel 0 (PyStr "R1") (Some 7) world_ctx).1)
          = Some w' ∧
        Ev_Channel_destroy 7 ∈ trace w' ∧
        ∃ w'', Channel_py_get example_host 1 (Parse_binds (PyFunction 0) Py_None) true
                 (Returns (Some 9)) w' = Some (w'', PyReturn (PyOpObj (next w'))) ∧
               next w' ∈ Channel.ops (the_chan w'' 1) ∧
               trace w'' = Ev_createChannelGet 7 (next w') (Some []) :: trace w'.
Proof.
  assert ((Context_py_channel 0 (PyStr "R1") (Some 7) world_ctx).2 =
          PyReturn (PyChannelObj 1)) as Hret by (vm_compute; reflexivity).
  assert (Channel.channel
            (the_chan (Context_close 0
                         (Context_py_channel 0 (PyStr "R1") (Some 7) world_ctx).1) 1) = Some 7)
    as Hch by (vm_compute; reflexivity).
  split; [exact world_ctx_reachable|]. split; [exact Hret|].
  exists (default World_init
            (run example_host [Notify_channelStateChange 1 DESTROYED destroy_R1]
               (Context_close 0 (Context_py_channel 0 (PyStr "R1") (Some 7) world_ctx).1))).
  assert (run example_host [Notify_channelStateChange 1 DESTROYED destroy_R1]
            (Context_close 0 (Context_py_channel 0 (PyStr "R1") (Some 7) world_ctx).1) =
          Some (default World_init
                  (run example_host [Notify_channelStateChange 1 DESTROYED destroy_R1]
                     (Context_close 0
                        (Context_py_channel 0 (PyStr "R1") (Some 7) world_ctx).1)))) as Hrun
    by (vm_compute; reflexivity).
  assert (Channel.channel
            (the_chan (default World_init
                  (run example_host [Notify_channelStateChange 1 DESTROYED destroy_R1]
                     (Context_close 0
                        (Context_py_channel 0 (PyStr "R1") (Some 7) world_ctx).1))) 1)
          = Some 7) as Hch' by (vm_compute; reflexivity).
  destruct (get_on_closed_channel_proceeds example_host _ _ 0 1 (PyStr "R1") (Some 7) _
              world_ctx_reachable Hret Hrun) as (_ & pch & Hdes & Hpch & Hget).
  assert (pch = 7) as -> by (rewrite Hch' in Hpch; injection Hpch as <-; reflexivity).
  split; [exact Hrun|]. split; [exact Hdes|].
  exact (Hget (PyFunction 0) Py_None [] true (Some 9) eq_refl eq_refl).
Defined.
